(** * FinSight: the data layer, the request handlers and the derived metrics

    A shallow embedding of the personal-finance application:
    - [shared/schema.ts] (tables and zod insert schemas),
    - [server/storage.ts] ([SqliteStorage]),
    - [server/routes.ts] (the express handlers),
    - the metrics computed by the dashboard and the goals page.

    JavaScript numbers are IEEE-754 binary64 values: they are modelled by
    Rocq's primitive floats, whose operations are the same ones.  JavaScript
    objects with string keys (request bodies, csv rows, JSON responses) are
    finite maps from strings.  Table rows are records, tables are lists of
    rows in insertion order. *)

From Stdlib Require Import Floats ZArith Ascii String.
From stdpp Require Import base strings list gmap sorting pretty.

Set Warnings "-register-all".

(* ===================================================================== *)
(** * JavaScript values *)
(* ===================================================================== *)

Module Js.

(** A JavaScript number. *)
Definition number : Type := float.

(** [a > b] on numbers: false as soon as one side is NaN. *)
Definition gt (a b : number) : bool := PrimFloat.ltb b a.

(** [Math.abs]. *)
Definition Math_abs (x : number) : number := PrimFloat.abs x.

(** [Math.min] of two numbers: NaN if either is NaN, and -0 below +0. *)
Definition Math_min (a b : number) : number :=
  if PrimFloat.is_nan a || PrimFloat.is_nan b then PrimFloat.nan
  else if PrimFloat.ltb a b then a
  else if PrimFloat.ltb b a then b
  else if PrimFloat.get_sign a then a else b.

(** [ToNumber] of a value of type [number | null]: [null] converts to +0. *)
Definition ToNumber (v : option number) : number := default 0%float v.

(** The number that a length (an array index count) denotes. *)
Definition of_nat (n : nat) : number :=
  PrimFloat.of_uint63 (Uint63.of_Z (Z.of_nat n)).

(** [arr.reduce(f, init)]: a left-to-right fold from [init]. *)
Definition reduce {A B : Type} (f : B → A → B) (arr : list A) (init : B) : B :=
  foldl f init arr.

(** A JSON value, as parsed from a request body or serialised into a
    response. *)
Inductive json : Type :=
  | JNull
  | JBool (b : bool)
  | JNum (n : number)
  | JStr (s : string)
  | JArr (items : list json)
  | JObj (fields : gmap string json).

(** An object: string keys to values. *)
Abbreviation object := (gmap string json).

(** Truthiness of a string-valued property read from an object whose
    values are strings: [undefined] and the empty string are falsy. *)
Definition truthy (v : option string) : bool :=
  match v with
  | Some s => negb (String.eqb s "")
  | None => false
  end.

(** [a || b || ... ] over string-valued properties: the first truthy
    operand, if any. *)
Fixpoint first_truthy (vs : list (option string)) : option string :=
  match vs with
  | [] => None
  | v :: rest => if truthy v then v else first_truthy rest
  end.

(** [s.toLowerCase()] on the ASCII letters; other bytes are unchanged. *)
Definition lower_ascii (c : Ascii.ascii) : Ascii.ascii :=
  let n := Ascii.nat_of_ascii c in
  if (65 <=? n)%nat && (n <=? 90)%nat then Ascii.ascii_of_nat (n + 32) else c.

Fixpoint toLowerCase (s : string) : string :=
  match s with
  | EmptyString => EmptyString
  | String c rest => String (lower_ascii c) (toLowerCase rest)
  end.

(** [s.includes(needle)]. *)
Fixpoint includes (s needle : string) : bool :=
  String.prefix needle s
  || match s with
     | EmptyString => false
     | String _ rest => includes rest needle
     end.

(** The integer that a number is, when it is one: [None] for a number
    with a fraction, for an infinity and for NaN. *)
Definition integer (x : number) : option Z :=
  match Prim2SF x with
  | S754_zero _ => Some 0%Z
  | S754_finite s m e =>
      let magnitude :=
        if (0 <=? e)%Z then Some (Z.pos m * 2 ^ e)%Z
        else if (Z.pos m mod 2 ^ (- e) =? 0)%Z then Some (Z.pos m / 2 ^ (- e))%Z
        else None in
      (λ z, if s then (- z)%Z else z) <$> magnitude
  | S754_infinity _ | S754_nan => None
  end.

(** A byte that continues a UTF-8 sequence: 10xxxxxx. *)
Definition continuation (c : Ascii.ascii) : bool :=
  let n := Ascii.nat_of_ascii c in (128 <=? n)%nat && (n <? 192)%nat.

(** [s.length]: the number of UTF-16 code units of a text, read off the
    UTF-8 bytes that hold it.  A character of one, two or three bytes is
    one code unit; a character of four bytes (lead byte 11110xxx) is two,
    a surrogate pair. *)
Fixpoint length (s : string) : nat :=
  match s with
  | EmptyString => 0
  | String c rest =>
      if continuation c then length rest
      else if (Ascii.nat_of_ascii c <? 240)%nat then S (length rest)
      else
        match rest with
        | String c' rest' =>
            if continuation c' then S (S (length rest')) else S (length rest)
        | EmptyString => 1
        end
  end.

End Js.

Export Js (json(..)).

(* ===================================================================== *)
(** * shared/schema.ts: the rows of the five tables *)
(* ===================================================================== *)

(** [users.$inferSelect].  In all five tables [createdAt] is a nullable
    column that every create stamps, so rows hold a text there. *)
Record User := mkUser {
  user_id : string;
  user_email : string;
  user_password : string;
  user_firstName : string;
  user_lastName : string;
  user_createdAt : string
}.

(** [transactions.$inferSelect]; [tx_type] is the text column "type"
    ("income" or "expense" by convention, any text by the schema). *)
Record Transaction := mkTransaction {
  tx_id : string;
  tx_userId : string;
  tx_description : string;
  tx_amount : Js.number;
  tx_category : string;
  tx_type : string;
  tx_date : string;
  tx_createdAt : string
}.

(** [investments.$inferSelect]. *)
Record Investment := mkInvestment {
  inv_id : string;
  inv_userId : string;
  inv_symbol : string;
  inv_name : string;
  inv_type : string;
  inv_shares : Js.number;
  inv_purchasePrice : Js.number;
  inv_currentPrice : Js.number;
  inv_purchaseDate : string;
  inv_createdAt : string
}.

(** [goals.$inferSelect]: [description] and [currentAmount] are nullable
    columns. *)
Record Goal := mkGoal {
  goal_id : string;
  goal_userId : string;
  goal_title : string;
  goal_description : option string;
  goal_targetAmount : Js.number;
  goal_currentAmount : option Js.number;
  goal_targetDate : string;
  goal_category : string;
  goal_createdAt : string
}.

(** [savingsTips.$inferSelect]: [isActive] is a nullable boolean column. *)
Record SavingsTip := mkSavingsTip {
  tip_id : string;
  tip_userId : string;
  tip_category : string;
  tip_recommendation : string;
  tip_potentialSavings : Js.number;
  tip_confidence : Js.number;
  tip_isActive : option bool;
  tip_createdAt : string
}.

(* ===================================================================== *)
(** * Derived metrics: the dashboard and the goals page *)
(* ===================================================================== *)

Module Dashboard.

(** [transactions.filter((t) => t.type === "income")
      .reduce((sum, t) => sum + t.amount, 0)] *)
Definition totalIncome (transactions : list Transaction) : Js.number :=
  Js.reduce (λ sum t, sum + tx_amount t)%float
    (filter (λ t, tx_type t = "income") transactions) 0%float.

Definition totalExpenses (transactions : list Transaction) : Js.number :=
  Js.reduce (λ sum t, sum + tx_amount t)%float
    (filter (λ t, tx_type t = "expense") transactions) 0%float.

Definition totalBalance (transactions : list Transaction) : Js.number :=
  (totalIncome transactions - totalExpenses transactions)%float.

(** [investments.reduce((sum, inv) => sum + inv.shares * inv.currentPrice, 0)] *)
Definition portfolioValue (investments : list Investment) : Js.number :=
  Js.reduce (λ sum inv, sum + inv_shares inv * inv_currentPrice inv)%float
    investments 0%float.

(** [investments.reduce((sum, inv) =>
      sum + (inv.currentPrice - inv.purchasePrice) * inv.shares, 0)] *)
Definition portfolioGain (investments : list Investment) : Js.number :=
  Js.reduce
    (λ sum inv,
       sum + (inv_currentPrice inv - inv_purchasePrice inv) * inv_shares inv)%float
    investments 0%float.

End Dashboard.

Module Goals.

(** [goal.targetAmount > 0 ? (goal.currentAmount / goal.targetAmount) * 100 : 0] *)
Definition progress (goal : Goal) : Js.number :=
  if Js.gt (goal_targetAmount goal) 0%float
  then (Js.ToNumber (goal_currentAmount goal) / goal_targetAmount goal * 100)%float
  else 0%float.

(** [goal.targetAmount - goal.currentAmount] *)
Definition remaining (goal : Goal) : Js.number :=
  (goal_targetAmount goal - Js.ToNumber (goal_currentAmount goal))%float.

(** [daysRemaining > 0 ? (remaining / (daysRemaining / 30)) : 0]; the day
    count comes from the clock and the target date. *)
Definition monthlyNeeded (goal : Goal) (daysRemaining : Js.number) : Js.number :=
  if Js.gt daysRemaining 0%float
  then (remaining goal / (daysRemaining / 30))%float
  else 0%float.

(** The width of the progress bar, in percent:
    [Math.min(progress, 100)]. *)
Definition barWidth (goal : Goal) : Js.number :=
  Js.Math_min (progress goal) 100%float.

End Goals.

(** The spec's wording of the metrics, to be compared with the code's. *)
Module MetricsSpec.

(** The sum of a sequence of numbers, accumulated from 0 in sequence
    order (binary64 addition is not associative, so the order is part of
    the meaning). *)
Definition sum (xs : list Js.number) : Js.number :=
  foldl PrimFloat.add 0%float xs.

(** The amounts of the transactions of one kind. *)
Definition amounts_of (kind : string) (ts : list Transaction) : list Js.number :=
  tx_amount <$> filter (λ t, tx_type t = kind) ts.

(** Balance = sum(income amounts) − sum(expense amounts). *)
Definition balance (ts : list Transaction) : Js.number :=
  (sum (amounts_of "income" ts) - sum (amounts_of "expense" ts))%float.

(** Portfolio value = Σ(shares × currentPrice). *)
Definition portfolio_value (invs : list Investment) : Js.number :=
  sum ((λ i, inv_shares i * inv_currentPrice i)%float <$> invs).

(** Portfolio gain = Σ(shares × (currentPrice − purchasePrice)). *)
Definition portfolio_gain (invs : list Investment) : Js.number :=
  sum ((λ i, inv_shares i * (inv_currentPrice i - inv_purchasePrice i))%float <$> invs).

(** Goal progress% = min(currentAmount/targetAmount, 1) × 100. *)
Definition goal_progress (g : Goal) : Js.number :=
  (Js.Math_min (Js.ToNumber (goal_currentAmount g) / goal_targetAmount g) 1 * 100)%float.

End MetricsSpec.

(* ===================================================================== *)
(** * shared/schema.ts: insert shapes and partial updates *)
(* ===================================================================== *)

(** [z.infer<typeof insertUserSchema>]: the user columns without [id] and
    [createdAt]. *)
Record InsertUser := mkInsertUser {
  iu_email : string;
  iu_password : string;
  iu_firstName : string;
  iu_lastName : string
}.

Record InsertTransaction := mkInsertTransaction {
  it_userId : string;
  it_description : string;
  it_amount : Js.number;
  it_category : string;
  it_type : string;
  it_date : string
}.

Record InsertInvestment := mkInsertInvestment {
  ii_userId : string;
  ii_symbol : string;
  ii_name : string;
  ii_type : string;
  ii_shares : Js.number;
  ii_purchasePrice : Js.number;
  ii_currentPrice : Js.number;
  ii_purchaseDate : string
}.

(** The two nullable goal columns are optional in the insert shape: a field
    is absent ([None]), [null] ([Some None]) or a value. *)
Record InsertGoal := mkInsertGoal {
  ig_userId : string;
  ig_title : string;
  ig_description : option (option string);
  ig_targetAmount : Js.number;
  ig_currentAmount : option (option Js.number);
  ig_targetDate : string;
  ig_category : string
}.

(** [Omit<SavingsTip, "id" | "createdAt">]. *)
Record InsertSavingsTip := mkInsertSavingsTip {
  is_userId : string;
  is_category : string;
  is_recommendation : string;
  is_potentialSavings : Js.number;
  is_confidence : Js.number;
  is_isActive : option bool
}.

(** [Partial<InsertTransaction>]: every field may be absent. *)
Record TransactionUpdates := mkTransactionUpdates {
  ut_userId : option string;
  ut_description : option string;
  ut_amount : option Js.number;
  ut_category : option string;
  ut_type : option string;
  ut_date : option string
}.

Record InvestmentUpdates := mkInvestmentUpdates {
  ui_userId : option string;
  ui_symbol : option string;
  ui_name : option string;
  ui_type : option string;
  ui_shares : option Js.number;
  ui_purchasePrice : option Js.number;
  ui_currentPrice : option Js.number;
  ui_purchaseDate : option string
}.

Record GoalUpdates := mkGoalUpdates {
  ug_userId : option string;
  ug_title : option string;
  ug_description : option (option string);
  ug_targetAmount : option Js.number;
  ug_currentAmount : option (option Js.number);
  ug_targetDate : option string;
  ug_category : option string
}.

(** An update object with no field set. *)
Definition no_transaction_values (u : TransactionUpdates) : bool :=
  match ut_userId u, ut_description u, ut_amount u, ut_category u, ut_type u, ut_date u with
  | None, None, None, None, None, None => true
  | _, _, _, _, _, _ => false
  end.

Definition no_investment_values (u : InvestmentUpdates) : bool :=
  match ui_userId u, ui_symbol u, ui_name u, ui_type u with
  | None, None, None, None =>
      match ui_shares u, ui_purchasePrice u, ui_currentPrice u, ui_purchaseDate u with
      | None, None, None, None => true
      | _, _, _, _ => false
      end
  | _, _, _, _ => false
  end.

Definition no_goal_values (u : GoalUpdates) : bool :=
  match ug_userId u, ug_title u, ug_description u, ug_targetAmount u with
  | None, None, None, None =>
      match ug_currentAmount u, ug_targetDate u, ug_category u with
      | None, None, None => true
      | _, _, _ => false
      end
  | _, _, _, _ => false
  end.

(* ===================================================================== *)
(** * server/storage.ts *)
(* ===================================================================== *)

(** The query builder: the drizzle calls the storage class makes, over a
    table held as the list of its rows. *)
Module Query.
Section Table.
Context {Row : Type}.

(** [db.select().from(t).where(P)] *)
Definition select_where (P : Row → Prop) `{!∀ r, Decision (P r)}
    (t : list Row) : list Row :=
  filter P t.

(** [.limit(n)] for an integer written in the query: the first [n]
    rows; SQLite reads a negative LIMIT as no limit. *)
Definition limit (n : Z) (rows : list Row) : list Row :=
  if (n <? 0)%Z then rows else take (Z.to_nat n) rows.

(** [.limit(n)] for a number [n] that the caller passes.  The query
    builder writes [limit ?] when [n >= 0] and no clause otherwise (so
    for a negative [n] and for NaN); the number is bound to the
    statement, and SQLite takes it as the LIMIT when it is an integer
    below 2^63 and throws ([None], a datatype mismatch) when it is not:
    for a number with a fraction, for 2^63 and more, for Infinity. *)
Definition limit_bound (n : Js.number) (rows : list Row) : option (list Row) :=
  if PrimFloat.leb 0%float n
  then
    match Js.integer n with
    | Some z => if (z <? 2 ^ 63)%Z then Some (take (Z.to_nat z) rows) else None
    | None => None
    end
  else Some rows.

(** The place of a row among rows that are sorted on the column, largest
    first: behind every row whose key is not smaller. *)
Fixpoint insert_desc {K : Type} (le : relation K) `{!∀ x y, Decision (le x y)}
    (col : Row → K) (r : Row) (sorted : list Row) : list Row :=
  match sorted with
  | [] => [r]
  | x :: rest =>
      if decide (le (col r) (col x)) then x :: insert_desc le col r rest
      else r :: x :: rest
  end.

(** [.orderBy(desc(col))]: the rows sorted on the column, largest
    first.  SQL leaves the order of rows with equal keys open; SQLite's
    scan and sorter give them in the order of the table, and so does this
    sort. *)
Definition orderBy_desc {K : Type} (le : relation K)
    `{!∀ x y, Decision (le x y)} (col : Row → K) (rows : list Row) : list Row :=
  foldl (λ sorted r, insert_desc le col r sorted) [] rows.

(** The rows of [db.update(t).set(..).where(P)]: those that match are
    rewritten. *)
Definition set_where (P : Row → Prop) `{!∀ r, Decision (P r)}
    (set : Row → Row) (t : list Row) : list Row :=
  (λ r, if decide (P r) then set r else r) <$> t.

(** [db.update(t).set(..).where(P)].  SQLite checks the constraints of
    the columns that [.set(..)] names (NOT NULL, FOREIGN KEY) on every
    row it rewrites: the statement throws ([None]) when a value breaks
    one ([valid] is false) and a row matches; with no row to rewrite
    nothing is checked. *)
Definition update_where (P : Row → Prop) `{!∀ r, Decision (P r)}
    (set : Row → Row) (valid : bool) (t : list Row) : option (list Row) :=
  if valid || bool_decide (Forall (λ r, ¬ P r) t)
  then Some (set_where P set t) else None.

(** [db.delete(t).where(P)]: the rows left, and [result.changes]. *)
Definition delete_where (P : Row → Prop) `{!∀ r, Decision (P r)}
    (t : list Row) : list Row * nat :=
  (filter (λ r, ¬ P r) t, length (filter P t)).

(** [db.insert(t).values(r)]: the statement throws ([None]) when the
    primary key is taken or a constraint of the table on the new row
    (NOT NULL, UNIQUE, FOREIGN KEY: [check]) fails. *)
Definition insert (pk : Row → string) (check : Row → bool) (r : Row)
    (t : list Row) : option (list Row) :=
  if decide (pk r ∈ (pk <$> t)) then None
  else if check r then Some (t ++ [r]) else None.

End Table.
End Query.

(** Ordering of TEXT values (binary collation) and of REAL values (a NULL,
    which is what a NaN is stored as, sorts below every number). *)
Definition text_le (a b : string) : Prop := String.leb a b = true.

Definition real_leb (a b : Js.number) : bool :=
  if PrimFloat.is_nan a then true
  else if PrimFloat.is_nan b then false
  else PrimFloat.leb a b.

Definition real_le (a b : Js.number) : Prop := real_leb a b = true.

#[global] Instance text_le_dec a b : Decision (text_le a b).
Proof. unfold text_le. apply _. Defined.

#[global] Instance real_le_dec a b : Decision (real_le a b).
Proof. unfold real_le. apply _. Defined.

(** A REAL NOT NULL column accepts a number unless it is NaN, which SQLite
    binds as NULL. *)
Definition real_not_null (x : Js.number) : bool := negb (PrimFloat.is_nan x).

Module Storage.

(** What one create call draws from its environment: [randomUUID()] and
    [new Date().toISOString()]. *)
Record Draw := mkDraw { draw_uuid : string; draw_now : string }.

(** The database [finsight.db]: the five tables created at start-up. *)
Record Db := mkDb {
  users : list User;
  transactions : list Transaction;
  investments : list Investment;
  goals : list Goal;
  savingsTips : list SavingsTip
}.

Definition empty : Db := mkDb [] [] [] [] [].

Definition with_users (db : Db) (t : list User) : Db :=
  mkDb t (transactions db) (investments db) (goals db) (savingsTips db).
Definition with_transactions (db : Db) (t : list Transaction) : Db :=
  mkDb (users db) t (investments db) (goals db) (savingsTips db).
Definition with_investments (db : Db) (t : list Investment) : Db :=
  mkDb (users db) (transactions db) t (goals db) (savingsTips db).
Definition with_goals (db : Db) (t : list Goal) : Db :=
  mkDb (users db) (transactions db) (investments db) t (savingsTips db).
Definition with_savingsTips (db : Db) (t : list SavingsTip) : Db :=
  mkDb (users db) (transactions db) (investments db) (goals db) t.

(** ** Users *)

Definition getUser (id : string) (db : Db) : option User :=
  head (Query.limit 1 (Query.select_where (λ u, user_id u = id) (users db))).

Definition getUserByEmail (email : string) (db : Db) : option User :=
  head (Query.limit 1 (Query.select_where (λ u, user_email u = email) (users db))).

(** The [users] table: [id] is the primary key and [email] is UNIQUE. *)
Definition users_check (t : list User) (u : User) : bool :=
  bool_decide (user_email u ∉ (user_email <$> t)).

Definition createUser (d : Draw) (insertUser : InsertUser) (db : Db)
    : option (Db * User) :=
  let user :=
    {| user_id := draw_uuid d;
       user_email := iu_email insertUser;
       user_password := iu_password insertUser;
       user_firstName := iu_firstName insertUser;
       user_lastName := iu_lastName insertUser;
       user_createdAt := draw_now d |} in
  t ← Query.insert user_id (users_check (users db)) user (users db);
  Some (with_users db t, user).

(** [user_id TEXT NOT NULL ... FOREIGN KEY (user_id) REFERENCES users (id)]:
    the owner of a row of the other four tables is the identifier of a
    row of [users] (better-sqlite3 opens the database with foreign keys
    enforced). *)
Definition references_user (db : Db) (userId : string) : bool :=
  bool_decide (userId ∈ (user_id <$> users db)).

(** ** Transactions *)

(** [limit = 50] is a default parameter: it stands in for an absent
    ([undefined]) limit only.  The read throws ([None]) when the LIMIT
    does. *)
Definition getUserTransactions (userId : string) (limit : option Js.number)
    (db : Db) : option (list Transaction) :=
  let limit := default 50%float limit in
  Query.limit_bound limit
    (Query.orderBy_desc text_le tx_date
       (Query.select_where (λ t, tx_userId t = userId) (transactions db))).

Definition getTransaction (id userId : string) (db : Db) : option Transaction :=
  head (Query.limit 1
          (Query.select_where (λ t, tx_id t = id ∧ tx_userId t = userId)
             (transactions db))).

(** The [transactions] table: [amount] is REAL NOT NULL, [user_id]
    references [users]. *)
Definition transactions_check (db : Db) (r : Transaction) : bool :=
  real_not_null (tx_amount r) && references_user db (tx_userId r).

Definition createTransaction (d : Draw) (insertTransaction : InsertTransaction)
    (db : Db) : option (Db * Transaction) :=
  let transaction :=
    {| tx_id := draw_uuid d;
       tx_userId := it_userId insertTransaction;
       tx_description := it_description insertTransaction;
       tx_amount := it_amount insertTransaction;
       tx_category := it_category insertTransaction;
       tx_type := it_type insertTransaction;
       tx_date := it_date insertTransaction;
       tx_createdAt := draw_now d |} in
  t ← Query.insert tx_id (transactions_check db) transaction (transactions db);
  Some (with_transactions db t, transaction).

(** [.set(updates)] on a transaction row: the fields present in the
    update replace the row's. *)
Definition set_transaction (updates : TransactionUpdates) (t : Transaction)
    : Transaction :=
  {| tx_id := tx_id t;
     tx_userId := default (tx_userId t) (ut_userId updates);
     tx_description := default (tx_description t) (ut_description updates);
     tx_amount := default (tx_amount t) (ut_amount updates);
     tx_category := default (tx_category t) (ut_category updates);
     tx_type := default (tx_type t) (ut_type updates);
     tx_date := default (tx_date t) (ut_date updates);
     tx_createdAt := tx_createdAt t |}.

(** What the table asks of the values of an update: a new [amount] is
    not NULL, a new [userId] is a user's. *)
Definition transaction_values_ok (db : Db) (updates : TransactionUpdates) : bool :=
  from_option real_not_null true (ut_amount updates)
  && from_option (references_user db) true (ut_userId updates).

(** The update statement, then the read-one.  An update object with no
    field set makes [.set(updates)] throw ([None]): there is nothing to
    set; so does a value that the table refuses. *)
Definition updateTransaction (id userId : string) (updates : TransactionUpdates)
    (db : Db) : option (Db * option Transaction) :=
  if no_transaction_values updates then None
  else
    t ← Query.update_where (λ t, tx_id t = id ∧ tx_userId t = userId)
          (set_transaction updates) (transaction_values_ok db updates)
          (transactions db);
    let db' := with_transactions db t in
    Some (db', getTransaction id userId db').

Definition deleteTransaction (id userId : string) (db : Db) : Db * bool :=
  let result :=
    Query.delete_where (λ t, tx_id t = id ∧ tx_userId t = userId)
      (transactions db) in
  (with_transactions db result.1, bool_decide (0 < result.2)).

(** ** Investments *)


Definition getInvestment (id userId : string) (db : Db) : option Investment :=
  head (Query.limit 1
          (Query.select_where (λ i, inv_id i = id ∧ inv_userId i = userId)
             (investments db))).

(** The [investments] table: three REAL NOT NULL columns, and [user_id]
    references [users]. *)
Definition investments_check (db : Db) (r : Investment) : bool :=
  real_not_null (inv_shares r) && real_not_null (inv_purchasePrice r)
  && real_not_null (inv_currentPrice r) && references_user db (inv_userId r).

Definition createInvestment (d : Draw) (insertInvestment : InsertInvestment)
    (db : Db) : option (Db * Investment) :=
  let investment :=
    {| inv_id := draw_uuid d;
       inv_userId := ii_userId insertInvestment;
       inv_symbol := ii_symbol insertInvestment;
       inv_name := ii_name insertInvestment;
       inv_type := ii_type insertInvestment;
       inv_shares := ii_shares insertInvestment;
       inv_purchasePrice := ii_purchasePrice insertInvestment;
       inv_currentPrice := ii_currentPrice insertInvestment;
       inv_purchaseDate := ii_purchaseDate insertInvestment;
       inv_createdAt := draw_now d |} in
  t ← Query.insert inv_id (investments_check db) investment (investments db);
  Some (with_investments db t, investment).

Definition set_investment (updates : InvestmentUpdates) (i : Investment)
    : Investment :=
  {| inv_id := inv_id i;
     inv_userId := default (inv_userId i) (ui_userId updates);
     inv_symbol := default (inv_symbol i) (ui_symbol updates);
     inv_name := default (inv_name i) (ui_name updates);
     inv_type := default (inv_type i) (ui_type updates);
     inv_shares := default (inv_shares i) (ui_shares updates);
     inv_purchasePrice := default (inv_purchasePrice i) (ui_purchasePrice updates);
     inv_currentPrice := default (inv_currentPrice i) (ui_currentPrice updates);
     inv_purchaseDate := default (inv_purchaseDate i) (ui_purchaseDate updates);
     inv_createdAt := inv_createdAt i |}.

Definition investment_values_ok (db : Db) (updates : InvestmentUpdates) : bool :=
  from_option real_not_null true (ui_shares updates)
  && from_option real_not_null true (ui_purchasePrice updates)
  && from_option real_not_null true (ui_currentPrice updates)
  && from_option (references_user db) true (ui_userId updates).

Definition updateInvestment (id userId : string) (updates : InvestmentUpdates)
    (db : Db) : option (Db * option Investment) :=
  if no_investment_values updates then None
  else
    t ← Query.update_where (λ i, inv_id i = id ∧ inv_userId i = userId)
          (set_investment updates) (investment_values_ok db updates)
          (investments db);
    let db' := with_investments db t in
    Some (db', getInvestment id userId db').

Definition deleteInvestment (id userId : string) (db : Db) : Db * bool :=
  let result :=
    Query.delete_where (λ i, inv_id i = id ∧ inv_userId i = userId)
      (investments db) in
  (with_investments db result.1, bool_decide (0 < result.2)).

(** ** Goals *)


Definition getGoal (id userId : string) (db : Db) : option Goal :=
  head (Query.limit 1
          (Query.select_where (λ g, goal_id g = id ∧ goal_userId g = userId)
             (goals db))).

(** The [goals] table: [target_amount] is REAL NOT NULL, [user_id]
    references [users]. *)
Definition goals_check (db : Db) (g : Goal) : bool :=
  real_not_null (goal_targetAmount g) && references_user db (goal_userId g).

(** The row written for an insert shape: an absent [description] is NULL,
    an absent [currentAmount] takes the column default 0.  What is given
    back here is the written row.  The object the method returns is the
    insert shape with [id] and [createdAt], in which an absent field stays
    absent: the handler's answer is built from it ([ToJson.created_goal]). *)
Definition createGoal (d : Draw) (insertGoal : InsertGoal) (db : Db)
    : option (Db * Goal) :=
  let goal :=
    {| goal_id := draw_uuid d;
       goal_userId := ig_userId insertGoal;
       goal_title := ig_title insertGoal;
       goal_description := default None (ig_description insertGoal);
       goal_targetAmount := ig_targetAmount insertGoal;
       goal_currentAmount := default (Some 0%float) (ig_currentAmount insertGoal);
       goal_targetDate := ig_targetDate insertGoal;
       goal_category := ig_category insertGoal;
       goal_createdAt := draw_now d |} in
  t ← Query.insert goal_id (goals_check db) goal (goals db);
  Some (with_goals db t, goal).

Definition set_goal (updates : GoalUpdates) (g : Goal) : Goal :=
  {| goal_id := goal_id g;
     goal_userId := default (goal_userId g) (ug_userId updates);
     goal_title := default (goal_title g) (ug_title updates);
     goal_description := default (goal_description g) (ug_description updates);
     goal_targetAmount := default (goal_targetAmount g) (ug_targetAmount updates);
     goal_currentAmount := default (goal_currentAmount g) (ug_currentAmount updates);
     goal_targetDate := default (goal_targetDate g) (ug_targetDate updates);
     goal_category := default (goal_category g) (ug_category updates);
     goal_createdAt := goal_createdAt g |}.

Definition goal_values_ok (db : Db) (updates : GoalUpdates) : bool :=
  from_option real_not_null true (ug_targetAmount updates)
  && from_option (references_user db) true (ug_userId updates).

Definition updateGoal (id userId : string) (updates : GoalUpdates) (db : Db)
    : option (Db * option Goal) :=
  if no_goal_values updates then None
  else
    t ← Query.update_where (λ g, goal_id g = id ∧ goal_userId g = userId)
          (set_goal updates) (goal_values_ok db updates) (goals db);
    let db' := with_goals db t in
    Some (db', getGoal id userId db').

Definition deleteGoal (id userId : string) (db : Db) : Db * bool :=
  let result :=
    Query.delete_where (λ g, goal_id g = id ∧ goal_userId g = userId)
      (goals db) in
  (with_goals db result.1, bool_decide (0 < result.2)).

(** ** Savings tips *)


(** The [savings_tips] table: two REAL NOT NULL columns, and [user_id]
    references [users]. *)
Definition savingsTips_check (db : Db) (r : SavingsTip) : bool :=
  real_not_null (tip_potentialSavings r) && real_not_null (tip_confidence r)
  && references_user db (tip_userId r).

Definition createSavingsTip (d : Draw) (tip : InsertSavingsTip) (db : Db)
    : option (Db * SavingsTip) :=
  let savingsTip :=
    {| tip_id := draw_uuid d;
       tip_userId := is_userId tip;
       tip_category := is_category tip;
       tip_recommendation := is_recommendation tip;
       tip_potentialSavings := is_potentialSavings tip;
       tip_confidence := is_confidence tip;
       tip_isActive := is_isActive tip;
       tip_createdAt := draw_now d |} in
  t ← Query.insert tip_id (savingsTips_check db) savingsTip (savingsTips db);
  Some (with_savingsTips db t, savingsTip).

End Storage.

(* ===================================================================== *)
(** * The zod schemas of shared/schema.ts *)
(* ===================================================================== *)

Module Zod.

(** [z.string()] on a property that may be missing. *)
Definition string_ (v : option json) : option string :=
  match v with
  | Some (JStr s) => Some s
  | _ => None
  end.

(** [z.number()]: a number other than NaN. *)
Definition number_ (v : option json) : option Js.number :=
  match v with
  | Some (JNum n) => if PrimFloat.is_nan n then None else Some n
  | _ => None
  end.

(** [.optional()]: a missing property parses to "absent". *)
Definition optional {A : Type} (p : option json → option A) (v : option json)
    : option (option A) :=
  match v with
  | None => Some None
  | Some _ => Some <$> p v
  end.

(** [.nullable()]: [null] parses to "null". *)
Definition nullable {A : Type} (p : option json → option A) (v : option json)
    : option (option A) :=
  match v with
  | Some JNull => Some None
  | _ => Some <$> p v
  end.

(** [insertUserSchema.parse]: unknown keys are dropped. *)
Definition insertUserSchema (o : Js.object) : option InsertUser :=
  email ← string_ (o !! "email");
  password ← string_ (o !! "password");
  firstName ← string_ (o !! "firstName");
  lastName ← string_ (o !! "lastName");
  Some (mkInsertUser email password firstName lastName).

(** [loginSchema.parse]; [email_format] is the test behind
    [z.string().email()], and [min(6)] bounds [password.length], the
    length of the password in UTF-16 code units. *)
Definition loginSchema (email_format : string → bool) (o : Js.object)
    : option (string * string) :=
  email ← string_ (o !! "email");
  password ← string_ (o !! "password");
  if email_format email && bool_decide (6 ≤ Js.length password)
  then Some (email, password) else None.

Definition insertTransactionSchema (o : Js.object) : option InsertTransaction :=
  userId ← string_ (o !! "userId");
  description ← string_ (o !! "description");
  amount ← number_ (o !! "amount");
  category ← string_ (o !! "category");
  type ← string_ (o !! "type");
  date ← string_ (o !! "date");
  Some (mkInsertTransaction userId description amount category type date).

(** [insertTransactionSchema.partial().parse]. *)
Definition insertTransactionSchema_partial (o : Js.object)
    : option TransactionUpdates :=
  userId ← optional string_ (o !! "userId");
  description ← optional string_ (o !! "description");
  amount ← optional number_ (o !! "amount");
  category ← optional string_ (o !! "category");
  type ← optional string_ (o !! "type");
  date ← optional string_ (o !! "date");
  Some (mkTransactionUpdates userId description amount category type date).

Definition insertInvestmentSchema (o : Js.object) : option InsertInvestment :=
  userId ← string_ (o !! "userId");
  symbol ← string_ (o !! "symbol");
  name ← string_ (o !! "name");
  type ← string_ (o !! "type");
  shares ← number_ (o !! "shares");
  purchasePrice ← number_ (o !! "purchasePrice");
  currentPrice ← number_ (o !! "currentPrice");
  purchaseDate ← string_ (o !! "purchaseDate");
  Some (mkInsertInvestment userId symbol name type shares purchasePrice
          currentPrice purchaseDate).

Definition insertInvestmentSchema_partial (o : Js.object)
    : option InvestmentUpdates :=
  userId ← optional string_ (o !! "userId");
  symbol ← optional string_ (o !! "symbol");
  name ← optional string_ (o !! "name");
  type ← optional string_ (o !! "type");
  shares ← optional number_ (o !! "shares");
  purchasePrice ← optional number_ (o !! "purchasePrice");
  currentPrice ← optional number_ (o !! "currentPrice");
  purchaseDate ← optional string_ (o !! "purchaseDate");
  Some (mkInvestmentUpdates userId symbol name type shares purchasePrice
          currentPrice purchaseDate).

Definition insertGoalSchema (o : Js.object) : option InsertGoal :=
  userId ← string_ (o !! "userId");
  title ← string_ (o !! "title");
  description ← optional (nullable string_) (o !! "description");
  targetAmount ← number_ (o !! "targetAmount");
  currentAmount ← optional (nullable number_) (o !! "currentAmount");
  targetDate ← string_ (o !! "targetDate");
  category ← string_ (o !! "category");
  Some (mkInsertGoal userId title description targetAmount currentAmount
          targetDate category).

Definition insertGoalSchema_partial (o : Js.object) : option GoalUpdates :=
  userId ← optional string_ (o !! "userId");
  title ← optional string_ (o !! "title");
  description ← optional (nullable string_) (o !! "description");
  targetAmount ← optional number_ (o !! "targetAmount");
  currentAmount ← optional (nullable number_) (o !! "currentAmount");
  targetDate ← optional string_ (o !! "targetDate");
  category ← optional string_ (o !! "category");
  Some (mkGoalUpdates userId title description targetAmount currentAmount
          targetDate category).

End Zod.

(* ===================================================================== *)
(** * Rows as the objects the handlers serialise *)
(* ===================================================================== *)

Module ToJson.

Definition opt {A : Type} (f : A → json) (v : option A) : json :=
  match v with
  | Some a => f a
  | None => JNull
  end.

Definition user (u : User) : Js.object :=
  {[ "id" := JStr (user_id u);
     "email" := JStr (user_email u);
     "password" := JStr (user_password u);
     "firstName" := JStr (user_firstName u);
     "lastName" := JStr (user_lastName u);
     "createdAt" := JStr (user_createdAt u) ]}.

Definition transaction (t : Transaction) : Js.object :=
  {[ "id" := JStr (tx_id t);
     "userId" := JStr (tx_userId t);
     "description" := JStr (tx_description t);
     "amount" := JNum (tx_amount t);
     "category" := JStr (tx_category t);
     "type" := JStr (tx_type t);
     "date" := JStr (tx_date t);
     "createdAt" := JStr (tx_createdAt t) ]}.

Definition investment (i : Investment) : Js.object :=
  {[ "id" := JStr (inv_id i);
     "userId" := JStr (inv_userId i);
     "symbol" := JStr (inv_symbol i);
     "name" := JStr (inv_name i);
     "type" := JStr (inv_type i);
     "shares" := JNum (inv_shares i);
     "purchasePrice" := JNum (inv_purchasePrice i);
     "currentPrice" := JNum (inv_currentPrice i);
     "purchaseDate" := JStr (inv_purchaseDate i);
     "createdAt" := JStr (inv_createdAt i) ]}.

Definition goal (g : Goal) : Js.object :=
  {[ "id" := JStr (goal_id g);
     "userId" := JStr (goal_userId g);
     "title" := JStr (goal_title g);
     "description" := opt JStr (goal_description g);
     "targetAmount" := JNum (goal_targetAmount g);
     "currentAmount" := opt JNum (goal_currentAmount g);
     "targetDate" := JStr (goal_targetDate g);
     "category" := JStr (goal_category g);
     "createdAt" := JStr (goal_createdAt g) ]}.

(** The object [createGoal] returns, [{ ...insertGoal, id, createdAt }]:
    a field that the insert shape does not have is not in it. *)
Definition created_goal (insertGoal : InsertGoal) (id createdAt : string)
    : Js.object :=
  let present {A : Type} (key : string) (f : A → json) (v : option (option A))
      (o : Js.object) : Js.object :=
    match v with
    | Some field => <[key := opt f field]> o
    | None => o
    end in
  present "description" JStr (ig_description insertGoal)
    (present "currentAmount" JNum (ig_currentAmount insertGoal)
       {[ "id" := JStr id;
          "userId" := JStr (ig_userId insertGoal);
          "title" := JStr (ig_title insertGoal);
          "targetAmount" := JNum (ig_targetAmount insertGoal);
          "targetDate" := JStr (ig_targetDate insertGoal);
          "category" := JStr (ig_category insertGoal);
          "createdAt" := JStr createdAt ]}).

End ToJson.

(* ===================================================================== *)
(** * server/routes.ts *)
(* ===================================================================== *)

(** Modelled from the spec: the Credential Service of section 4.1
    ([server/auth.ts], which the handlers import, is not among the
    sources).  [validateToken] yields the user identifier a token encodes,
    or nothing when the token is invalid or expired; [unauthenticated] is
    the message of the 401 response of the authentication middleware.
    A value of this type is the service as it stands at the moment of one
    request: that moment enters the token that [generateToken] issues
    (its expiry is counted from it) and the verdict of [validateToken].
    A statement about requests made at different moments takes one
    service for each of them. *)
Record CredentialService := mkCredentialService {
  hashPassword : string → string;
  verifyPassword : string → string → bool;
  generateToken : string → string;
  validateToken : string → option string;
  unauthenticated : string
}.

Module Routes.
Import Storage.

Record Response := mkResponse { status : nat; body : json }.

(** [res.json(b)] *)
Definition json_ (b : json) : Response := mkResponse 200 b.

(** [res.status(code).json({ message })] *)
Definition message (code : nat) (m : string) : Response :=
  mkResponse code (JObj {[ "message" := JStr m ]}).

(** Modelled from the spec: the authentication middleware of section 4.3
    ([authenticateToken] of [server/auth.ts]): it takes the bearer token
    of the request, validates it, and either runs the handler with the
    caller's identifier in [req.userId] or answers 401 before any handler
    logic runs. *)
Definition authenticateToken {A : Type} (cs : CredentialService)
    (bearer : option string) (handler : string → A → A * Response) (st : A)
    : A * Response :=
  match bearer ≫= validateToken cs with
  | Some userId => handler userId st
  | None => (st, message 401 (unauthenticated cs))
  end.

(** ** Authentication routes *)

(** [const { password, ...userWithoutPassword } = user] *)
Definition userWithoutPassword (user : User) : Js.object :=
  delete "password" (ToJson.user user).

(** POST /api/auth/register *)
Definition register (cs : CredentialService) (d : Draw) (body : Js.object)
    (db : Db) : Db * Response :=
  match Zod.insertUserSchema body with
  | None => (db, message 400 "Invalid request data")
  | Some userData =>
      match getUserByEmail (iu_email userData) db with
      | Some _ => (db, message 400 "User already exists")
      | None =>
          let hashedPassword := hashPassword cs (iu_password userData) in
          match
            createUser d
              (mkInsertUser (iu_email userData) hashedPassword
                 (iu_firstName userData) (iu_lastName userData)) db
          with
          | None => (db, message 400 "Invalid request data")
          | Some (db', user) =>
              let token := generateToken cs (user_id user) in
              (db',
               json_ (JObj {[ "user" := JObj (userWithoutPassword user);
                              "token" := JStr token ]}))
          end
      end
  end.

(** POST /api/auth/login *)
Definition login (cs : CredentialService) (email_format : string → bool)
    (body : Js.object) (db : Db) : Db * Response :=
  match Zod.loginSchema email_format body with
  | None => (db, message 400 "Invalid request data")
  | Some (email, password) =>
      match getUserByEmail email db with
      | Some user =>
          if verifyPassword cs password (user_password user)
          then
            let token := generateToken cs (user_id user) in
            (db,
             json_ (JObj {[ "user" := JObj (userWithoutPassword user);
                            "token" := JStr token ]}))
          else (db, message 401 "Invalid credentials")
      | None => (db, message 401 "Invalid credentials")
      end
  end.

(** GET /api/auth/me, behind [authenticateToken]. *)
Definition me (userId : string) (db : Db) : Db * Response :=
  match getUser userId db with
  | None => (db, message 404 "User not found")
  | Some user => (db, json_ (JObj {[ "user" := JObj (userWithoutPassword user) ]}))
  end.

(** ** Transaction routes *)

(** GET /api/transactions; [limit] is [parseInt(req.query.limit)] when the
    query has a limit (NaN when the text starts with no digit). *)
Definition get_transactions (limit : option Js.number) (userId : string) (db : Db)
    : Db * Response :=
  match getUserTransactions userId limit db with
  | Some transactions =>
      (db, json_ (JArr ((λ t, JObj (ToJson.transaction t)) <$> transactions)))
  | None => (db, message 500 "Failed to fetch transactions")
  end.

(** POST /api/transactions:
    [insertTransactionSchema.parse({ ...req.body, userId })] *)
Definition post_transactions (d : Draw) (body : Js.object) (userId : string)
    (db : Db) : Db * Response :=
  match
    transactionData ← Zod.insertTransactionSchema (<["userId" := JStr userId]> body);
    createTransaction d transactionData db
  with
  | Some (db', transaction) => (db', json_ (JObj (ToJson.transaction transaction)))
  | None => (db, message 400 "Invalid transaction data")
  end.

(** PUT /api/transactions/:id *)
Definition put_transactions (id : string) (body : Js.object) (userId : string)
    (db : Db) : Db * Response :=
  match Zod.insertTransactionSchema_partial body with
  | None => (db, message 400 "Invalid update data")
  | Some updates =>
      match updateTransaction id userId updates db with
      | None => (db, message 400 "Invalid update data")
      | Some (db', None) => (db', message 404 "Transaction not found")
      | Some (db', Some transaction) => (db', json_ (JObj (ToJson.transaction transaction)))
      end
  end.

(** DELETE /api/transactions/:id *)
Definition delete_transactions (id : string) (userId : string) (db : Db)
    : Db * Response :=
  match deleteTransaction id userId db with
  | (db', false) => (db', message 404 "Transaction not found")
  | (db', true) => (db', json_ (JObj {[ "success" := JBool true ]}))
  end.

(** ** Investment routes *)

Definition post_investments (d : Draw) (body : Js.object) (userId : string)
    (db : Db) : Db * Response :=
  match
    investmentData ← Zod.insertInvestmentSchema (<["userId" := JStr userId]> body);
    createInvestment d investmentData db
  with
  | Some (db', investment) => (db', json_ (JObj (ToJson.investment investment)))
  | None => (db, message 400 "Invalid investment data")
  end.

Definition put_investments (id : string) (body : Js.object) (userId : string)
    (db : Db) : Db * Response :=
  match Zod.insertInvestmentSchema_partial body with
  | None => (db, message 400 "Invalid update data")
  | Some updates =>
      match updateInvestment id userId updates db with
      | None => (db, message 400 "Invalid update data")
      | Some (db', None) => (db', message 404 "Investment not found")
      | Some (db', Some investment) => (db', json_ (JObj (ToJson.investment investment)))
      end
  end.

Definition delete_investments (id : string) (userId : string) (db : Db)
    : Db * Response :=
  match deleteInvestment id userId db with
  | (db', false) => (db', message 404 "Investment not found")
  | (db', true) => (db', json_ (JObj {[ "success" := JBool true ]}))
  end.

(** ** Goals routes *)

Definition post_goals (d : Draw) (body : Js.object) (userId : string)
    (db : Db) : Db * Response :=
  match
    goalData ← Zod.insertGoalSchema (<["userId" := JStr userId]> body);
    created ← createGoal d goalData db;
    Some (created, goalData)
  with
  | Some (db', goal, goalData) =>
      (db',
       json_ (JObj (ToJson.created_goal goalData (goal_id goal) (goal_createdAt goal))))
  | None => (db, message 400 "Invalid goal data")
  end.

Definition put_goals (id : string) (body : Js.object) (userId : string)
    (db : Db) : Db * Response :=
  match Zod.insertGoalSchema_partial body with
  | None => (db, message 400 "Invalid update data")
  | Some updates =>
      match updateGoal id userId updates db with
      | None => (db, message 400 "Invalid update data")
      | Some (db', None) => (db', message 404 "Goal not found")
      | Some (db', Some goal) => (db', json_ (JObj (ToJson.goal goal)))
      end
  end.

Definition delete_goals (id : string) (userId : string) (db : Db)
    : Db * Response :=
  match deleteGoal id userId db with
  | (db', false) => (db', message 404 "Goal not found")
  | (db', true) => (db', json_ (JObj {[ "success" := JBool true ]}))
  end.

End Routes.

(* ===================================================================== *)
(** * POST /api/transactions/upload *)
(* ===================================================================== *)

Module Upload.
Import Storage Routes.

(** A row object as csv-parser emits it: header names to cell texts. *)
Abbreviation cells := (gmap string string).

(** [new Date().toISOString().split('T')[0]] for the instant [now]. *)
Fixpoint before_T (now : string) : string :=
  match now with
  | EmptyString => EmptyString
  | String c rest =>
      if Ascii.eqb c "T"%char then EmptyString else String c (before_T rest)
  end.

(** The "simple categorization" of a lower-cased description. *)
Definition categorize (desc : string) : string :=
  if Js.includes desc "food" || Js.includes desc "restaurant" then "Food & Dining"
  else if Js.includes desc "gas" || Js.includes desc "uber" then "Transportation"
  else if Js.includes desc "amazon" || Js.includes desc "store" then "Shopping"
  else if Js.includes desc "electric" || Js.includes desc "utility"
  then "Bills & Utilities"
  else "Other".

Section Row.
(** The global [parseFloat]; a number argument is first converted to
    its text, so [parseFloat(0)] is [parseFloat("0")]. *)
Variable parseFloat : string → Js.number.

(** [parseFloat(row.amount || row.debit || row.credit || 0)] *)
Definition parsed_amount (row : cells) : Js.number :=
  parseFloat
    (default "0"
       (Js.first_truthy [row !! "amount"; row !! "debit"; row !! "credit"])).

(** The body of the 'data' listener up to the call of
    [storage.createTransaction]: the insert shape built from a row. *)
Definition row_transaction (userId now : string) (row : cells)
    : InsertTransaction :=
  let description :=
    default "Unknown"
      (Js.first_truthy
         [row !! "description"; row !! "memo"; row !! "transaction"]) in
  let amount := Js.Math_abs (parsed_amount row) in
  let date :=
    default (before_T now)
      (Js.first_truthy
         [row !! "date"; row !! "transaction_date"; row !! "posted_date"]) in
  let type := if Js.gt amount 0%float then "expense" else "income" in
  let category := categorize (Js.toLowerCase description) in
  {| it_userId := userId;
     it_description := description;
     it_amount := amount;
     it_category := category;
     it_type := type;
     it_date := date |}.

(** One row of the uploaded file with what its listener draws: the
    instant of its [new Date()] and the draws of the create call. *)
Record CsvRow := mkCsvRow {
  row_cells : cells;
  row_now : string;
  row_draw : Draw
}.

(** A listener suspended at [await storage.createTransaction(..)]: the
    insert it will perform when it is resumed. *)
Record Pending := mkPending {
  pending_insert : InsertTransaction;
  pending_draw : Draw
}.

(** The state of one upload after the analytics process has closed:
    the database, the handler's [transactions] array, the suspended
    listeners (oldest first) and the response once it is sent. *)
Record State := mkState {
  db : Db;
  saved : list Transaction;
  pending : list Pending;
  response : option Response
}.

(** What happens during the stream: the parser emits 'data' for a row,
    the job queue resumes the oldest suspended listener, the parser
    emits 'end'. *)
Inductive Event : Type :=
  | Data (row : CsvRow)
  | Resume
  | End.

(** [res.json({ ...processResult, transactions_saved: transactions.length })] *)
Definition end_response (processResult : Js.object) (saved : list Transaction)
    : Response :=
  json_ (JObj (<["transactions_saved" := JNum (Js.of_nat (length saved))]>
                 processResult)).

Definition step (userId : string) (processResult : Js.object) (st : State)
    (e : Event) : State :=
  match e with
  | Data row =>
      (* the async listener runs to its await *)
      let p := mkPending (row_transaction userId (row_now row) (row_cells row))
                 (row_draw row) in
      mkState (db st) (saved st) (pending st ++ [p]) (response st)
  | Resume =>
      match pending st with
      | [] => st
      | p :: rest =>
          match createTransaction (pending_draw p) (pending_insert p) (db st) with
          | Some (db', transaction) =>
              (* transactions.push(transaction) *)
              mkState db' (saved st ++ [transaction]) rest (response st)
          | None =>
              (* catch: skip invalid rows *)
              mkState (db st) (saved st) rest (response st)
          end
      end
  | End =>
      match response st with
      | Some _ => st
      | None =>
          mkState (db st) (saved st) (pending st)
            (Some (end_response processResult (saved st)))
      end
  end.

Definition run (userId : string) (processResult : Js.object)
    (events : list Event) (st : State) : State :=
  foldl (step userId processResult) st events.

(** The order in which every listener has finished before the next
    event is emitted. *)
Definition settled_schedule (rows : list CsvRow) : list Event :=
  (rows ≫= λ r, [Data r; Resume]) ++ [End].

(** The order in which the parser emits all its events before the job
    queue resumes any listener. *)
Definition eager_schedule (rows : list CsvRow) : list Event :=
  (Data <$> rows) ++ [End] ++ replicate (length rows) Resume.

(** How the analytics process ended, as the 'close' listener sees it. *)
Inductive Analytics : Type :=
  | ExitFailure                      (* code !== 0 *)
  | NotJson                          (* JSON.parse(result) throws *)
  | Result (processResult : Js.object).

(** Truthiness of [processResult.error]. *)
Definition is_error (v : option json) : bool :=
  match v with
  | None | Some JNull | Some (JBool false) | Some (JStr "") => false
  | Some (JNum n) => negb (PrimFloat.is_zero n || PrimFloat.is_nan n)
  | Some _ => true
  end.

(** The handler: [file] holds the rows of [req.file] when a file was
    uploaded, [schedule] orders the events of the stream. *)
Definition upload (userId : string) (file : option (list CsvRow))
    (analytics : Analytics) (schedule : list CsvRow → list Event) (db0 : Db)
    : Db * option Response :=
  match file with
  | None => (db0, Some (message 400 "No file uploaded"))
  | Some rows =>
      match analytics with
      | ExitFailure => (db0, Some (message 500 "CSV processing failed"))
      | NotJson => (db0, Some (message 500 "Failed to process CSV data"))
      | Result processResult =>
          if is_error (processResult !! "error")
          then (db0,
                Some (mkResponse 400
                        (JObj {[ "message" :=
                                   default JNull (processResult !! "error") ]})))
          else
            let st := run userId processResult (schedule rows)
                        (mkState db0 [] [] None) in
            (db st, response st)
      end
  end.

End Row.
End Upload.


(* ===================================================================== *)
(** * The vocabulary of the statements, and the scenarios *)
(* ===================================================================== *)

Section Statements.
Import Storage Routes Upload.

(** The transaction set of the balance scenario; only kinds and amounts
    matter to the metric. *)
Definition balance_scenario : list Transaction :=
  [ mkTransaction "t1" "u" "salary" 1000%float "Salary" "income" "2024-01-01" "c1";
    mkTransaction "t2" "u" "rent" 300%float "Housing" "expense" "2024-01-02" "c2";
    mkTransaction "t3" "u" "food" 200%float "Food & Dining" "expense" "2024-01-03" "c3" ].

(** The investment of the portfolio scenario. *)
Definition investment_scenario : Investment :=
  mkInvestment "i1" "u" "ACME" "Acme Corp" "stock" 10%float 100%float 150%float
    "2024-01-01" "c1".

(** The goal of the progress scenario, and a goal that is over-funded. *)
Definition goal_scenario : Goal :=
  mkGoal "g1" "u" "Holiday" None 1000%float (Some 250%float) "2025-06-30" "Travel" "c1".

Definition goal_overfunded : Goal :=
  mkGoal "g2" "u" "Laptop" None 1000%float (Some 1500%float) "2025-06-30" "Tech" "c2".

(** The identifier names no row of the user: it does not exist, or the row
    belongs to someone else. *)
Definition not_owned (id userId : string) (db : Db) : Prop :=
  ∀ t, t ∈ transactions db → tx_id t = id → tx_userId t ≠ userId.

(** The identifiers drawn for two users. *)
Definition alice : string := "user-alice".

Definition bob : string := "user-bob".

(** A credential service to run the handlers with: digests and tokens are
    tagged copies of the password and of the user identifier. *)
Definition credentials_sample : CredentialService :=
  {| hashPassword := λ password, "digest:" +:+ password;
     verifyPassword := λ password digest, String.eqb digest ("digest:" +:+ password);
     generateToken := λ userId, "token:" +:+ userId;
     validateToken := λ token,
       if String.prefix "token:" token
       then Some (String.substring 6 (String.length token - 6) token)
       else None;
     unauthenticated := "Access token required" |}.

(** Alice's registration, and the database once she is registered. *)
Definition signup : Js.object :=
  {[ "email" := JStr "alice@example.org"; "password" := JStr "correct horse";
     "firstName" := JStr "Alice"; "lastName" := JStr "Archer" ]}.

Definition db_registered : Db :=
  (register credentials_sample (mkDraw alice "2024-04-01T08:00:00.000Z") signup
     Storage.empty).1.

(** Bob's registration, and the database with both users. *)
Definition signup_bob : Js.object :=
  {[ "email" := JStr "bob@example.org"; "password" := JStr "battery staple";
     "firstName" := JStr "Bob"; "lastName" := JStr "Baker" ]}.

Definition db_two_users : Db :=
  (register credentials_sample (mkDraw bob "2024-04-02T08:00:00.000Z") signup_bob
     db_registered).1.

(** With both registered: a transaction that Alice creates, and the
    update with which she then names Bob as its owner. *)
Definition coffee : Js.object :=
  {[ "description" := JStr "coffee"; "amount" := JNum 3.5%float;
     "category" := JStr "Food & Dining"; "type" := JStr "expense";
     "date" := JStr "2024-05-01" ]}.

Definition db_created : Db :=
  (post_transactions (mkDraw "tx-1" "2024-05-01T10:00:00.000Z") coffee alice
     db_two_users).1.

Definition new_owner : Js.object := {[ "userId" := JStr bob ]}.

Definition db_reowned : Db := (put_transactions "tx-1" new_owner alice db_created).1.

(** What a create request does, for the table of its kind: answered 200,
    the table has gained exactly one row, which is owned by the caller and
    has the drawn identifier; answered 400 or 401, the database is as it
    was. *)
Definition created_for {Row : Type} (table : Db → list Row) (owner id : Row → string)
    (caller : option string) (d : Draw) (before : Db) (result : Db * Response)
    : Prop :=
  (status result.2 = 200
   ∧ ∃ r, table result.1 = table before ++ [r]
          ∧ caller = Some (owner r) ∧ id r = draw_uuid d)
  ∨ (status result.2 ∈ [400; 401] ∧ result.1 = before).

(** Bodies for the two other create requests. *)
Definition acme_shares : Js.object :=
  {[ "symbol" := JStr "ACME"; "name" := JStr "Acme Corp"; "type" := JStr "stock";
     "shares" := JNum 10%float; "purchasePrice" := JNum 100%float;
     "currentPrice" := JNum 150%float; "purchaseDate" := JStr "2024-01-01" ]}.

Definition holiday : Js.object :=
  {[ "title" := JStr "Holiday"; "targetAmount" := JNum 1000%float;
     "targetDate" := JStr "2025-06-30"; "category" := JStr "Travel" ]}.





(** A user row with its digest blanked, and two databases whose user
    tables differ at most in the stored digests. *)
Definition forget_password (u : User) : User :=
  mkUser (user_id u) (user_email u) "" (user_firstName u) (user_lastName u)
    (user_createdAt u).

Definition same_but_passwords (db1 db2 : Db) : Prop :=
  forget_password <$> users db1 = forget_password <$> users db2.

(** The same credential service with another hash function. *)
Definition with_hash (cs : CredentialService) (hash : string → string)
    : CredentialService :=
  mkCredentialService hash (verifyPassword cs) (generateToken cs) (validateToken cs)
    (unauthenticated cs).

(** A successful response carries a user object without a "password"
    key. *)
Definition user_without_password (r : Response) : Prop :=
  ∃ (o : Js.object) (rest : Js.object),
    body r = JObj (<["user" := JObj o]> rest)
    ∧ o !! "password" = None
    ∧ ∀ k v, rest !! k = Some v → k = "token" ∧ ∃ token, v = JStr token.

(** The rows of the file

      description,amount,debit,date
      Coffee shop,3.50,,2024-05-01
      Refund,n/a,,2024-05-02
      Uber ride,,-12,

    (a purchase, a row whose amount is not a number, and a row with a
    negative debit and no date), and [parseFloat] on its cells. *)
Definition parseFloat_sample (s : string) : Js.number :=
  if String.eqb s "3.50" then 3.5%float
  else if String.eqb s "-12" then (-12)%float
  else if String.eqb s "0" then 0%float
  else PrimFloat.nan.

Definition sample_rows : list CsvRow :=
  [ mkCsvRow
      {[ "description" := "Coffee shop"; "amount" := "3.50"; "debit" := "";
         "date" := "2024-05-01" ]}
      "2024-05-03T09:00:00.000Z" (mkDraw "tx-a" "2024-05-03T09:00:00.001Z");
    mkCsvRow
      {[ "description" := "Refund"; "amount" := "n/a"; "debit" := "";
         "date" := "2024-05-02" ]}
      "2024-05-03T09:00:00.002Z" (mkDraw "tx-b" "2024-05-03T09:00:00.003Z");
    mkCsvRow
      {[ "description" := "Uber ride"; "amount" := ""; "debit" := "-12";
         "date" := "" ]}
      "2024-05-03T09:00:00.004Z" (mkDraw "tx-c" "2024-05-03T09:00:00.005Z") ].

Definition stored_summary (db : Db) : list (string * Js.number * string * string) :=
  (λ t, (tx_description t, tx_amount t, tx_type t, tx_date t)) <$> transactions db.

End Statements.


(* ===================================================================== *)
(** * More of the pages: investments, goals, the category chart *)
(* ===================================================================== *)

Module InvestmentsPage.

(** [investments.reduce((sum, inv) => sum + inv.shares * inv.currentPrice, 0)] *)
Definition totalValue (investments : list Investment) : Js.number :=
  Js.reduce (λ sum inv, sum + inv_shares inv * inv_currentPrice inv)%float
    investments 0%float.

Definition totalInvested (investments : list Investment) : Js.number :=
  Js.reduce (λ sum inv, sum + inv_shares inv * inv_purchasePrice inv)%float
    investments 0%float.

Definition totalGain (investments : list Investment) : Js.number :=
  (totalValue investments - totalInvested investments)%float.

(** [totalInvested > 0 ? (totalGain / totalInvested) * 100 : 0] *)
Definition totalReturnPercent (investments : list Investment) : Js.number :=
  if Js.gt (totalInvested investments) 0%float
  then (totalGain investments / totalInvested investments * 100)%float
  else 0%float.

(** [((inv.currentPrice - inv.purchasePrice) / inv.purchasePrice) * 100] *)
Definition returnPercent (inv : Investment) : Js.number :=
  ((inv_currentPrice inv - inv_purchasePrice inv) / inv_purchasePrice inv * 100)%float.

(** The "Best Performer" card:
    [investments.length > 0 && investments.reduce((best, inv) =>
       currentReturn > bestReturn ? inv : best)].
    The reduce has no initial value: it starts from the first element; the
    guard keeps it away from the empty array ([None]: nothing is shown). *)
Definition bestInvestment (investments : list Investment) : option Investment :=
  match investments with
  | [] => None
  | first :: rest =>
      Some (Js.reduce
              (λ best inv,
                 if Js.gt (returnPercent inv) (returnPercent best) then inv else best)
              rest first)
  end.

End InvestmentsPage.

Module CategoryChart.

(** [v || 0] for [v] a number or [undefined]: 0, -0 and NaN are falsy. *)
Definition or_zero (v : option Js.number) : Js.number :=
  match v with
  | Some x => if PrimFloat.is_zero x || PrimFloat.is_nan x then 0%float else x
  | None => 0%float
  end.

(** The property names that the accumulator [{}] inherits from
    [Object.prototype]: [acc[name]] is not [undefined] for them although
    no category was entered. *)
Definition inherited : list string :=
  ["__proto__"; "constructor"; "hasOwnProperty"; "isPrototypeOf";
   "propertyIsEnumerable"; "toLocaleString"; "toString"; "valueOf";
   "__defineGetter__"; "__defineSetter__"; "__lookupGetter__"; "__lookupSetter__"].

(** [transactions.filter(t => t.type === "expense").reduce((acc, transaction) => {
       acc[transaction.category] =
         (acc[transaction.category] || 0) + transaction.amount;
       return acc; }, {})]
    The object is held as a map from categories to numbers; the order of
    its keys is not part of it.  An expense whose category is an inherited
    property name takes the accumulator out of what such a map describes
    ([acc["constructor"] || 0] is a function, an assignment to
    [acc["__proto__"]] creates no property): no map is given then. *)
Definition categoryData (transactions : list Transaction)
    : option (gmap string Js.number) :=
  let expenses := filter (λ t, tx_type t = "expense") transactions in
  if decide (Forall (λ t, tx_category t ∉ inherited) expenses)
  then
    Some
      (Js.reduce
         (λ acc transaction,
            <[tx_category transaction :=
                (or_zero (acc !! tx_category transaction)
                 + tx_amount transaction)%float]>
              acc)
         expenses ∅)
  else None.

End CategoryChart.

Module GoalsInsights.

(** [a >= b] on numbers. *)
Definition ge (a b : Js.number) : bool := PrimFloat.leb b a.

(** The "On Track Performance" card:
    [goals.filter(g => (g.currentAmount / g.targetAmount) >= 0.5).length] *)
Definition atLeastHalf (g : Goal) : bool :=
  ge (Js.ToNumber (goal_currentAmount g) / goal_targetAmount g)%float 0.5%float.

Definition onTrack (goals : list Goal) : nat :=
  length (filter (λ g, atLeastHalf g = true) goals).

End GoalsInsights.

Section MoreStatements.
Import Storage Routes Upload.

(** The key constraints of the schema: primary keys are unique in every
    table, and no two users share an email address. *)
Definition keys_unique (db : Db) : Prop :=
  NoDup (user_id <$> users db)
  ∧ NoDup (user_email <$> users db)
  ∧ NoDup (tx_id <$> transactions db)
  ∧ NoDup (inv_id <$> investments db)
  ∧ NoDup (goal_id <$> goals db)
  ∧ NoDup (tip_id <$> savingsTips db).

(** The calls of the storage interface that write, and the database
    after a call (as it was when the call throws). *)
Inductive StorageCall : Type :=
  | CreateUser (d : Draw) (insertUser : InsertUser)
  | CreateTransaction (d : Draw) (insertTransaction : InsertTransaction)
  | UpdateTransaction (id userId : string) (updates : TransactionUpdates)
  | DeleteTransaction (id userId : string)
  | CreateInvestment (d : Draw) (insertInvestment : InsertInvestment)
  | UpdateInvestment (id userId : string) (updates : InvestmentUpdates)
  | DeleteInvestment (id userId : string)
  | CreateGoal (d : Draw) (insertGoal : InsertGoal)
  | UpdateGoal (id userId : string) (updates : GoalUpdates)
  | DeleteGoal (id userId : string)
  | CreateSavingsTip (d : Draw) (tip : InsertSavingsTip).

Definition after (call : StorageCall) (db : Db) : Db :=
  match call with
  | CreateUser d ins => default db (fst <$> createUser d ins db)
  | CreateTransaction d ins => default db (fst <$> createTransaction d ins db)
  | UpdateTransaction id userId updates =>
      default db (fst <$> updateTransaction id userId updates db)
  | DeleteTransaction id userId => (deleteTransaction id userId db).1
  | CreateInvestment d ins => default db (fst <$> createInvestment d ins db)
  | UpdateInvestment id userId updates =>
      default db (fst <$> updateInvestment id userId updates db)
  | DeleteInvestment id userId => (deleteInvestment id userId db).1
  | CreateGoal d ins => default db (fst <$> createGoal d ins db)
  | UpdateGoal id userId updates => default db (fst <$> updateGoal id userId updates db)
  | DeleteGoal id userId => (deleteGoal id userId db).1
  | CreateSavingsTip d tip => default db (fst <$> createSavingsTip d tip db)
  end.

(** The identifier names no investment, or no goal, of the user. *)
Definition investment_not_owned (id userId : string) (db : Db) : Prop :=
  ∀ i, i ∈ investments db → inv_id i = id → inv_userId i ≠ userId.

Definition goal_not_owned (id userId : string) (db : Db) : Prop :=
  ∀ g, g ∈ goals db → goal_id g = id → goal_userId g ≠ userId.

(** The five categories the upload assigns. *)
Definition upload_categories : list string :=
  ["Food & Dining"; "Transportation"; "Shopping"; "Bills & Utilities"; "Other"].

(** An update of the transaction created in [db_created], and three
    investments. *)
Definition cheaper : TransactionUpdates :=
  mkTransactionUpdates None None (Some 3%float) None None None.

Definition portfolio_sample : list Investment :=
  [ mkInvestment "i1" alice "ACME" "Acme Corp" "stock" 10%float 100%float 150%float
      "2024-01-01" "c1";
    mkInvestment "i2" alice "BOND" "Treasury" "bond" 5%float 100%float 101%float
      "2024-01-02" "c2";
    mkInvestment "i3" alice "GROW" "Growth Fund" "etf" 1%float 20%float 50%float
      "2024-01-03" "c3" ].

(** A test for the shape of an email address to run [loginSchema] with,
    and a registration whose password has three characters. *)
Definition email_format_sample (s : string) : bool := Js.includes s "@".

Definition short_signup : Js.object :=
  {[ "email" := JStr "carol@example.org"; "password" := JStr "abc";
     "firstName" := JStr "Carol"; "lastName" := JStr "Cole" ]}.

(** The row that POST /api/transactions stores for parsed data. *)
Definition posted (d : Draw) (data : InsertTransaction) : Transaction :=
  mkTransaction (draw_uuid d) (it_userId data) (it_description data) (it_amount data)
    (it_category data) (it_type data) (it_date data) (draw_now d).

(** What Alice replaces her coffee with. *)
Definition tea : Js.object :=
  {[ "description" := JStr "tea"; "amount" := JNum 2.5%float;
     "category" := JStr "Food & Dining"; "type" := JStr "expense";
     "date" := JStr "2024-05-02" ]}.

(** What every row stored by an upload for [userId] looks like: it is
    the user's, its amount is a number that is not negative, its kind is
    "expense" with a positive amount or "income" with the amount 0, its
    category is one of the five, and its description is not empty. *)
Definition uploaded_shape (userId : string) (t : Transaction) : Prop :=
  tx_userId t = userId
  ∧ PrimFloat.is_nan (tx_amount t) = false
  ∧ PrimFloat.ltb (tx_amount t) 0%float = false
  ∧ (tx_type t = "expense" ∧ Js.gt (tx_amount t) 0%float = true
     ∨ tx_type t = "income" ∧ tx_amount t = 0%float)
  ∧ tx_category t ∈ upload_categories
  ∧ tx_description t ≠ "".

(** A goal that was given no target, with ten saved. *)
Definition goal_no_target : Goal :=
  mkGoal "g3" alice "Rainy day" None 0%float (Some 10%float) "2025-06-30" "Savings" "c3".

(** A body with a negative amount and a kind of its own. *)
Definition refund : Js.object :=
  {[ "description" := JStr "refund"; "amount" := JNum (-5)%float;
     "category" := JStr "Other"; "type" := JStr "refund";
     "date" := JStr "2024-05-03" ]}.

(** Referential integrity: the owner of every row of the four owned
    tables is a user. *)
Definition owners_are_users (db : Db) : Prop :=
  Forall (λ t, tx_userId t ∈ (user_id <$> users db)) (transactions db)
  ∧ Forall (λ i, inv_userId i ∈ (user_id <$> users db)) (investments db)
  ∧ Forall (λ g, goal_userId g ∈ (user_id <$> users db)) (goals db)
  ∧ Forall (λ t, tip_userId t ∈ (user_id <$> users db)) (savingsTips db).

End MoreStatements.


(* ===================================================================== *)
(** * Facts about binary64 arithmetic *)
(* ===================================================================== *)

(** Multiplication of JavaScript numbers is commutative. *)
Lemma number_mul_comm (x y : Js.number) : (x * y)%float = (y * x)%float.
Proof.
  apply Prim2SF_inj. rewrite !mul_spec.
  destruct (Prim2SF x) as [sx|sx| |sx mx ex], (Prim2SF y) as [sy|sy| |sy my ey];
    unfold SF64mul, SFmul; try reflexivity;
    rewrite ?(Bool.xorb_comm sx sy); try reflexivity.
  by rewrite (Pos.mul_comm mx my), (Z.add_comm ex ey).
Qed.


(** An equation between two numbers is refuted by a test that tells them
    apart. *)
Lemma number_neq (x y : Js.number) : PrimFloat.eqb x y = false → PrimFloat.eqb y y = true → x ≠ y.
Proof. intros Hxy Hyy ->. congruence. Qed.

(** ** Comparison *)

Lemma SFcompare_refl (s : spec_float) : s ≠ S754_nan → SFcompare s s = Some Eq.
Proof.
  destruct s as [b|b| |b m e]; cbn [SFcompare]; intros Hs.
  - reflexivity.
  - by destruct b.
  - by destruct Hs.
  - rewrite Z.compare_refl, Pos.compare_cont_refl. by destruct b.
Qed.

Lemma SFcompare_antisym (x y : spec_float) :
  SFcompare y x = CompOpp <$> SFcompare x y.
Proof.
  destruct x as [bx|bx| |bx mx ex], y as [b_y|b_y| |b_y my ey];
    cbn [SFcompare fmap option_fmap option_map]; try reflexivity;
    try (by destruct bx); try (by destruct b_y); try (by destruct bx, b_y).
  rewrite (Z.compare_antisym ex ey).
  change (PosDef.Pos.compare_cont Eq my mx)
    with (Pos.compare_cont (CompOpp Eq) my mx).
  rewrite <- (Pos.compare_cont_antisym mx my Eq).
  destruct bx, b_y; try reflexivity;
    destruct (ex ?= ey)%Z; cbn [CompOpp]; try reflexivity;
    by rewrite ?CompOpp_involutive.
Qed.

Lemma is_nan_spec (x : Js.number) :
  PrimFloat.is_nan x = match Prim2SF x with S754_nan => true | _ => false end.
Proof.
  unfold is_nan. rewrite FloatAxioms.eqb_spec. unfold SFeqb.
  destruct (Prim2SF x) as [b|b| |b m e] eqn:E.
  - reflexivity.
  - by destruct b.
  - reflexivity.
  - rewrite SFcompare_refl; [reflexivity | discriminate].
Qed.

Lemma leb_not_nan (x y : Js.number) :
  PrimFloat.leb x y = true → PrimFloat.is_nan x = false ∧ PrimFloat.is_nan y = false.
Proof.
  rewrite leb_spec, !is_nan_spec. unfold SFleb.
  destruct (Prim2SF x), (Prim2SF y); cbn [SFcompare]; try discriminate; by split.
Qed.

Lemma SFcompare_is_Some (x y : spec_float) :
  x ≠ S754_nan → y ≠ S754_nan → is_Some (SFcompare x y).
Proof.
  destruct x as [bx|bx| |bx mx ex], y as [b_y|b_y| |b_y my ey];
    cbn [SFcompare]; intros Hx Hy; try (by destruct Hx); try (by destruct Hy); eauto.
Qed.




Lemma Prim2SF_one : Prim2SF 1%float = S754_finite false 4503599627370496 (-52).
Proof. vm_compute. reflexivity. Qed.

Lemma SFcompare_Eq_one (s : spec_float) :
  SFcompare s (S754_finite false 4503599627370496 (-52)) = Some Eq →
  s = S754_finite false 4503599627370496 (-52).
Proof.
  destruct s as [b|b| |b m e]; cbn [SFcompare].
  - destruct b; discriminate.
  - destruct b; discriminate.
  - discriminate.
  - destruct b; [discriminate|].
    destruct (e ?= -52)%Z eqn:Ee; [|discriminate..].
    destruct (PosDef.Pos.compare_cont Eq m 4503599627370496) eqn:Hm; [|discriminate..].
    intros _. apply Z.compare_eq in Ee. apply Pos.compare_eq in Hm. congruence.
Qed.

(** [Math.min(q, 1)] is [q] when [q <= 1]. *)
Lemma Math_min_le_one (q : Js.number) :
  PrimFloat.leb q 1%float = true → Js.Math_min q 1%float = q.
Proof.
  intros H. unfold Js.Math_min.
  destruct (leb_not_nan _ _ H) as [-> ->]. cbn [orb].
  rewrite !ltb_spec. rewrite leb_spec in H. unfold SFltb, SFleb in *.
  rewrite (SFcompare_antisym (Prim2SF q) (Prim2SF 1%float)).
  destruct (SFcompare (Prim2SF q) (Prim2SF 1%float)) as [[]|] eqn:E;
    [| reflexivity | discriminate H | discriminate H].
  cbn [fmap option_fmap option_map CompOpp].
  rewrite Prim2SF_one in E. apply SFcompare_Eq_one in E.
  rewrite <- Prim2SF_one in E. apply Prim2SF_inj in E. subst q.
  vm_compute. reflexivity.
Qed.

Lemma ltb_leb (a b : Js.number) :
  PrimFloat.ltb a b = true → PrimFloat.leb a b = true.
Proof.
  rewrite ltb_spec, leb_spec. unfold SFltb, SFleb.
  by destruct (SFcompare (Prim2SF a) (Prim2SF b)) as [[]|].
Qed.

Lemma Prim2SF_zero : Prim2SF 0%float = S754_zero false.
Proof. vm_compute. reflexivity. Qed.

(* ===================================================================== *)
(** * The derived metrics *)
(* ===================================================================== *)

Section Metrics.
Import Dashboard MetricsSpec.

(** A [reduce] that adds one term per element is the sum of the terms. *)
Lemma reduce_add_terms {A : Type} (term : A → Js.number) (l : list A) (init : Js.number) :
  Js.reduce (λ sum a, sum + term a)%float l init = foldl PrimFloat.add init (term <$> l).
Proof.
  unfold Js.reduce. revert init.
  induction l as [|a l IH]; intros init; simpl; [done | apply IH].
Qed.

Lemma totalIncome_sum (ts : list Transaction) :
  totalIncome ts = sum (amounts_of "income" ts).
Proof. unfold totalIncome, sum, amounts_of. apply reduce_add_terms. Qed.

Lemma totalExpenses_sum (ts : list Transaction) :
  totalExpenses ts = sum (amounts_of "expense" ts).
Proof. unfold totalExpenses, sum, amounts_of. apply reduce_add_terms. Qed.

(** C3. For every list of transactions the dashboard's balance is the sum
    of the amounts of the "income" transactions minus the sum of the
    amounts of the "expense" transactions (each sum accumulated from 0 in
    list order), and for [{income, 1000}, {expense, 300}, {expense, 200}]
    the balance is 500. *)
Theorem C3_balance :
  (∀ ts : list Transaction, totalBalance ts = balance ts)
  ∧ totalBalance balance_scenario = 500%float.
Proof.
  split.
  - intros ts. unfold totalBalance, balance.
    by rewrite totalIncome_sum, totalExpenses_sum.
  - vm_compute. reflexivity.
Qed.

(** Transactions of any other kind do not enter the balance. *)
Lemma totalBalance_other_kind (t : Transaction) (ts : list Transaction) :
  tx_type t ≠ "income" → tx_type t ≠ "expense" →
  totalBalance (t :: ts) = totalBalance ts.
Proof.
  intros Hi He. unfold totalBalance, totalIncome, totalExpenses.
  by rewrite !filter_cons_False.
Qed.

Lemma portfolioValue_sum (invs : list Investment) :
  portfolioValue invs = portfolio_value invs.
Proof. unfold portfolioValue, portfolio_value, sum. apply reduce_add_terms. Qed.

Lemma portfolioGain_sum (invs : list Investment) :
  portfolioGain invs = portfolio_gain invs.
Proof.
  unfold portfolioGain, portfolio_gain, sum. rewrite reduce_add_terms.
  f_equal. apply list_fmap_ext. intros _ i _. apply number_mul_comm.
Qed.

(** C5. For every list of investments the dashboard's portfolio value is
    the sum of shares × currentPrice and its portfolio gain is the sum of
    shares × (currentPrice − purchasePrice) (sums accumulated from 0 in
    list order); one investment with shares 10, purchase price 100 and
    current price 150 has value 1500 and gain 500. *)
Theorem C5_portfolio :
  (∀ invs : list Investment,
     portfolioValue invs = portfolio_value invs
     ∧ portfolioGain invs = portfolio_gain invs)
  ∧ portfolioValue [investment_scenario] = 1500%float
  ∧ portfolioGain [investment_scenario] = 500%float.
Proof.
  split; [|split].
  - intros invs. split; [apply portfolioValue_sum | apply portfolioGain_sum].
  - vm_compute. reflexivity.
  - vm_compute. reflexivity.
Qed.

End Metrics.

Section GoalMetrics.
Import Goals.

(** C4, as the claim states it, fails: the goals page does not cap the
    progress percentage.  With target 1000 and current amount 1500 the
    page derives 150 where min(currentAmount/targetAmount, 1) × 100 is
    100. *)
Lemma C4_progress_not_capped :
  progress goal_overfunded = 150%float
  ∧ MetricsSpec.goal_progress goal_overfunded = 100%float
  ∧ progress goal_overfunded ≠ MetricsSpec.goal_progress goal_overfunded.
Proof.
  split; [|split].
  - vm_compute. reflexivity.
  - vm_compute. reflexivity.
  - apply number_neq; vm_compute; reflexivity.
Qed.

(** C4, amended.  For every goal: the progress percentage is
    (currentAmount / targetAmount) × 100 when targetAmount > 0 and 0
    otherwise; it is min(currentAmount/targetAmount, 1) × 100 whenever
    targetAmount > 0 and the ratio is at most 1; only the width of the
    progress bar is capped, at min(progress, 100); the remaining amount is
    targetAmount − currentAmount.  For target 1000 and current amount 250
    the progress is 25 and the remaining amount 750. *)
Theorem C4_goal_metrics :
  (∀ g : Goal,
     let ratio := (Js.ToNumber (goal_currentAmount g) / goal_targetAmount g)%float in
     (Js.gt (goal_targetAmount g) 0%float = true → progress g = (ratio * 100)%float)
     ∧ (Js.gt (goal_targetAmount g) 0%float = false → progress g = 0%float)
     ∧ (Js.gt (goal_targetAmount g) 0%float = true → PrimFloat.leb ratio 1%float = true →
        progress g = MetricsSpec.goal_progress g)
     ∧ barWidth g = Js.Math_min (progress g) 100%float
     ∧ remaining g
       = (goal_targetAmount g - Js.ToNumber (goal_currentAmount g))%float)
  ∧ progress goal_scenario = 25%float
  ∧ remaining goal_scenario = 750%float.
Proof.
  split; [|split; vm_compute; reflexivity].
  intros g ratio. unfold progress, MetricsSpec.goal_progress. fold ratio.
  repeat split.
  - by intros ->.
  - by intros ->.
  - intros -> Hle. by rewrite (Math_min_le_one ratio Hle).
Qed.

End GoalMetrics.

(* ===================================================================== *)
(** * The query builder *)
(* ===================================================================== *)

Section QueryFacts.
Context {Row : Type}.
Implicit Types (t rows : list Row) (P : Row → Prop) (r : Row).

Lemma limit_elem_of (n : Z) rows r : r ∈ Query.limit n rows → r ∈ rows.
Proof.
  unfold Query.limit. destruct (n <? 0)%Z; [done|].
  intros (i & Hi & _)%elem_of_take. by eapply list_elem_of_lookup_2.
Qed.

Lemma limit_length (n : Z) rows :
  length (Query.limit n rows)
  = if (n <? 0)%Z then length rows else min (Z.to_nat n) (length rows).
Proof. unfold Query.limit. destruct (n <? 0)%Z; [done | apply length_take]. Qed.

Lemma select_none P `{!∀ r, Decision (P r)} t :
  (∀ r, r ∈ t → ¬ P r) → Query.select_where P t = [].
Proof.
  unfold Query.select_where. induction t as [|r t IH]; intros Hno; [done|].
  rewrite filter_cons_False by (apply Hno; left).
  apply IH. intros r' Hr'. apply Hno. by right.
Qed.

Lemma select_first_Some P `{!∀ r, Decision (P r)} t r :
  head (Query.limit 1 (Query.select_where P t)) = Some r → P r ∧ r ∈ t.
Proof.
  intros Hhd. apply (list_elem_of_filter P t r).
  change (filter P t) with (Query.select_where P t). apply (limit_elem_of 1).
  destruct (Query.limit 1 (Query.select_where P t)) as [|r' l]; simplify_eq/=. left.
Qed.

Lemma set_where_no_match P `{!∀ r, Decision (P r)} (set : Row → Row) t :
  (∀ r, r ∈ t → ¬ P r) → Query.set_where P set t = t.
Proof.
  unfold Query.set_where. induction t as [|r t IH]; intros Hno; [done|].
  cbn [fmap list_fmap]. rewrite decide_False by (apply Hno; left).
  f_equal. apply IH. intros r' Hr'. apply Hno. by right.
Qed.

Lemma delete_where_no_match P `{!∀ r, Decision (P r)} t :
  (∀ r, r ∈ t → ¬ P r) → Query.delete_where P t = (t, 0).
Proof.
  intros Hno. unfold Query.delete_where. f_equal.
  - induction t as [|r t IH]; [done|].
    rewrite filter_cons_True by (apply Hno; left).
    f_equal. apply IH. intros r' Hr'. apply Hno. by right.
  - change (filter P t) with (Query.select_where P t).
    by rewrite (select_none P t Hno).
Qed.

(** A row outside the WHERE clause keeps its place and its contents
    through an update, and stays in the table through a delete. *)
Lemma set_where_keeps P `{!∀ r, Decision (P r)} (set : Row → Row) t (i : nat) r :
  t !! i = Some r → ¬ P r → Query.set_where P set t !! i = Some r.
Proof.
  intros Hi Hr. unfold Query.set_where.
  rewrite list_lookup_fmap, Hi. cbn. by rewrite decide_False.
Qed.

Lemma delete_where_keeps P `{!∀ r, Decision (P r)} t r :
  r ∈ t → ¬ P r → r ∈ (Query.delete_where P t).1.
Proof. intros Hr HP. cbn. by apply list_elem_of_filter. Qed.

Lemma insert_Some (pk : Row → string) (check : Row → bool) r t t' :
  Query.insert pk check r t = Some t' →
  t' = t ++ [r] ∧ (pk r ∉ (pk <$> t)) ∧ check r = true.
Proof.
  unfold Query.insert. case_decide; [done|].
  destruct (check r); [|done]. by intros [= <-].
Qed.

(** The checked update: what it gives when it does not throw, and when
    it does not throw. *)
Lemma update_where_Some P `{!∀ r, Decision (P r)} (set : Row → Row) (valid : bool)
    t t' :
  Query.update_where P set valid t = Some t' → t' = Query.set_where P set t.
Proof. unfold Query.update_where. destruct (_ || _); [by intros [= <-] | done]. Qed.

Lemma update_where_valid P `{!∀ r, Decision (P r)} (set : Row → Row) t :
  Query.update_where P set true t = Some (Query.set_where P set t).
Proof. done. Qed.

Lemma update_where_no_match P `{!∀ r, Decision (P r)} (set : Row → Row)
    (valid : bool) t :
  (∀ r, r ∈ t → ¬ P r) → Query.update_where P set valid t = Some t.
Proof.
  intros Hno. unfold Query.update_where.
  rewrite (bool_decide_eq_true_2 (Forall (λ r, ¬ P r) t)) by (by apply Forall_forall).
  rewrite orb_true_r. by rewrite set_where_no_match.
Qed.

Lemma update_where_refused P `{!∀ r, Decision (P r)} (set : Row → Row) t r :
  r ∈ t → P r → Query.update_where P set false t = None.
Proof.
  intros Hr HP. unfold Query.update_where. cbn [orb].
  rewrite bool_decide_eq_false_2; [done|].
  intros Hall. rewrite Forall_forall in Hall. by apply (Hall r).
Qed.

(** The sort: a rearrangement of the rows, largest key first. *)
Lemma insert_desc_perm {K : Type} (le : relation K) `{!∀ x y, Decision (le x y)}
    (col : Row → K) r rows :
  Query.insert_desc le col r rows ≡ₚ r :: rows.
Proof.
  induction rows as [|x rows IH]; [done|]. cbn [Query.insert_desc].
  case_decide; [|done]. rewrite IH. apply Permutation_swap.
Qed.


Lemma orderBy_desc_perm {K : Type} (le : relation K) `{!∀ x y, Decision (le x y)}
    (col : Row → K) rows :
  Query.orderBy_desc le col rows ≡ₚ rows.
Proof.
  unfold Query.orderBy_desc.
  assert (Hgen : ∀ sorted,
            foldl (λ sorted r, Query.insert_desc le col r sorted) sorted rows
            ≡ₚ sorted ++ rows).
  { induction rows as [|r rows IH]; intros sorted; cbn [foldl].
    - by rewrite app_nil_r.
    - rewrite IH, insert_desc_perm. cbn [app]. apply Permutation_middle. }
  apply Hgen.
Qed.


Lemma take_sorted (R : relation Row) (k : nat) rows :
  Sorted R rows → Sorted R (take k rows).
Proof.
  intros Hs. revert k.
  induction Hs as [|r rows Hs IH Hhd]; intros [|k]; cbn; try constructor.
  - apply IH.
  - destruct Hhd as [|r' rows' Hr]; destruct k; cbn; by constructor.
Qed.

Lemma limit_sorted (R : relation Row) (n : Z) rows :
  Sorted R rows → Sorted R (Query.limit n rows).
Proof.
  unfold Query.limit. destruct (n <? 0)%Z; [done|]. apply take_sorted.
Qed.

(** The bound limit: the first rows, as many as the number says, when it
    is a positive integer below 2^63; a throw when it is positive and not
    such an integer. *)
Lemma limit_bound_Some (n : Js.number) rows l :
  Query.limit_bound n rows = Some l → ∃ k, l = take k rows.
Proof.
  unfold Query.limit_bound. destruct (PrimFloat.leb 0 n).
  - destruct (Js.integer n) as [z|]; [|done].
    destruct (z <? 2 ^ 63)%Z; [|done]. intros [= <-]. by eexists.
  - intros [= <-]. exists (length rows). by rewrite take_ge.
Qed.




End QueryFacts.

(* ===================================================================== *)
(** * Ownership: what one storage call can see and change *)
(* ===================================================================== *)

Section Ownership.
Import Storage Routes.

Lemma with_transactions_same (db : Db) : with_transactions db (transactions db) = db.
Proof. by destruct db. Qed.

(** Read-one returns a row only if both the identifier and the owner
    match. *)
Lemma getTransaction_owner (id userId : string) (db : Db) (t : Transaction) :
  getTransaction id userId db = Some t →
  tx_id t = id ∧ tx_userId t = userId ∧ t ∈ transactions db.
Proof.
  intros Hget. apply select_first_Some in Hget as [[Hid Hu] Hin]. done.
Qed.

(** Read-by-owner returns rows of the table that the user owns. *)
Lemma getUserTransactions_owner (userId : string) (limit : option Js.number)
    (db : Db) (rows : list Transaction) (t : Transaction) :
  getUserTransactions userId limit db = Some rows →
  t ∈ rows →
  tx_userId t = userId ∧ t ∈ transactions db.
Proof.
  unfold getUserTransactions. intros [k ->]%limit_bound_Some Hin.
  apply elem_of_take in Hin as (i & Hi & _).
  apply list_elem_of_lookup_2 in Hi.
  rewrite orderBy_desc_perm in Hi.
  by apply list_elem_of_filter in Hi.
Qed.

Lemma not_owned_no_match (id userId : string) (db : Db) :
  not_owned id userId db →
  ∀ t, t ∈ transactions db → ¬ (tx_id t = id ∧ tx_userId t = userId).
Proof. intros Hno t Hin [Hid Hu]. by apply (Hno t). Qed.

(** Update and delete on such an identifier report absence and leave the
    database as it was. *)
Lemma updateTransaction_not_owned (id userId : string) (updates : TransactionUpdates)
    (db : Db) :
  not_owned id userId db →
  updateTransaction id userId updates db
  = if no_transaction_values updates then None else Some (db, None).
Proof.
  intros Hno0. pose proof (not_owned_no_match _ _ _ Hno0) as Hno.
  unfold updateTransaction. destruct (no_transaction_values updates); [done|].
  rewrite (update_where_no_match _ (set_transaction updates) _ _ Hno).
  cbn [mbind option_bind]. rewrite with_transactions_same.
  f_equal. f_equal. unfold getTransaction. by rewrite (select_none _ _ Hno).
Qed.

Lemma deleteTransaction_not_owned (id userId : string) (db : Db) :
  not_owned id userId db → deleteTransaction id userId db = (db, false).
Proof.
  intros Hno0. pose proof (not_owned_no_match _ _ _ Hno0) as Hno.
  unfold deleteTransaction.
  rewrite (delete_where_no_match _ _ Hno). cbn. by rewrite with_transactions_same.
Qed.

(** The handlers map that outcome to 404 (a body that does not parse, or
    that sets no field, is answered 400); neither reports success, and the
    database is unchanged. *)
Lemma put_transactions_not_owned (id userId : string) (body : Js.object) (db : Db) :
  not_owned id userId db →
  put_transactions id body userId db
  = (db, match Zod.insertTransactionSchema_partial body with
         | Some updates =>
             if no_transaction_values updates
             then message 400 "Invalid update data"
             else message 404 "Transaction not found"
         | None => message 400 "Invalid update data"
         end).
Proof.
  intros Hno. unfold put_transactions.
  destruct (Zod.insertTransactionSchema_partial body) as [updates|]; [|done].
  rewrite updateTransaction_not_owned by done.
  by destruct (no_transaction_values updates).
Qed.

Lemma delete_transactions_not_owned (id userId : string) (db : Db) :
  not_owned id userId db →
  delete_transactions id userId db = (db, message 404 "Transaction not found").
Proof.
  intros Hno. unfold delete_transactions. by rewrite deleteTransaction_not_owned.
Qed.

(** One update or delete issued for a user leaves every row that another
    user owns at that moment in place and unchanged. *)
Lemma updateTransaction_others (id userId : string) (updates : TransactionUpdates)
    (db db' : Db) (result : option Transaction) (i : nat) (t : Transaction) :
  updateTransaction id userId updates db = Some (db', result) →
  transactions db !! i = Some t → tx_userId t ≠ userId →
  transactions db' !! i = Some t.
Proof.
  unfold updateTransaction. destruct (no_transaction_values updates); [done|].
  destruct (Query.update_where _ _ _ _) as [rows|] eqn:Hupd; [|done].
  apply update_where_Some in Hupd as ->. cbn [mbind option_bind].
  intros [= <- _] Hi Hu. cbn. apply set_where_keeps; [done|]. by intros [_ ?].
Qed.

Lemma deleteTransaction_others (id userId : string) (db : Db) (t : Transaction) :
  t ∈ transactions db → tx_userId t ≠ userId →
  t ∈ transactions (deleteTransaction id userId db).1.
Proof.
  intros Hin Hu. cbn. apply list_elem_of_filter. split; [|done]. by intros [_ ?].
Qed.

End Ownership.

(* ===================================================================== *)
(** * Ownership across requests *)
(* ===================================================================== *)

Section OwnershipTrace.
Import Storage Routes.

(** C1. The handlers do not keep the records a user created away from
    other users.  Alice and Bob are registered.  Alice creates the
    transaction tx-1 and then sends PUT /api/transactions/tx-1 with the
    body [{ userId: bob }]: the update changes the owner of the row (and
    the handler answers 404, because the row is no longer hers).  From
    then on the record that Alice created is returned to Bob by his
    read-by-owner, and Bob's update and delete on it succeed; Alice no
    longer sees it. *)
Theorem C1_update_changes_owner :
  user_id <$> users db_created = [alice; bob]
  ∧ (λ t, (tx_id t, tx_userId t)) <$> transactions db_created = [("tx-1", alice)]
  ∧ status (put_transactions "tx-1" new_owner alice db_created).2 = 404
  ∧ (fmap (M:=list) (λ t, (tx_id t, tx_userId t, tx_description t))
       <$> getUserTransactions bob None db_reowned)
    = Some [("tx-1", bob, "coffee")]
  ∧ status (get_transactions None bob db_reowned).2 = 200
  ∧ status (put_transactions "tx-1" {[ "amount" := JNum 99%float ]} bob db_reowned).2
    = 200
  ∧ status (delete_transactions "tx-1" bob db_reowned).2 = 200
  ∧ transactions (delete_transactions "tx-1" bob db_reowned).1 = []
  ∧ getUserTransactions alice None db_reowned = Some [].
Proof. repeat split; vm_compute; reflexivity. Qed.

End OwnershipTrace.

(* ===================================================================== *)
(** * The owner of a created record *)
(* ===================================================================== *)

Section CreateOwner.
Import Storage Routes.

Lemma createTransaction_Some (d : Draw) (ins : InsertTransaction) (db db' : Db)
    (t : Transaction) :
  createTransaction d ins db = Some (db', t) →
  transactions db' = transactions db ++ [t] ∧ tx_userId t = it_userId ins.
Proof.
  unfold createTransaction. intros Hc.
  destruct (Query.insert _ _ _ _) as [rows|] eqn:Hins; simplify_eq/=.
  by apply insert_Some in Hins as (-> & _ & _).
Qed.

Lemma createInvestment_Some (d : Draw) (ins : InsertInvestment) (db db' : Db)
    (i : Investment) :
  createInvestment d ins db = Some (db', i) →
  investments db' = investments db ++ [i] ∧ inv_userId i = ii_userId ins.
Proof.
  unfold createInvestment. intros Hc.
  destruct (Query.insert _ _ _ _) as [rows|] eqn:Hins; simplify_eq/=.
  by apply insert_Some in Hins as (-> & _ & _).
Qed.

Lemma createGoal_Some (d : Draw) (ins : InsertGoal) (db db' : Db) (g : Goal) :
  createGoal d ins db = Some (db', g) →
  goals db' = goals db ++ [g] ∧ goal_userId g = ig_userId ins.
Proof.
  unfold createGoal. intros Hc.
  destruct (Query.insert _ _ _ _) as [rows|] eqn:Hins; simplify_eq/=.
  by apply insert_Some in Hins as (-> & _ & _).
Qed.

(** What [{ ...req.body, userId }] parses to carries the caller's
    identifier, whatever the body said. *)
Lemma insertTransactionSchema_userId (userId : string) (body : Js.object)
    (ins : InsertTransaction) :
  Zod.insertTransactionSchema (<["userId" := JStr userId]> body) = Some ins →
  it_userId ins = userId.
Proof.
  unfold Zod.insertTransactionSchema. rewrite lookup_insert_eq. cbn.
  intros Hp. by simplify_option_eq.
Qed.

Lemma insertInvestmentSchema_userId (userId : string) (body : Js.object)
    (ins : InsertInvestment) :
  Zod.insertInvestmentSchema (<["userId" := JStr userId]> body) = Some ins →
  ii_userId ins = userId.
Proof.
  unfold Zod.insertInvestmentSchema. rewrite lookup_insert_eq. cbn.
  intros Hp. by simplify_option_eq.
Qed.

Lemma insertGoalSchema_userId (userId : string) (body : Js.object) (ins : InsertGoal) :
  Zod.insertGoalSchema (<["userId" := JStr userId]> body) = Some ins →
  ig_userId ins = userId.
Proof.
  unfold Zod.insertGoalSchema. rewrite lookup_insert_eq. cbn.
  intros Hp. by simplify_option_eq.
Qed.

(** A number that [z.number()] lets through is not NaN, so a parsed
    insert shape passes the NOT NULL constraints of its table. *)
Lemma number_Some (v : option json) (x : Js.number) :
  Zod.number_ v = Some x → PrimFloat.is_nan x = false.
Proof.
  unfold Zod.number_. destruct v as [[| |n| | |]|]; try done.
  destruct (PrimFloat.is_nan n) eqn:Hn; [done|]. by intros [= <-].
Qed.

Lemma insertTransactionSchema_amount (o : Js.object) (ins : InsertTransaction) :
  Zod.insertTransactionSchema o = Some ins → real_not_null (it_amount ins) = true.
Proof.
  unfold Zod.insertTransactionSchema.
  destruct (Zod.string_ (o !! "userId")) as [?|]; [|done].
  destruct (Zod.string_ (o !! "description")) as [?|]; [|done].
  destruct (Zod.number_ (o !! "amount")) as [amount|] eqn:Ha; [|done].
  destruct (Zod.string_ (o !! "category")) as [?|]; [|done].
  destruct (Zod.string_ (o !! "type")) as [?|]; [|done].
  destruct (Zod.string_ (o !! "date")) as [?|]; [|done].
  cbn. intros [= <-]. unfold real_not_null. cbn.
  by rewrite (number_Some _ _ Ha).
Qed.

Lemma insertInvestmentSchema_amounts (o : Js.object) (ins : InsertInvestment) :
  Zod.insertInvestmentSchema o = Some ins →
  real_not_null (ii_shares ins) = true
  ∧ real_not_null (ii_purchasePrice ins) = true
  ∧ real_not_null (ii_currentPrice ins) = true.
Proof.
  unfold Zod.insertInvestmentSchema.
  destruct (Zod.string_ (o !! "userId")) as [?|]; [|done].
  destruct (Zod.string_ (o !! "symbol")) as [?|]; [|done].
  destruct (Zod.string_ (o !! "name")) as [?|]; [|done].
  destruct (Zod.string_ (o !! "type")) as [?|]; [|done].
  destruct (Zod.number_ (o !! "shares")) as [shares|] eqn:Hs; [|done].
  destruct (Zod.number_ (o !! "purchasePrice")) as [purchasePrice|] eqn:Hp; [|done].
  destruct (Zod.number_ (o !! "currentPrice")) as [currentPrice|] eqn:Hc; [|done].
  destruct (Zod.string_ (o !! "purchaseDate")) as [?|]; [|done].
  cbn. intros [= <-]. unfold real_not_null. cbn.
  by rewrite (number_Some _ _ Hs), (number_Some _ _ Hp), (number_Some _ _ Hc).
Qed.

Lemma insertGoalSchema_amount (o : Js.object) (ins : InsertGoal) :
  Zod.insertGoalSchema o = Some ins → real_not_null (ig_targetAmount ins) = true.
Proof.
  unfold Zod.insertGoalSchema.
  destruct (Zod.string_ (o !! "userId")) as [?|]; [|done].
  destruct (Zod.string_ (o !! "title")) as [?|]; [|done].
  destruct (Zod.optional _ (o !! "description")) as [?|]; [|done].
  destruct (Zod.number_ (o !! "targetAmount")) as [targetAmount|] eqn:Ha; [|done].
  destruct (Zod.optional _ (o !! "currentAmount")) as [?|]; [|done].
  destruct (Zod.string_ (o !! "targetDate")) as [?|]; [|done].
  destruct (Zod.string_ (o !! "category")) as [?|]; [|done].
  cbn. intros [= <-]. unfold real_not_null. cbn.
  by rewrite (number_Some _ _ Ha).
Qed.

(** A create call succeeds when the identifier is new, the numbers are
    numbers and the owner is a user. *)
Lemma createTransaction_accepts (d : Draw) (ins : InsertTransaction) (db : Db) :
  draw_uuid d ∉ (tx_id <$> transactions db) →
  real_not_null (it_amount ins) = true →
  it_userId ins ∈ (user_id <$> users db) →
  is_Some (createTransaction d ins db).
Proof.
  intros Hfresh Hamount Huser. unfold createTransaction, Query.insert.
  cbn [tx_id]. rewrite decide_False by done.
  unfold transactions_check, references_user. cbn [tx_amount tx_userId].
  rewrite Hamount, bool_decide_eq_true_2 by done. by eexists.
Qed.

Lemma createInvestment_accepts (d : Draw) (ins : InsertInvestment) (db : Db) :
  draw_uuid d ∉ (inv_id <$> investments db) →
  real_not_null (ii_shares ins) = true
  ∧ real_not_null (ii_purchasePrice ins) = true
  ∧ real_not_null (ii_currentPrice ins) = true →
  ii_userId ins ∈ (user_id <$> users db) →
  is_Some (createInvestment d ins db).
Proof.
  intros Hfresh (Hs & Hp & Hc) Huser. unfold createInvestment, Query.insert.
  cbn [inv_id]. rewrite decide_False by done.
  unfold investments_check, references_user.
  cbn [inv_shares inv_purchasePrice inv_currentPrice inv_userId].
  rewrite Hs, Hp, Hc, bool_decide_eq_true_2 by done. by eexists.
Qed.

Lemma createGoal_accepts (d : Draw) (ins : InsertGoal) (db : Db) :
  draw_uuid d ∉ (goal_id <$> goals db) →
  real_not_null (ig_targetAmount ins) = true →
  ig_userId ins ∈ (user_id <$> users db) →
  is_Some (createGoal d ins db).
Proof.
  intros Hfresh Hamount Huser. unfold createGoal, Query.insert.
  cbn [goal_id]. rewrite decide_False by done.
  unfold goals_check, references_user. cbn [goal_targetAmount goal_userId].
  rewrite Hamount, bool_decide_eq_true_2 by done. by eexists.
Qed.

Lemma createTransaction_id (d : Draw) (ins : InsertTransaction) (db db' : Db)
    (t : Transaction) :
  createTransaction d ins db = Some (db', t) → tx_id t = draw_uuid d.
Proof.
  unfold createTransaction. intros Hc.
  destruct (Query.insert _ _ _ _) as [rows|]; by simplify_eq/=.
Qed.

Lemma createInvestment_id (d : Draw) (ins : InsertInvestment) (db db' : Db)
    (i : Investment) :
  createInvestment d ins db = Some (db', i) → inv_id i = draw_uuid d.
Proof.
  unfold createInvestment. intros Hc.
  destruct (Query.insert _ _ _ _) as [rows|]; by simplify_eq/=.
Qed.

Lemma createGoal_id (d : Draw) (ins : InsertGoal) (db db' : Db) (g : Goal) :
  createGoal d ins db = Some (db', g) → goal_id g = draw_uuid d.
Proof.
  unfold createGoal. intros Hc.
  destruct (Query.insert _ _ _ _) as [rows|]; by simplify_eq/=.
Qed.

(** What each create handler does for a caller. *)
Lemma post_transactions_created (d : Draw) (body : Js.object) (userId : string) (db : Db) :
  created_for transactions tx_userId tx_id (Some userId) d db
    (post_transactions d body userId db).
Proof.
  unfold post_transactions, created_for.
  destruct (Zod.insertTransactionSchema _) as [ins|] eqn:Hp; cbn [mbind option_bind];
    [|right; split; [left | done]].
  destruct (createTransaction d ins db) as [[db' t]|] eqn:Hc;
    [|right; split; [left | done]].
  left. split; [done|]. exists t. cbn [fst snd].
  pose proof (createTransaction_id _ _ _ _ _ Hc) as Hid.
  apply createTransaction_Some in Hc as [-> Hu].
  by rewrite Hu, (insertTransactionSchema_userId _ _ _ Hp).
Qed.

Lemma post_investments_created (d : Draw) (body : Js.object) (userId : string) (db : Db) :
  created_for investments inv_userId inv_id (Some userId) d db
    (post_investments d body userId db).
Proof.
  unfold post_investments, created_for.
  destruct (Zod.insertInvestmentSchema _) as [ins|] eqn:Hp; cbn [mbind option_bind];
    [|right; split; [left | done]].
  destruct (createInvestment d ins db) as [[db' i]|] eqn:Hc;
    [|right; split; [left | done]].
  left. split; [done|]. exists i. cbn [fst snd].
  pose proof (createInvestment_id _ _ _ _ _ Hc) as Hid.
  apply createInvestment_Some in Hc as [-> Hu].
  by rewrite Hu, (insertInvestmentSchema_userId _ _ _ Hp).
Qed.

Lemma post_goals_created (d : Draw) (body : Js.object) (userId : string) (db : Db) :
  created_for goals goal_userId goal_id (Some userId) d db
    (post_goals d body userId db).
Proof.
  unfold post_goals, created_for.
  destruct (Zod.insertGoalSchema _) as [ins|] eqn:Hp; cbn [mbind option_bind];
    [|right; split; [left | done]].
  destruct (createGoal d ins db) as [[db' g]|] eqn:Hc; cbn [mbind option_bind];
    [|right; split; [left | done]].
  left. split; [done|]. exists g. cbn [fst snd].
  pose proof (createGoal_id _ _ _ _ _ Hc) as Hid.
  apply createGoal_Some in Hc as [-> Hu].
  by rewrite Hu, (insertGoalSchema_userId _ _ _ Hp).
Qed.

(** Behind the middleware the caller is the user the bearer token
    validates to; without one no handler runs and the answer is 401. *)
Lemma authenticateToken_created {Row : Type} (table : Db → list Row)
    (owner id : Row → string) (cs : CredentialService) (bearer : option string)
    (d : Draw) (handler : string → Db → Db * Response) (db : Db) :
  (∀ userId, created_for table owner id (Some userId) d db (handler userId db)) →
  created_for table owner id (bearer ≫= validateToken cs) d db
    (authenticateToken cs bearer handler db).
Proof.
  intros Hh. unfold authenticateToken.
  destruct (bearer ≫= validateToken cs) as [userId|]; [apply Hh|].
  right. split; [right; left | done].
Qed.

(** C2. For each create request (transactions, investments, goals),
    behind the authentication middleware:
    - answered 200, the table of its kind has gained exactly one row,
      whose owner is the user identifier to which the bearer token
      validates (and whose identifier is the drawn one); answered
      otherwise (400, or 401 without a valid token), the database is
      unchanged;
    - an owner field in the request body has no effect at all: the handler
      gives the same result whatever value the body carries for it;
    - the request is answered 200 whenever the token validates to a
      registered user, the body with the caller's identifier parses and
      the drawn identifier is new. *)
Theorem C2_created_owner_is_caller (cs : CredentialService) (bearer : option string)
    (d : Draw) (body : Js.object) (db : Db) :
  let caller := bearer ≫= validateToken cs in
  (created_for transactions tx_userId tx_id caller d db
     (authenticateToken cs bearer (post_transactions d body) db)
   ∧ (∀ supplied : json,
        authenticateToken cs bearer
          (post_transactions d (<["userId" := supplied]> body)) db
        = authenticateToken cs bearer (post_transactions d body) db)
   ∧ (∀ userId, caller = Some userId →
        userId ∈ (user_id <$> users db) →
        is_Some (Zod.insertTransactionSchema (<["userId" := JStr userId]> body)) →
        draw_uuid d ∉ (tx_id <$> transactions db) →
        status (authenticateToken cs bearer (post_transactions d body) db).2 = 200))
  ∧ (created_for investments inv_userId inv_id caller d db
       (authenticateToken cs bearer (post_investments d body) db)
     ∧ (∀ supplied : json,
          authenticateToken cs bearer
            (post_investments d (<["userId" := supplied]> body)) db
          = authenticateToken cs bearer (post_investments d body) db)
     ∧ (∀ userId, caller = Some userId →
          userId ∈ (user_id <$> users db) →
          is_Some (Zod.insertInvestmentSchema (<["userId" := JStr userId]> body)) →
          draw_uuid d ∉ (inv_id <$> investments db) →
          status (authenticateToken cs bearer (post_investments d body) db).2 = 200))
  ∧ (created_for goals goal_userId goal_id caller d db
       (authenticateToken cs bearer (post_goals d body) db)
     ∧ (∀ supplied : json,
          authenticateToken cs bearer (post_goals d (<["userId" := supplied]> body)) db
          = authenticateToken cs bearer (post_goals d body) db)
     ∧ (∀ userId, caller = Some userId →
          userId ∈ (user_id <$> users db) →
          is_Some (Zod.insertGoalSchema (<["userId" := JStr userId]> body)) →
          draw_uuid d ∉ (goal_id <$> goals db) →
          status (authenticateToken cs bearer (post_goals d body) db).2 = 200)).
Proof.
  intros caller. split; [|split]; (split; [|split]).
  - apply authenticateToken_created. intros u. apply post_transactions_created.
  - intros v. unfold authenticateToken.
    destruct (bearer ≫= validateToken cs) as [userId|]; [|done].
    unfold post_transactions. by rewrite insert_insert_eq.
  - intros userId Hcaller Huser [ins Hp] Hfresh. unfold authenticateToken.
    fold caller. rewrite Hcaller. unfold post_transactions. rewrite Hp.
    cbn [mbind option_bind].
    destruct (createTransaction_accepts d ins db Hfresh) as [[db' t] ->]; [| |done].
    + by apply insertTransactionSchema_amount in Hp.
    + by rewrite (insertTransactionSchema_userId _ _ _ Hp).
  - apply authenticateToken_created. intros u. apply post_investments_created.
  - intros v. unfold authenticateToken.
    destruct (bearer ≫= validateToken cs) as [userId|]; [|done].
    unfold post_investments. by rewrite insert_insert_eq.
  - intros userId Hcaller Huser [ins Hp] Hfresh. unfold authenticateToken.
    fold caller. rewrite Hcaller. unfold post_investments. rewrite Hp.
    cbn [mbind option_bind].
    destruct (createInvestment_accepts d ins db Hfresh) as [[db' i] ->]; [| |done].
    + by apply insertInvestmentSchema_amounts in Hp.
    + by rewrite (insertInvestmentSchema_userId _ _ _ Hp).
  - apply authenticateToken_created. intros u. apply post_goals_created.
  - intros v. unfold authenticateToken.
    destruct (bearer ≫= validateToken cs) as [userId|]; [|done].
    unfold post_goals. by rewrite insert_insert_eq.
  - intros userId Hcaller Huser [ins Hp] Hfresh. unfold authenticateToken.
    fold caller. rewrite Hcaller. unfold post_goals. rewrite Hp.
    cbn [mbind option_bind].
    destruct (createGoal_accepts d ins db Hfresh) as [[db' g] ->]; [| |done].
    + by apply insertGoalSchema_amount in Hp.
    + by rewrite (insertGoalSchema_userId _ _ _ Hp).
Qed.

(** The theorem at work: Alice, a registered user authenticated by her
    token, posts a transaction, an investment and a goal whose bodies name
    Bob as the owner; each request stores one row, and it is hers. *)
Lemma C2_created_owner_is_caller_witness :
  (∃ t : Transaction,
     transactions
       (authenticateToken credentials_sample (Some "token:user-alice")
          (post_transactions (mkDraw "tx-1" "2024-05-01T10:00:00.000Z")
             (<["userId" := JStr bob]> coffee))
          db_two_users).1
     = [t]
     ∧ tx_userId t = alice)
  ∧ (∃ i : Investment,
       investments
         (authenticateToken credentials_sample (Some "token:user-alice")
            (post_investments (mkDraw "inv-1" "2024-05-01T10:00:00.000Z")
               (<["userId" := JStr bob]> acme_shares))
            db_two_users).1
       = [i]
       ∧ inv_userId i = alice)
  ∧ (∃ g : Goal,
       goals
         (authenticateToken credentials_sample (Some "token:user-alice")
            (post_goals (mkDraw "goal-1" "2024-05-01T10:00:00.000Z")
               (<["userId" := JStr bob]> holiday))
            db_two_users).1
       = [g]
       ∧ goal_userId g = alice).
Proof.
  split; [|split].
  - destruct (C2_created_owner_is_caller credentials_sample (Some "token:user-alice")
                (mkDraw "tx-1" "2024-05-01T10:00:00.000Z")
                (<["userId" := JStr bob]> coffee) db_two_users)
      as [[[(_ & t & Hnew & Hcaller & _)|[Hstatus _]] _] _].
    + exists t. split; [exact Hnew|].
      change (Some alice = Some (tx_userId t)) in Hcaller. by injection Hcaller.
    + vm_compute in Hstatus.
      repeat (apply elem_of_cons in Hstatus as [Hstatus|Hstatus]; [discriminate Hstatus|]).
      by apply elem_of_nil in Hstatus.
  - destruct (C2_created_owner_is_caller credentials_sample (Some "token:user-alice")
                (mkDraw "inv-1" "2024-05-01T10:00:00.000Z")
                (<["userId" := JStr bob]> acme_shares) db_two_users)
      as [_ [[[(_ & i & Hnew & Hcaller & _)|[Hstatus _]] _] _]].
    + exists i. split; [exact Hnew|].
      change (Some alice = Some (inv_userId i)) in Hcaller. by injection Hcaller.
    + vm_compute in Hstatus.
      repeat (apply elem_of_cons in Hstatus as [Hstatus|Hstatus]; [discriminate Hstatus|]).
      by apply elem_of_nil in Hstatus.
  - destruct (C2_created_owner_is_caller credentials_sample (Some "token:user-alice")
                (mkDraw "goal-1" "2024-05-01T10:00:00.000Z")
                (<["userId" := JStr bob]> holiday) db_two_users)
      as [_ [_ [[(_ & g & Hnew & Hcaller & _)|[Hstatus _]] _]]].
    + exists g. split; [exact Hnew|].
      change (Some alice = Some (goal_userId g)) in Hcaller. by injection Hcaller.
    + vm_compute in Hstatus.
      repeat (apply elem_of_cons in Hstatus as [Hstatus|Hstatus]; [discriminate Hstatus|]).
      by apply elem_of_nil in Hstatus.
Defined.

End CreateOwner.

(* ===================================================================== *)
(** * Read-by-owner *)
(* ===================================================================== *)

Section ReadByOwner.
Import Storage Routes.



End ReadByOwner.

(* ===================================================================== *)
(** * Registration *)
(* ===================================================================== *)

Section Registration.
Import Storage Routes.

Lemma with_users_users (db : Db) (t : list User) : users (with_users db t) = t.
Proof. done. Qed.

Lemma getUserByEmail_None (email : string) (db : Db) :
  email ∉ (user_email <$> users db) → getUserByEmail email db = None.
Proof.
  intros Hno. unfold getUserByEmail. rewrite select_none; [done|].
  intros u Hu He. apply Hno. apply list_elem_of_fmap. by exists u.
Qed.

Lemma getUserByEmail_Some (email : string) (db : Db) :
  email ∈ (user_email <$> users db) → is_Some (getUserByEmail email db).
Proof.
  intros (u & -> & Hu)%list_elem_of_fmap. unfold getUserByEmail, Query.select_where.
  assert (Hin : u ∈ filter (λ u0 : User, user_email u0 = user_email u) (users db))
    by (by apply list_elem_of_filter).
  destruct (filter _ (users db)) as [|u' l]; [by apply elem_of_nil in Hin|].
  by eexists.
Qed.

(** What [insertUserSchema] parses out of a body is what the body holds. *)
Lemma insertUserSchema_Some (req : Js.object) (userData : InsertUser) :
  Zod.insertUserSchema req = Some userData →
  req !! "email" = Some (JStr (iu_email userData))
  ∧ req !! "password" = Some (JStr (iu_password userData)).
Proof.
  unfold Zod.insertUserSchema, Zod.string_. intros Hp.
  destruct (req !! "email") as [[]|]; try done.
  destruct (req !! "password") as [[]|]; try done.
  destruct (req !! "firstName") as [[]|]; try done.
  destruct (req !! "lastName") as [[]|]; try done.
  by simplify_eq/=.
Qed.

(** C9. Registration with the email address of an existing user is
    answered 400 with a message and no token, and leaves the database
    unchanged.  Registration with a well-formed body whose email is not
    taken (and a freshly drawn identifier) appends exactly one user, whose
    stored password is the hash of the submitted password, and answers
    with the user and a token for the new identifier. *)
Theorem C9_register (cs : CredentialService) (d : Draw) (req : Js.object) (db : Db) :
  (∀ email : string,
     req !! "email" = Some (JStr email) →
     email ∈ (user_email <$> users db) →
     (register cs d req db).1 = db
     ∧ status (register cs d req db).2 = 400
     ∧ ∃ m : string, body (register cs d req db).2 = JObj {[ "message" := JStr m ]})
  ∧ (∀ userData : InsertUser,
       Zod.insertUserSchema req = Some userData →
       iu_email userData ∉ (user_email <$> users db) →
       draw_uuid d ∉ (user_id <$> users db) →
       let user :=
         mkUser (draw_uuid d) (iu_email userData)
           (hashPassword cs (iu_password userData))
           (iu_firstName userData) (iu_lastName userData) (draw_now d) in
       register cs d req db
       = (with_users db (users db ++ [user]),
          json_ (JObj {[ "user" := JObj (userWithoutPassword user);
                         "token" := JStr (generateToken cs (draw_uuid d)) ]}))).
Proof.
  split.
  - intros email Hreq Hin. unfold register.
    destruct (Zod.insertUserSchema req) as [userData|] eqn:Hp; [|by eauto].
    apply insertUserSchema_Some in Hp as [He _].
    rewrite Hreq in He. injection He as ->.
    destruct (getUserByEmail_Some _ _ Hin) as [u ->]. by eauto.
  - intros userData Hp Hemail Hid user. unfold register. rewrite Hp.
    rewrite getUserByEmail_None by done.
    unfold createUser, Query.insert. cbn.
    rewrite decide_False by done.
    unfold users_check. cbn. by rewrite bool_decide_eq_true_2.
Qed.

(** The theorem at work: Alice registers into the empty database, and a
    second registration with her email address is refused. *)
Lemma C9_register_witness :
  users db_registered
  = [ mkUser alice "alice@example.org" "digest:correct horse" "Alice" "Archer"
        "2024-04-01T08:00:00.000Z" ]
  ∧ (register credentials_sample (mkDraw bob "2024-04-02T08:00:00.000Z") signup
       db_registered).1
    = db_registered
  ∧ status
      (register credentials_sample (mkDraw bob "2024-04-02T08:00:00.000Z") signup
         db_registered).2
    = 400.
Proof.
  destruct (C9_register credentials_sample (mkDraw alice "2024-04-01T08:00:00.000Z")
              signup Storage.empty) as [_ Hfresh].
  destruct (C9_register credentials_sample (mkDraw bob "2024-04-02T08:00:00.000Z")
              signup db_registered) as [Hdup _].
  split.
  - unfold db_registered.
    rewrite (Hfresh (mkInsertUser "alice@example.org" "correct horse" "Alice" "Archer"));
      [reflexivity | reflexivity | apply not_elem_of_nil..].
  - destruct (Hdup "alice@example.org") as (Hdb & Hstatus & _).
    + reflexivity.
    + vm_compute. left.
    + by split.
Defined.

End Registration.

(* ===================================================================== *)
(** * The password digest and the responses *)
(* ===================================================================== *)

Section PasswordDigest.
Import Storage Routes.

Lemma userWithoutPassword_no_password (u : User) :
  userWithoutPassword u !! "password" = None.
Proof. apply lookup_delete_eq. Qed.

Lemma userWithoutPassword_forget (u : User) :
  userWithoutPassword (forget_password u) = userWithoutPassword u.
Proof.
  unfold userWithoutPassword, ToJson.user. cbn.
  rewrite !(delete_insert_ne _ "password" "id") by done.
  rewrite !(delete_insert_ne _ "password" "email") by done.
  by rewrite !delete_insert_eq.
Qed.

Lemma forget_password_eq (u1 u2 : User) :
  forget_password u1 = forget_password u2 →
  user_id u1 = user_id u2 ∧ userWithoutPassword u1 = userWithoutPassword u2.
Proof.
  intros Hf. split.
  - by injection Hf.
  - by rewrite <- (userWithoutPassword_forget u1), Hf, userWithoutPassword_forget.
Qed.

Lemma limit_1_head {Row : Type} (rows : list Row) : head (Query.limit 1 rows) = head rows.
Proof. by destruct rows. Qed.

Lemma select_first_forget (P : User → Prop) `{!∀ u, Decision (P u)} (l1 l2 : list User) :
  (∀ u, P (forget_password u) ↔ P u) →
  forget_password <$> l1 = forget_password <$> l2 →
  forget_password <$> head (Query.limit 1 (Query.select_where P l1))
  = forget_password <$> head (Query.limit 1 (Query.select_where P l2)).
Proof.
  intros HP. rewrite !limit_1_head. unfold Query.select_where.
  revert l2. induction l1 as [|a l1 IH]; intros [|b l2] Hf; try done.
  assert (Hhd : forget_password a = forget_password b).
  { apply (f_equal head) in Hf. by apply (inj Some) in Hf. }
  assert (Htl : forget_password <$> l1 = forget_password <$> l2).
  { by apply (f_equal tail) in Hf. }
  assert (Hab : P a ↔ P b) by (by rewrite <- (HP a), <- (HP b), Hhd).
  destruct (decide (P a)) as [Ha|Ha].
  - rewrite !filter_cons_True by tauto. cbn [head fmap option_fmap option_map].
    by rewrite Hhd.
  - rewrite !filter_cons_False by tauto. by apply IH.
Qed.

Lemma getUserByEmail_forget (email : string) (db1 db2 : Db) :
  same_but_passwords db1 db2 →
  forget_password <$> getUserByEmail email db1
  = forget_password <$> getUserByEmail email db2.
Proof. intros Hs. by apply select_first_forget. Qed.

Lemma getUser_forget (id : string) (db1 db2 : Db) :
  same_but_passwords db1 db2 →
  forget_password <$> getUser id db1 = forget_password <$> getUser id db2.
Proof. intros Hs. by apply select_first_forget. Qed.

Lemma same_but_passwords_columns (db1 db2 : Db) :
  same_but_passwords db1 db2 →
  user_id <$> users db1 = user_id <$> users db2
  ∧ user_email <$> users db1 = user_email <$> users db2.
Proof.
  unfold same_but_passwords. intros Hs. split.
  - change user_id with (user_id ∘ forget_password).
    by rewrite !(list_fmap_compose forget_password), Hs.
  - change user_email with (user_email ∘ forget_password).
    by rewrite !(list_fmap_compose forget_password), Hs.
Qed.

(** The response of a registration is the same whatever the hash function
    and whatever digests are stored. *)
Lemma register_response_independent (cs : CredentialService) (hash : string → string)
    (d : Draw) (req : Js.object) (db1 db2 : Db) :
  same_but_passwords db1 db2 →
  (register (with_hash cs hash) d req db1).2 = (register cs d req db2).2.
Proof.
  intros Hs. unfold register.
  destruct (Zod.insertUserSchema req) as [userData|]; [|done].
  pose proof (getUserByEmail_forget (iu_email userData) _ _ Hs) as Hg.
  destruct (getUserByEmail _ db1), (getUserByEmail _ db2); try done.
  destruct (same_but_passwords_columns _ _ Hs) as [Hid Hem].
  unfold createUser, Query.insert, users_check. cbn. rewrite Hid, Hem.
  case_decide; [done|]. case_bool_decide; [|done]. cbn.
  match goal with
  | |- context [userWithoutPassword ?u] =>
      rewrite <- (userWithoutPassword_forget u)
  end.
  by rewrite <- (userWithoutPassword_forget (mkUser _ _ (hashPassword cs _) _ _ _)).
Qed.

Lemma register_success_body (cs : CredentialService) (d : Draw) (req : Js.object)
    (db : Db) :
  status (register cs d req db).2 = 200 →
  user_without_password (register cs d req db).2.
Proof.
  unfold register.
  destruct (Zod.insertUserSchema req) as [userData|]; [|done].
  destruct (getUserByEmail _ db); [done|].
  destruct (createUser _ _ _) as [[db' user]|]; [|done]. intros _. cbn.
  eexists _, _. split; [done|]. split; [apply userWithoutPassword_no_password|].
  intros k v [<- <-]%lookup_singleton_Some. eauto.
Qed.

Lemma login_success_body (cs : CredentialService) (email_format : string → bool)
    (req : Js.object) (db : Db) :
  status (login cs email_format req db).2 = 200 →
  user_without_password (login cs email_format req db).2.
Proof.
  unfold login.
  destruct (Zod.loginSchema email_format req) as [[email password]|]; [|done].
  destruct (getUserByEmail email db) as [user|]; [|done].
  destruct (verifyPassword cs password (user_password user)); [|done]. intros _. cbn.
  eexists _, _. split; [done|]. split; [apply userWithoutPassword_no_password|].
  intros k v [<- <-]%lookup_singleton_Some. eauto.
Qed.

Lemma me_success_body (userId : string) (db : Db) :
  status (me userId db).2 = 200 → user_without_password (me userId db).2.
Proof.
  unfold me. destruct (getUser userId db) as [user|]; [|done]. intros _. cbn.
  exists (userWithoutPassword user), ∅. split; [done|].
  split; [apply userWithoutPassword_no_password|]. intros k v. by rewrite lookup_empty.
Qed.

(** Two successful logins against databases that differ only in digests
    are answered alike. *)
Lemma login_response_independent (cs : CredentialService) (email_format : string → bool)
    (req : Js.object) (db1 db2 : Db) :
  same_but_passwords db1 db2 →
  status (login cs email_format req db1).2 = 200 →
  status (login cs email_format req db2).2 = 200 →
  (login cs email_format req db1).2 = (login cs email_format req db2).2.
Proof.
  intros Hs. unfold login.
  destruct (Zod.loginSchema email_format req) as [[email password]|]; [|done].
  pose proof (getUserByEmail_forget email _ _ Hs) as Hg.
  destruct (getUserByEmail email db1) as [u1|], (getUserByEmail email db2) as [u2|];
    try done.
  apply (inj Some) in Hg. destruct (forget_password_eq u1 u2 Hg) as [Hid Hobj].
  destruct (verifyPassword cs password (user_password u1)); [|done].
  destruct (verifyPassword cs password (user_password u2)); [|done].
  intros _ _. cbn. by rewrite Hid, Hobj.
Qed.

Lemma me_response_independent (userId : string) (db1 db2 : Db) :
  same_but_passwords db1 db2 → (me userId db1).2 = (me userId db2).2.
Proof.
  intros Hs. unfold me. pose proof (getUser_forget userId _ _ Hs) as Hg.
  destruct (getUser userId db1) as [u1|], (getUser userId db2) as [u2|]; try done.
  apply (inj Some) in Hg. destruct (forget_password_eq u1 u2 Hg) as [_ Hobj].
  cbn. by rewrite Hobj.
Qed.

(** C10. The success responses of register, login and the current-user
    endpoint carry the user object without its "password" key (beside it,
    at most the token), and the stored digests do not flow into them: the
    register response is the same for every hash function and every
    stored digest, the current-user response is the same for databases
    that differ only in digests, and so are two successful login
    responses. *)
Theorem C10_no_digest_in_responses (cs : CredentialService) (d : Draw)
    (email_format : string → bool) (req : Js.object) (userId : string) (db : Db) :
  ((status (register cs d req db).2 = 200 →
    user_without_password (register cs d req db).2)
   ∧ ∀ (hash : string → string) (db' : Db),
       same_but_passwords db' db →
       (register (with_hash cs hash) d req db').2 = (register cs d req db).2)
  ∧ ((status (login cs email_format req db).2 = 200 →
      user_without_password (login cs email_format req db).2)
     ∧ ∀ db' : Db,
         same_but_passwords db db' →
         status (login cs email_format req db).2 = 200 →
         status (login cs email_format req db').2 = 200 →
         (login cs email_format req db).2 = (login cs email_format req db').2)
  ∧ ((status (me userId db).2 = 200 → user_without_password (me userId db).2)
     ∧ ∀ db' : Db, same_but_passwords db db' → (me userId db).2 = (me userId db').2).
Proof.
  repeat split.
  - apply register_success_body.
  - intros hash db'. apply register_response_independent.
  - apply login_success_body.
  - intros db'. apply login_response_independent.
  - apply me_success_body.
  - intros db'. apply me_response_independent.
Qed.

End PasswordDigest.

(* ===================================================================== *)
(** * CSV upload: the amount and the kind of a row *)
(* ===================================================================== *)

Section UploadRow.
Import Storage Routes Upload.


End UploadRow.

(* ===================================================================== *)
(** * CSV upload: what is stored and what is reported *)
(* ===================================================================== *)

Section UploadRun.
Import Storage Routes Upload.
Variable parseFloat : string → Js.number.
Variable userId : string.
Variable processResult : Js.object.

Local Abbreviation runs := (run parseFloat userId processResult).
Local Abbreviation for_user := (λ p : Pending, it_userId (pending_insert p) = userId).

Lemma step_invariant (st : State) (e : Event) :
  Forall for_user (pending st) →
  let st' := step parseFloat userId processResult st e in
  Forall for_user (pending st')
  ∧ ∃ new : list Transaction,
      saved st' = saved st ++ new
      ∧ transactions (db st') = transactions (db st) ++ new
      ∧ Forall (λ t, tx_userId t = userId) new.
Proof.
  intros Hp. destruct e as [row| |]; cbn.
  - split; [|exists []; by rewrite !app_nil_r].
    apply Forall_app. split; [done|]. by apply Forall_singleton.
  - destruct (pending st) as [|p rest] eqn:Hpend.
    { rewrite Hpend. split; [done|]. exists []. by rewrite !app_nil_r. }
    apply Forall_cons in Hp as [Hp Hrest].
    destruct (createTransaction _ _ _) as [[db' t]|] eqn:Hc; cbn.
    + split; [done|]. exists [t]. apply createTransaction_Some in Hc as [-> Hu].
      split; [done|]. split; [done|]. apply Forall_singleton. by rewrite Hu.
    + split; [done|]. exists []. by rewrite !app_nil_r.
  - destruct (response st); cbn; (split; [done|]); exists []; by rewrite !app_nil_r.
Qed.

(** Whatever the order of events: the handler's array grows by exactly the
    rows that enter the table, and they belong to the uploading user. *)
Lemma run_invariant (events : list Event) (st : State) :
  Forall for_user (pending st) →
  ∃ new : list Transaction,
    saved (runs events st) = saved st ++ new
    ∧ transactions (db (runs events st)) = transactions (db st) ++ new
    ∧ Forall (λ t, tx_userId t = userId) new.
Proof.
  unfold run. revert st.
  induction events as [|e events IH]; intros st Hp; cbn.
  { exists []. by rewrite !app_nil_r. }
  destruct (step_invariant st e Hp) as (Hp' & new1 & Hs1 & Ht1 & Hu1).
  destruct (IH _ Hp') as (new2 & Hs2 & Ht2 & Hu2).
  exists (new1 ++ new2). rewrite Hs2, Ht2, Hs1, Ht1, <- !app_assoc.
  split; [done|]. split; [done|]. by apply Forall_app.
Qed.

(** When every listener has finished before the next event, nothing is
    suspended when 'end' is handled. *)
Lemma run_settled_rows (rows : list CsvRow) (st : State) :
  pending st = [] →
  pending (runs (rows ≫= λ r, [Data r; Resume]) st) = []
  ∧ response (runs (rows ≫= λ r, [Data r; Resume]) st) = response st.
Proof.
  unfold run. revert st.
  induction rows as [|r rows IH]; intros st Hp; [done|].
  cbn [mbind list_bind foldl app].
  set (st2 := step _ _ _ (step _ _ _ st (Data r)) Resume).
  assert (Hst2 : pending st2 = [] ∧ response st2 = response st).
  { unfold st2. cbn [step pending db saved response]. rewrite Hp. cbn [app].
    by destruct (createTransaction _ _ _) as [[db' t]|]. }
  destruct Hst2 as [Hp2 Hr2]. destruct (IH st2 Hp2) as [Hp3 Hr3].
  by rewrite Hp3, Hr3.
Qed.

(** X16. When every listener has finished before the next event is
    emitted, the response is sent, and its count is the number of rows
    that entered the table, all of them for the uploading user. *)
Lemma upload_settled (rows : list CsvRow) (db0 : Db) :
  let st := runs (settled_schedule rows) (mkState db0 [] [] None) in
  ∃ new : list Transaction,
    transactions (db st) = transactions db0 ++ new
    ∧ Forall (λ t, tx_userId t = userId) new
    ∧ response st = Some (end_response processResult new).
Proof.
  intros st. unfold st, settled_schedule.
  pose proof (run_invariant (rows ≫= λ r, [Data r; Resume]) (mkState db0 [] [] None))
    as Hinv.
  pose proof (run_settled_rows rows (mkState db0 [] [] None) eq_refl) as [_ Hr].
  destruct Hinv as (new & Hs & Ht & Hu); [done|].
  unfold run in *. rewrite foldl_app.
  set (st1 := foldl _ _ (rows ≫= _)) in *.
  cbn [foldl step]. rewrite Hr. cbn in *. exists new. by rewrite Hs.
Qed.

Lemma runs_app (events1 events2 : list Event) (st : State) :
  runs (events1 ++ events2) st = runs events2 (runs events1 st).
Proof. apply foldl_app. Qed.

(** Emitting 'data' only suspends listeners: the array and the response
    are untouched. *)
Lemma run_data_only (rows : list CsvRow) (st : State) :
  saved (runs (Data <$> rows) st) = saved st
  ∧ db (runs (Data <$> rows) st) = db st
  ∧ response (runs (Data <$> rows) st) = response st.
Proof.
  unfold run. revert st. induction rows as [|r rows IH]; intros st; [done|].
  cbn [fmap list_fmap foldl]. destruct (IH (step parseFloat userId processResult st (Data r)))
    as (-> & -> & ->). done.
Qed.

Lemma run_resume_only (n : nat) (st : State) :
  response (runs (replicate n Resume) st) = response st.
Proof.
  unfold run. revert st. induction n as [|n IH]; intros st; [done|].
  cbn [replicate foldl]. rewrite IH. cbn [step].
  destruct (pending st) as [|p rest]; [done|].
  by destruct (createTransaction _ _ _) as [[db' t]|].
Qed.

(** X17. When the parser emits all its events before any listener is
    resumed, the response reports no saved transaction, whatever the file
    holds. *)
Lemma upload_eager_reports_zero (rows : list CsvRow) (db0 : Db) :
  response (runs (eager_schedule rows) (mkState db0 [] [] None))
  = Some (end_response processResult []).
Proof.
  unfold eager_schedule. rewrite !runs_app, run_resume_only.
  destruct (run_data_only rows (mkState db0 [] [] None)) as (Hs & _ & Hr).
  set (st1 := runs (Data <$> rows) _) in *.
  unfold run. cbn [foldl step]. rewrite Hr. cbn in *. by rewrite Hs.
Qed.

End UploadRun.

Section UploadSample.
Import Storage Routes Upload.

(** Alice is registered and uploads the sample file.  When every listener
    finishes before the next event, the row that does not parse is skipped
    and the response counts the two stored rows. *)
Example upload_sample_settled :
  let r := upload parseFloat_sample alice (Some sample_rows) (Result ∅)
             settled_schedule db_registered in
  user_id <$> users db_registered = [alice]
  ∧ (body <$> r.2) = Some (JObj {[ "transactions_saved" := JNum 2%float ]})
  ∧ status <$> r.2 = Some 200
  ∧ stored_summary r.1
    = [("Coffee shop", 3.5%float, "expense", "2024-05-01");
       ("Uber ride", 12%float, "expense", "2024-05-03")].
Proof. repeat split; vm_compute; reflexivity. Qed.

(** C7. The response's count is read when the parser emits 'end', while
    the rows are stored by listeners that are suspended at
    [await storage.createTransaction(..)] and that nothing waits for.
    Alice is a registered user with no transactions and uploads the sample
    file.  When 'end' is emitted before the job queue resumes a listener,
    the response says [transactions_saved: 0] and the table then gains two
    rows of hers: the count is not the number of rows stored. *)
Theorem C7_count_read_before_rows_are_stored :
  let r := upload parseFloat_sample alice (Some sample_rows) (Result ∅)
             eager_schedule db_registered in
  user_id <$> users db_registered = [alice]
  ∧ transactions db_registered = []
  ∧ (body <$> r.2) = Some (JObj {[ "transactions_saved" := JNum 0%float ]})
  ∧ status <$> r.2 = Some 200
  ∧ (λ t, (tx_userId t, tx_description t, tx_amount t)) <$> transactions r.1
    = [(alice, "Coffee shop", 3.5%float); (alice, "Uber ride", 12%float)]
  ∧ stored_summary r.1
    = [("Coffee shop", 3.5%float, "expense", "2024-05-01");
       ("Uber ride", 12%float, "expense", "2024-05-03")].
Proof. repeat split; vm_compute; reflexivity. Qed.

End UploadSample.

(* ===================================================================== *)
(** * Storage: round trips, key constraints, update and delete *)
(* ===================================================================== *)

Section StorageLaws.
Import Storage Routes.

(** Reading by primary key right after an insert finds the inserted row,
    provided the rest of the WHERE clause accepts it. *)
Lemma insert_then_select {Row : Type} (pk : Row → string) (check : Row → bool)
    (Q : Row → Prop) `{!∀ x, Decision (Q x)} (r : Row) (t t' : list Row) :
  Query.insert pk check r t = Some t' →
  head (Query.limit 1 (Query.select_where (λ x, pk x = pk r ∧ Q x) t'))
  = if decide (Q r) then Some r else None.
Proof.
  intros (-> & Hfresh & _)%insert_Some. rewrite limit_1_head.
  unfold Query.select_where. rewrite filter_app.
  assert (Hold : filter (λ x, pk x = pk r ∧ Q x) t = []).
  { apply (select_none (λ x, pk x = pk r ∧ Q x)). intros x Hx [Hpk _].
    apply Hfresh. rewrite <- Hpk. apply list_elem_of_fmap. by exists x. }
  rewrite Hold. cbn [app]. destruct (decide (Q r)) as [HQ|HQ].
  - by rewrite filter_cons_True.
  - rewrite filter_cons_False; [done | by intros [_ ?]].
Qed.

(** X1. Create, then read: the row a create call stores is what read-one
    returns for its identifier and its owner, and read-one returns nothing
    for that identifier to any other user; a created user is found by
    identifier and by email address. *)
Theorem created_row_is_read_back (d : Draw) (db db' : Db) :
  (∀ (ins : InsertTransaction) (t : Transaction),
     createTransaction d ins db = Some (db', t) →
     ∀ userId, getTransaction (tx_id t) userId db'
               = if decide (tx_userId t = userId) then Some t else None)
  ∧ (∀ (ins : InsertInvestment) (i : Investment),
       createInvestment d ins db = Some (db', i) →
       ∀ userId, getInvestment (inv_id i) userId db'
                 = if decide (inv_userId i = userId) then Some i else None)
  ∧ (∀ (ins : InsertGoal) (g : Goal),
       createGoal d ins db = Some (db', g) →
       ∀ userId, getGoal (goal_id g) userId db'
                 = if decide (goal_userId g = userId) then Some g else None)
  ∧ (∀ (ins : InsertUser) (u : User),
       createUser d ins db = Some (db', u) →
       getUser (user_id u) db' = Some u ∧ getUserByEmail (user_email u) db' = Some u).
Proof.
  split; [|split; [|split]].
  - intros ins t Hc userId. unfold createTransaction in Hc.
    destruct (Query.insert _ _ _ _) as [rows|] eqn:Hins; simplify_eq/=.
    unfold getTransaction. cbn [transactions with_transactions].
    by rewrite (insert_then_select tx_id _ (λ x, tx_userId x = userId) _ _ _ Hins).
  - intros ins i Hc userId. unfold createInvestment in Hc.
    destruct (Query.insert _ _ _ _) as [rows|] eqn:Hins; simplify_eq/=.
    unfold getInvestment. cbn [investments with_investments].
    by rewrite (insert_then_select inv_id _ (λ x, inv_userId x = userId) _ _ _ Hins).
  - intros ins g Hc userId. unfold createGoal in Hc.
    destruct (Query.insert _ _ _ _) as [rows|] eqn:Hins; simplify_eq/=.
    unfold getGoal. cbn [goals with_goals].
    by rewrite (insert_then_select goal_id _ (λ x, goal_userId x = userId) _ _ _ Hins).
  - intros ins u Hc. unfold createUser in Hc.
    destruct (Query.insert _ _ _ _) as [rows|] eqn:Hins; simplify_eq/=.
    apply insert_Some in Hins as (-> & Hid & Hemail).
    apply bool_decide_eq_true in Hemail. cbn in Hid, Hemail.
    unfold getUser, getUserByEmail. cbn [users with_users].
    assert (Hbyid : filter (λ u, user_id u = draw_uuid d) (users db) = []).
    { apply (select_none (λ u, user_id u = draw_uuid d)). intros x Hx Hpk.
      apply Hid. rewrite <- Hpk. apply list_elem_of_fmap. by exists x. }
    assert (Hbyemail : filter (λ u, user_email u = iu_email ins) (users db) = []).
    { apply (select_none (λ u, user_email u = iu_email ins)). intros x Hx Hpk.
      apply Hemail. rewrite <- Hpk. apply list_elem_of_fmap. by exists x. }
    rewrite !limit_1_head. unfold Query.select_where. rewrite !filter_app.
    rewrite Hbyid, Hbyemail. by rewrite !filter_cons_True.
Qed.

(** Alice's created transaction is read back by her and hidden from
    Bob. *)
Lemma created_row_is_read_back_witness :
  (tx_description <$> getTransaction "tx-1" alice db_created) = Some "coffee"
  ∧ getTransaction "tx-1" bob db_created = None.
Proof.
  destruct (created_row_is_read_back (mkDraw "tx-1" "2024-05-01T10:00:00.000Z")
              db_two_users db_created) as [Htx _].
  specialize (Htx (mkInsertTransaction alice "coffee" 3.5%float "Food & Dining"
                     "expense" "2024-05-01")
                  (mkTransaction "tx-1" alice "coffee" 3.5%float "Food & Dining"
                     "expense" "2024-05-01" "2024-05-01T10:00:00.000Z")
                  ltac:(vm_compute; reflexivity)).
  split.
  - pose proof (Htx alice) as Ha.
    change (getTransaction "tx-1" alice db_created = Some
              (mkTransaction "tx-1" alice "coffee" 3.5%float "Food & Dining"
                 "expense" "2024-05-01" "2024-05-01T10:00:00.000Z")) in Ha.
    rewrite Ha. reflexivity.
  - exact (Htx bob).
Defined.

Lemma insert_keeps_NoDup {Row : Type} (pk : Row → string) (check : Row → bool)
    (r : Row) (t t' : list Row) :
  NoDup (pk <$> t) → Query.insert pk check r t = Some t' → NoDup (pk <$> t').
Proof.
  intros Hnd (-> & Hfresh & _)%insert_Some. rewrite fmap_app. apply NoDup_app.
  split; [done|]. split; [|apply NoDup_singleton].
  intros x Hx ->%list_elem_of_singleton. done.
Qed.

Lemma set_where_keys {Row : Type} (pk : Row → string) (P : Row → Prop)
    `{!∀ r, Decision (P r)} (set : Row → Row) (t : list Row) :
  (∀ r, pk (set r) = pk r) → pk <$> Query.set_where P set t = pk <$> t.
Proof.
  intros Hpk. unfold Query.set_where. rewrite <- list_fmap_compose.
  apply list_fmap_ext. intros _ r _. cbn. by case_decide.
Qed.

Lemma delete_keeps_NoDup {Row : Type} (pk : Row → string) (P : Row → Prop)
    `{!∀ r, Decision (P r)} (t : list Row) :
  NoDup (pk <$> t) → NoDup (pk <$> (Query.delete_where P t).1).
Proof.
  intros Hnd. eapply sublist_NoDup; [done|]. apply fmap_sublist, sublist_filter.
Qed.

Lemma after_keeps_keys (call : StorageCall) (db : Db) :
  keys_unique db → keys_unique (after call db).
Proof.
  intros Hk. pose proof Hk as (Hu & He & Ht & Hi & Hg & Hs). destruct call; cbn [after].
  - unfold createUser.
    destruct (Query.insert _ _ _ _) as [rows|] eqn:Hins; cbn; [|done].
    split; [by eapply insert_keeps_NoDup|]. split; [|done].
    apply insert_Some in Hins as (-> & _ & Hemail).
    apply bool_decide_eq_true in Hemail. cbn in Hemail.
    cbn [users with_users]. rewrite fmap_app. apply NoDup_app. split; [done|].
    split; [|apply NoDup_singleton]. by intros x Hx ->%list_elem_of_singleton.
  - unfold createTransaction.
    destruct (Query.insert _ _ _ _) as [rows|] eqn:Hins; cbn; [|done].
    repeat (split; [done|]). split; [by eapply insert_keeps_NoDup|done].
  - unfold updateTransaction. destruct (no_transaction_values _); [done|].
    destruct (Query.update_where _ _ _ _) as [rows|] eqn:Hupd; [|exact Hk].
    apply update_where_Some in Hupd as ->. cbn [mbind option_bind].
    match goal with
    | |- keys_unique (default _ (fst <$> Some (?db', _))) => change (keys_unique db')
    end.
    unfold keys_unique.
    cbn [users transactions investments goals savingsTips with_transactions].
    by rewrite set_where_keys.
  - repeat (split; [done|]). split; [|done]. by apply delete_keeps_NoDup.
  - unfold createInvestment.
    destruct (Query.insert _ _ _ _) as [rows|] eqn:Hins; cbn; [|done].
    repeat (split; [done|]). split; [by eapply insert_keeps_NoDup|done].
  - unfold updateInvestment. destruct (no_investment_values _); [done|].
    destruct (Query.update_where _ _ _ _) as [rows|] eqn:Hupd; [|exact Hk].
    apply update_where_Some in Hupd as ->. cbn [mbind option_bind].
    match goal with
    | |- keys_unique (default _ (fst <$> Some (?db', _))) => change (keys_unique db')
    end.
    unfold keys_unique.
    cbn [users transactions investments goals savingsTips with_investments].
    by rewrite set_where_keys.
  - repeat (split; [done|]). split; [|done]. by apply delete_keeps_NoDup.
  - unfold createGoal.
    destruct (Query.insert _ _ _ _) as [rows|] eqn:Hins; cbn; [|done].
    repeat (split; [done|]). split; [by eapply insert_keeps_NoDup|done].
  - unfold updateGoal. destruct (no_goal_values _); [done|].
    destruct (Query.update_where _ _ _ _) as [rows|] eqn:Hupd; [|exact Hk].
    apply update_where_Some in Hupd as ->. cbn [mbind option_bind].
    match goal with
    | |- keys_unique (default _ (fst <$> Some (?db', _))) => change (keys_unique db')
    end.
    unfold keys_unique.
    cbn [users transactions investments goals savingsTips with_goals].
    by rewrite set_where_keys.
  - repeat (split; [done|]). split; [|done]. by apply delete_keeps_NoDup.
  - unfold createSavingsTip.
    destruct (Query.insert _ _ _ _) as [rows|] eqn:Hins; cbn; [|done].
    repeat (split; [done|]). by eapply insert_keeps_NoDup.
Qed.

(** X2. Whatever sequence of storage calls is made on the empty database,
    with whatever identifiers are drawn: identifiers stay unique in every
    table and no two users share an email address. *)
Theorem keys_stay_unique (calls : list StorageCall) :
  keys_unique (foldl (λ db call, after call db) Storage.empty calls).
Proof.
  assert (Hgen : ∀ db, keys_unique db →
                   keys_unique (foldl (λ db call, after call db) db calls)).
  { induction calls as [|call calls IH]; intros db Hk; [done|].
    cbn. apply IH. by apply after_keeps_keys. }
  apply Hgen. repeat split; apply NoDup_nil_2.
Qed.

(** ** Delete *)

Lemma select_after_delete {Row : Type} (P : Row → Prop) `{!∀ r, Decision (P r)}
    (t : list Row) :
  Query.select_where P (Query.delete_where P t).1 = [].
Proof.
  apply (select_none P). intros r Hr. cbn in Hr.
  by apply list_elem_of_filter in Hr as [? _].
Qed.

(** X3. Delete reports success exactly when read-one finds the row; after it
    read-one finds nothing, every other row is still there, and a second
    delete reports failure and changes nothing; the handler answers 200 or
    404 accordingly. *)
Theorem delete_removes_exactly_the_row (id userId : string) (db : Db) :
  let db' := (deleteTransaction id userId db).1 in
  (deleteTransaction id userId db).2
    = bool_decide (is_Some (getTransaction id userId db))
  ∧ getTransaction id userId db' = None
  ∧ (∀ t, t ∈ transactions db'
          ↔ t ∈ transactions db ∧ ¬ (tx_id t = id ∧ tx_userId t = userId))
  ∧ deleteTransaction id userId db' = (db', false)
  ∧ status (delete_transactions id userId db).2
    = (if bool_decide (is_Some (getTransaction id userId db)) then 200 else 404).
Proof.
  intros db'.
  assert (Hflag : (deleteTransaction id userId db).2
                  = bool_decide (is_Some (getTransaction id userId db))).
  { unfold deleteTransaction, getTransaction, Query.delete_where.
    rewrite limit_1_head. unfold Query.select_where. cbn [snd].
    destruct (filter (λ t, tx_id t = id ∧ tx_userId t = userId) (transactions db))
      as [|t l]; cbn [length head].
    - rewrite bool_decide_eq_false_2; [done | lia].
    - rewrite bool_decide_eq_true_2 by lia.
      symmetry. apply bool_decide_eq_true_2. by eexists. }
  assert (Hmem : ∀ t, t ∈ transactions db'
                      ↔ t ∈ transactions db ∧ ¬ (tx_id t = id ∧ tx_userId t = userId)).
  { intros t. unfold db'. cbn. rewrite list_elem_of_filter. tauto. }
  split; [done|]. split; [|split; [done|split]].
  - unfold db', getTransaction. cbn [transactions deleteTransaction fst with_transactions].
    by rewrite (select_after_delete (λ t, tx_id t = id ∧ tx_userId t = userId)).
  - apply deleteTransaction_not_owned. intros t [_ Hno]%Hmem Hid Hu. by apply Hno.
  - unfold delete_transactions.
    destruct (deleteTransaction id userId db) as [db1 flag] eqn:Hd. cbn in Hflag.
    rewrite <- Hflag. by destruct flag.
Qed.

(** ** Update *)

Lemma head_filter_fmap_commute {Row : Type} (P : Row → Prop) `{!∀ r, Decision (P r)}
    (f : Row → Row) (l : list Row) :
  (∀ r, P (f r) ↔ P r) → head (filter P (f <$> l)) = f <$> head (filter P l).
Proof.
  intros HP. induction l as [|r l IH]; [done|]. cbn [fmap list_fmap].
  destruct (decide (P r)) as [Hr|Hr].
  - rewrite !filter_cons_True by (done || by apply HP). done.
  - rewrite !filter_cons_False by (done || by rewrite HP). apply IH.
Qed.

(** X4. An update of one's own row that leaves the owner alone returns the
    row with the fields of the update applied, keeps its identifier and
    creation time, and keeps the number of rows.  This is so whenever the
    table accepts the values (a new amount is a number, a restated owner
    is a user); when it does not, the update throws. *)
Theorem update_returns_the_updated_row (id userId : string) (updates : TransactionUpdates)
    (db : Db) (t : Transaction) :
  getTransaction id userId db = Some t →
  no_transaction_values updates = false →
  ut_userId updates = None ∨ ut_userId updates = Some userId →
  if transaction_values_ok db updates
  then
    ∃ db',
      updateTransaction id userId updates db
      = Some (db', Some (set_transaction updates t))
      ∧ length (transactions db') = length (transactions db)
      ∧ tx_id (set_transaction updates t) = id
      ∧ tx_userId (set_transaction updates t) = userId
      ∧ tx_createdAt (set_transaction updates t) = tx_createdAt t
  else updateTransaction id userId updates db = None.
Proof.
  intros Hget Hvalues Howner. unfold updateTransaction. rewrite Hvalues.
  pose proof (getTransaction_owner _ _ _ _ Hget) as (Hid & Hu & Hin).
  destruct (transaction_values_ok db updates).
  2:{ by rewrite (update_where_refused _ _ _ t). }
  rewrite update_where_valid. cbn [mbind option_bind].
  eexists. split; [|split; [|split; [|split]]].
  - f_equal. f_equal. unfold getTransaction in *. rewrite limit_1_head in *.
    cbn [transactions with_transactions]. unfold Query.select_where, Query.set_where in *.
    rewrite head_filter_fmap_commute.
    + rewrite Hget. cbn. by rewrite decide_True.
    + intros r. case_decide as Hr; [|done]. destruct Hr as [Hid' Hu']. cbn.
      destruct Howner as [-> | ->]; cbn; tauto.
  - cbn. unfold Query.set_where. by rewrite length_fmap.
  - done.
  - cbn. by destruct Howner as [-> | ->].
  - done.
Qed.

(** Alice lowers the amount of her transaction. *)
Lemma update_returns_the_updated_row_witness :
  ∃ db',
    updateTransaction "tx-1" alice cheaper db_created
    = Some (db', Some (mkTransaction "tx-1" alice "coffee" 3%float "Food & Dining"
                         "expense" "2024-05-01" "2024-05-01T10:00:00.000Z")).
Proof.
  pose proof (update_returns_the_updated_row "tx-1" alice cheaper db_created
                (mkTransaction "tx-1" alice "coffee" 3.5%float "Food & Dining"
                   "expense" "2024-05-01" "2024-05-01T10:00:00.000Z")
                eq_refl eq_refl (or_introl eq_refl)) as Hupd.
  assert (Hok : transaction_values_ok db_created cheaper = true)
    by (vm_compute; reflexivity).
  rewrite Hok in Hupd. destruct Hupd as (db' & Hupd & _).
  exists db'. exact Hupd.
Defined.

Lemma set_transaction_idemp (updates : TransactionUpdates) (t : Transaction) :
  set_transaction updates (set_transaction updates t) = set_transaction updates t.
Proof.
  destruct updates as [[u|] [de|] [a|] [c|] [ty|] [da|]]; reflexivity.
Qed.

Lemma set_where_idemp {Row : Type} (P : Row → Prop) `{!∀ r, Decision (P r)}
    (set : Row → Row) (t : list Row) :
  (∀ r, set (set r) = set r) →
  Query.set_where P set (Query.set_where P set t) = Query.set_where P set t.
Proof.
  intros Hset. unfold Query.set_where. rewrite <- list_fmap_compose.
  apply list_fmap_ext. intros _ r _. cbn.
  destruct (decide (P r)) as [Hr|Hr].
  - case_decide; [apply Hset | done].
  - by rewrite decide_False.
Qed.

(** X5. Sending the same update again changes nothing more and returns the
    same result, whether or not the first one matched a row and whatever
    it did to the owner. *)
Theorem update_twice_is_update_once (id userId : string) (updates : TransactionUpdates)
    (db db1 : Db) (result : option Transaction) :
  updateTransaction id userId updates db = Some (db1, result) →
  updateTransaction id userId updates db1 = Some (db1, result).
Proof.
  unfold updateTransaction. destruct (no_transaction_values updates); [done|].
  destruct (Query.update_where _ _ _ (transactions db)) as [rows|] eqn:Hupd; [|done].
  cbn [mbind option_bind]. intros [= <- <-].
  assert (Hagain : Query.update_where (λ t, tx_id t = id ∧ tx_userId t = userId)
                     (set_transaction updates) (transaction_values_ok db updates) rows
                   = Some rows).
  { unfold Query.update_where in Hupd.
    destruct (transaction_values_ok db updates); cbn [orb] in Hupd.
    - injection Hupd as <-. rewrite update_where_valid.
      by rewrite (set_where_idemp _ _ _ (set_transaction_idemp updates)).
    - case_bool_decide as Hnone; [|done]. injection Hupd as <-.
      rewrite Forall_forall in Hnone. rewrite (set_where_no_match _ _ _ Hnone).
      by apply update_where_no_match. }
  change (transaction_values_ok (with_transactions db rows) updates)
    with (transaction_values_ok db updates).
  cbn [transactions with_transactions]. rewrite Hagain. cbn [mbind option_bind].
  by destruct db.
Qed.

Lemma update_twice_is_update_once_witness :
  ∃ db1 result,
    updateTransaction "tx-1" alice cheaper db_created = Some (db1, result)
    ∧ updateTransaction "tx-1" alice cheaper db1 = Some (db1, result).
Proof.
  destruct (updateTransaction "tx-1" alice cheaper db_created) as [[db1 result]|] eqn:Hu.
  - exists db1, result. split; [reflexivity|].
    exact (update_twice_is_update_once "tx-1" alice cheaper db_created db1 result Hu).
  - vm_compute in Hu. discriminate Hu.
Defined.

(** ** Identifiers that are missing or belong to someone else *)

Lemma updateInvestment_not_owned (id userId : string) (updates : InvestmentUpdates) (db : Db) :
  investment_not_owned id userId db →
  updateInvestment id userId updates db
  = if no_investment_values updates then None else Some (db, None).
Proof.
  intros Hno0.
  assert (Hno : ∀ r, r ∈ investments db → ¬ (inv_id r = id ∧ inv_userId r = userId))
    by (intros r Hr [Hid Hu]; by apply (Hno0 r)).
  unfold updateInvestment. destruct (no_investment_values updates); [done|].
  rewrite (update_where_no_match _ (set_investment updates) _ _ Hno).
  cbn [mbind option_bind].
  unfold getInvestment. rewrite (select_none _ _ Hno). by destruct db.
Qed.

Lemma deleteInvestment_not_owned (id userId : string) (db : Db) :
  investment_not_owned id userId db → deleteInvestment id userId db = (db, false).
Proof.
  intros Hno0.
  assert (Hno : ∀ r, r ∈ investments db → ¬ (inv_id r = id ∧ inv_userId r = userId))
    by (intros r Hr [Hid Hu]; by apply (Hno0 r)).
  unfold deleteInvestment. rewrite (delete_where_no_match _ _ Hno). by destruct db.
Qed.

Lemma updateGoal_not_owned (id userId : string) (updates : GoalUpdates) (db : Db) :
  goal_not_owned id userId db →
  updateGoal id userId updates db
  = if no_goal_values updates then None else Some (db, None).
Proof.
  intros Hno0.
  assert (Hno : ∀ r, r ∈ goals db → ¬ (goal_id r = id ∧ goal_userId r = userId))
    by (intros r Hr [Hid Hu]; by apply (Hno0 r)).
  unfold updateGoal. destruct (no_goal_values updates); [done|].
  rewrite (update_where_no_match _ (set_goal updates) _ _ Hno).
  cbn [mbind option_bind].
  unfold getGoal. rewrite (select_none _ _ Hno). by destruct db.
Qed.

Lemma deleteGoal_not_owned (id userId : string) (db : Db) :
  goal_not_owned id userId db → deleteGoal id userId db = (db, false).
Proof.
  intros Hno0.
  assert (Hno : ∀ r, r ∈ goals db → ¬ (goal_id r = id ∧ goal_userId r = userId))
    by (intros r Hr [Hid Hu]; by apply (Hno0 r)).
  unfold deleteGoal. rewrite (delete_where_no_match _ _ Hno). by destruct db.
Qed.

(** X6. For transactions, investments and goals alike: when the identifier
    names no row of the caller (it does not exist, or the row is someone
    else's), PUT leaves the database unchanged and answers 404 (400 when
    the body does not parse or sets no field), and DELETE leaves it
    unchanged and answers 404.  Neither tells a missing row from a foreign
    one. *)
Theorem missing_or_foreign_id_is_not_found (id userId : string) (body : Js.object)
    (db : Db) :
  (not_owned id userId db →
   put_transactions id body userId db
   = (db, match Zod.insertTransactionSchema_partial body with
          | Some updates =>
              if no_transaction_values updates
              then message 400 "Invalid update data"
              else message 404 "Transaction not found"
          | None => message 400 "Invalid update data"
          end)
   ∧ delete_transactions id userId db = (db, message 404 "Transaction not found"))
  ∧ (investment_not_owned id userId db →
     put_investments id body userId db
     = (db, match Zod.insertInvestmentSchema_partial body with
            | Some updates =>
                if no_investment_values updates
                then message 400 "Invalid update data"
                else message 404 "Investment not found"
            | None => message 400 "Invalid update data"
            end)
     ∧ delete_investments id userId db = (db, message 404 "Investment not found"))
  ∧ (goal_not_owned id userId db →
     put_goals id body userId db
     = (db, match Zod.insertGoalSchema_partial body with
            | Some updates =>
                if no_goal_values updates
                then message 400 "Invalid update data"
                else message 404 "Goal not found"
            | None => message 400 "Invalid update data"
            end)
     ∧ delete_goals id userId db = (db, message 404 "Goal not found")).
Proof.
  split; [|split].
  - intros Hno. split; [by apply put_transactions_not_owned|].
    by apply delete_transactions_not_owned.
  - intros Hno. split.
    + unfold put_investments.
      destruct (Zod.insertInvestmentSchema_partial body) as [updates|]; [|done].
      rewrite updateInvestment_not_owned by done.
      by destruct (no_investment_values updates).
    + unfold delete_investments. by rewrite deleteInvestment_not_owned.
  - intros Hno. split.
    + unfold put_goals.
      destruct (Zod.insertGoalSchema_partial body) as [updates|]; [|done].
      rewrite updateGoal_not_owned by done.
      by destruct (no_goal_values updates).
    + unfold delete_goals. by rewrite deleteGoal_not_owned.
Qed.

(** Bob's PUT and DELETE on Alice's transaction, and on an identifier that
    does not exist, are answered 404 and change nothing. *)
Lemma missing_or_foreign_id_is_not_found_witness :
  put_transactions "tx-1" {[ "amount" := JNum 99%float ]} bob db_created
  = (db_created, message 404 "Transaction not found")
  ∧ delete_transactions "tx-1" bob db_created
    = (db_created, message 404 "Transaction not found")
  ∧ delete_transactions "tx-none" alice db_created
    = (db_created, message 404 "Transaction not found").
Proof.
  assert (Hforeign : not_owned "tx-1" bob db_created).
  { intros t Ht _. vm_compute in Ht. apply list_elem_of_singleton in Ht. by subst t. }
  assert (Hmissing : not_owned "tx-none" alice db_created).
  { intros t Ht Hid. vm_compute in Ht. apply list_elem_of_singleton in Ht. by subst t. }
  destruct (missing_or_foreign_id_is_not_found "tx-1" bob
              {[ "amount" := JNum 99%float ]} db_created) as [Htx _].
  destruct (Htx Hforeign) as [Hput Hdel].
  destruct (missing_or_foreign_id_is_not_found "tx-none" alice ∅ db_created)
    as [Htx' _].
  destruct (Htx' Hmissing) as [_ Hdel'].
  split; [exact Hput | split; [exact Hdel | exact Hdel']].
Defined.

End StorageLaws.

(* ===================================================================== *)
(** * Registration, login and the session *)
(* ===================================================================== *)

Section AuthLaws.
Import Storage Routes.

(** Registration of a well-formed body with a fresh email address and a
    fresh identifier. *)
Lemma register_fresh (cs : CredentialService) (d : Draw) (req : Js.object)
    (userData : InsertUser) (db : Db) :
  Zod.insertUserSchema req = Some userData →
  iu_email userData ∉ (user_email <$> users db) →
  draw_uuid d ∉ (user_id <$> users db) →
  let user :=
    mkUser (draw_uuid d) (iu_email userData)
      (hashPassword cs (iu_password userData))
      (iu_firstName userData) (iu_lastName userData) (draw_now d) in
  register cs d req db
  = (with_users db (users db ++ [user]),
     json_ (JObj {[ "user" := JObj (userWithoutPassword user);
                    "token" := JStr (generateToken cs (draw_uuid d)) ]})).
Proof.
  intros Hp Hemail Hid user. unfold register. rewrite Hp.
  rewrite getUserByEmail_None by done.
  unfold createUser, Query.insert. cbn.
  rewrite decide_False by done.
  unfold users_check. cbn. by rewrite bool_decide_eq_true_2.
Qed.

Lemma getUserByEmail_appended (user : User) (db : Db) :
  user_email user ∉ (user_email <$> users db) →
  getUserByEmail (user_email user) (with_users db (users db ++ [user])) = Some user.
Proof.
  intros Hno. unfold getUserByEmail, Query.select_where. cbn [users with_users].
  rewrite filter_app.
  assert (Hnil : filter (λ u, user_email u = user_email user) (users db) = []).
  { apply (select_none (λ u, user_email u = user_email user)).
    intros u Hu He. apply Hno. apply list_elem_of_fmap. by exists u. }
  rewrite Hnil. rewrite filter_cons_True by done. done.
Qed.

Lemma getUser_appended (user : User) (db : Db) :
  user_id user ∉ (user_id <$> users db) →
  getUser (user_id user) (with_users db (users db ++ [user])) = Some user.
Proof.
  intros Hno. unfold getUser, Query.select_where. cbn [users with_users].
  rewrite filter_app.
  assert (Hnil : filter (λ u, user_id u = user_id user) (users db) = []).
  { apply (select_none (λ u, user_id u = user_id user)).
    intros u Hu He. apply Hno. apply list_elem_of_fmap. by exists u. }
  rewrite Hnil. rewrite filter_cons_True by done. done.
Qed.

(** A text has at most as many UTF-16 code units as bytes. *)
Lemma Js_length_le (s : string) : Js.length s ≤ String.length s.
Proof.
  remember (String.length s) as n eqn:Hn. revert s Hn.
  induction n as [n IH] using (well_founded_induction lt_wf). intros s Hn.
  destruct s as [|c rest]; [cbn; lia|]. cbn [String.length] in Hn.
  cbn [Js.length].
  destruct (Js.continuation c).
  { specialize (IH (String.length rest) ltac:(lia) rest eq_refl). lia. }
  destruct (Ascii.nat_of_ascii c <? 240)%nat.
  { specialize (IH (String.length rest) ltac:(lia) rest eq_refl). lia. }
  destruct rest as [|c' rest']; [lia|]. cbv beta iota.
  cbn [String.length] in Hn.
  destruct (Js.continuation c').
  - specialize (IH (String.length rest') ltac:(lia) rest' eq_refl). lia.
  - specialize (IH (S (String.length rest')) ltac:(lia) (String c' rest') eq_refl).
    lia.
Qed.

(** What [loginSchema] accepts, in terms of the body. *)
Lemma loginSchema_Some (email_format : string → bool) (req : Js.object)
    (email password : string) :
  Zod.loginSchema email_format req = Some (email, password)
  ↔ req !! "email" = Some (JStr email)
    ∧ req !! "password" = Some (JStr password)
    ∧ email_format email = true
    ∧ 6 ≤ Js.length password.
Proof.
  unfold Zod.loginSchema, Zod.string_. split.
  - intros Hp.
    destruct (req !! "email") as [[]|]; try done.
    destruct (req !! "password") as [[]|]; try done. cbn in Hp.
    destruct (email_format s) eqn:Hf; [|done]. cbn in Hp.
    case_bool_decide; [|done]. by simplify_eq.
  - intros (-> & -> & Hf & Hlen). cbn. rewrite Hf. cbn.
    by rewrite bool_decide_eq_true_2.
Qed.

(** X11. What a user gets at registration works afterwards.  When the body
    is accepted (it parses, the email address and the drawn identifier are
    new), the password has at least six UTF-16 code units, the address has
    the format login asks for and the credential service, at the time of
    the login, verifies the password against the hash stored at
    registration, then login with the same body changes nothing and is
    answered 200 with the user object that the registration answered
    with, and with a token of its own; and every token that the service
    then validates to the new identifier makes /api/auth/me return that
    user object. *)
Theorem register_then_login_and_me (cs cs_login cs_me : CredentialService)
    (email_format : string → bool) (d : Draw) (req : Js.object)
    (userData : InsertUser) (db : Db) :
  Zod.insertUserSchema req = Some userData →
  iu_email userData ∉ (user_email <$> users db) →
  draw_uuid d ∉ (user_id <$> users db) →
  email_format (iu_email userData) = true →
  6 ≤ Js.length (iu_password userData) →
  verifyPassword cs_login (iu_password userData)
    (hashPassword cs (iu_password userData))
  = true →
  let db' := (register cs d req db).1 in
  let user :=
    mkUser (draw_uuid d) (iu_email userData)
      (hashPassword cs (iu_password userData))
      (iu_firstName userData) (iu_lastName userData) (draw_now d) in
  (∃ token : string,
     body (register cs d req db).2
     = JObj {[ "user" := JObj (userWithoutPassword user); "token" := JStr token ]})
  ∧ (login cs_login email_format req db').1 = db'
  ∧ status (login cs_login email_format req db').2 = 200
  ∧ (∃ token : string,
       body (login cs_login email_format req db').2
       = JObj {[ "user" := JObj (userWithoutPassword user); "token" := JStr token ]})
  ∧ (∀ token : string,
       validateToken cs_me token = Some (draw_uuid d) →
       authenticateToken cs_me (Some token) me db'
       = (db', json_ (JObj {[ "user" := JObj (userWithoutPassword user) ]}))).
Proof.
  intros Hp Hemail Hid Hformat Hlen Hverify db' user.
  unfold db'. rewrite (register_fresh cs d req userData db Hp Hemail Hid).
  fold user. cbn [fst snd].
  apply insertUserSchema_Some in Hp as [He Hpw].
  assert (Hlogin : login cs_login email_format req
                     (with_users db (users db ++ [user]))
                   = (with_users db (users db ++ [user]),
                      json_ (JObj {[ "user" := JObj (userWithoutPassword user);
                                     "token" :=
                                       JStr (generateToken cs_login (draw_uuid d)) ]}))).
  { unfold login.
    assert (Hparse : Zod.loginSchema email_format req
                     = Some (iu_email userData, iu_password userData))
      by (by apply loginSchema_Some).
    rewrite Hparse.
    change (iu_email userData) with (user_email user) at 1.
    rewrite getUserByEmail_appended by done.
    cbn [user_password user]. by rewrite Hverify. }
  split; [by eexists|]. rewrite Hlogin. cbn [fst snd].
  split; [done|]. split; [done|]. split; [by eexists|].
  intros token Hvalid. unfold authenticateToken. cbn [mbind option_bind].
  rewrite Hvalid. unfold me.
  change (draw_uuid d) with (user_id user) at 1.
  by rewrite getUser_appended.
Qed.

(** Alice registers, logs in with what she registered with, and reads her
    own user object with a token. *)
Lemma register_then_login_and_me_witness :
  status (login credentials_sample email_format_sample signup db_registered).2 = 200
  ∧ (login credentials_sample email_format_sample signup db_registered).1
    = db_registered
  ∧ status
      (authenticateToken credentials_sample (Some "token:user-alice") me
         db_registered).2
    = 200.
Proof.
  destruct (register_then_login_and_me credentials_sample credentials_sample
              credentials_sample email_format_sample
              (mkDraw alice "2024-04-01T08:00:00.000Z") signup
              (mkInsertUser "alice@example.org" "correct horse" "Alice" "Archer")
              Storage.empty) as (_ & Hdb & Hstatus & _ & Hme).
  - reflexivity.
  - apply not_elem_of_nil.
  - apply not_elem_of_nil.
  - reflexivity.
  - vm_compute. lia.
  - reflexivity.
  - split; [exact Hstatus|]. split; [exact Hdb|].
    unfold db_registered. by rewrite (Hme "token:user-alice" eq_refl).
Defined.

(** X12. Registration puts no bound on the length of the password, login
    asks for six characters.  A body with a shorter password is accepted
    by the registration (given a new email address and identifier), and
    the user is stored; afterwards every login that submits this password
    is answered 400, whatever else the body, the stored users and the
    credential service at that time are. *)
Theorem short_password_registers_but_never_logs_in (cs : CredentialService)
    (d : Draw) (req : Js.object) (userData : InsertUser) (db : Db) :
  Zod.insertUserSchema req = Some userData →
  iu_email userData ∉ (user_email <$> users db) →
  draw_uuid d ∉ (user_id <$> users db) →
  String.length (iu_password userData) < 6 →
  status (register cs d req db).2 = 200
  ∧ length (users (register cs d req db).1) = S (length (users db))
  ∧ ∀ (cs_login : CredentialService) (email_format : string → bool)
      (body : Js.object) (db' : Db),
      body !! "password" = Some (JStr (iu_password userData)) →
      login cs_login email_format body db'
      = (db', message 400 "Invalid request data").
Proof.
  intros Hp Hemail Hid Hshort.
  rewrite (register_fresh cs d req userData db Hp Hemail Hid). cbn [fst snd].
  split; [done|]. split.
  { cbn [users with_users]. rewrite length_app. cbn. lia. }
  intros cs_login email_format body db' Hpw. unfold login.
  destruct (Zod.loginSchema email_format body) as [[email password]|] eqn:Hl; [|done].
  apply loginSchema_Some in Hl as (_ & Hpw' & _ & Hlen).
  rewrite Hpw in Hpw'. simplify_eq.
  pose proof (Js_length_le (iu_password userData)). lia.
Qed.

(** Carol registers with the password "abc" and cannot log in with it. *)
Lemma short_password_registers_but_never_logs_in_witness :
  status
    (register credentials_sample (mkDraw "user-carol" "2024-04-03T08:00:00.000Z")
       short_signup db_registered).2
  = 200
  ∧ status
      (login credentials_sample email_format_sample short_signup
         (register credentials_sample
            (mkDraw "user-carol" "2024-04-03T08:00:00.000Z") short_signup
            db_registered).1).2
    = 400.
Proof.
  destruct (short_password_registers_but_never_logs_in credentials_sample
              (mkDraw "user-carol" "2024-04-03T08:00:00.000Z") short_signup
              (mkInsertUser "carol@example.org" "abc" "Carol" "Cole")
              db_registered) as (Hreg & _ & Hlogin).
  - reflexivity.
  - vm_compute. intros [Heq|Hin]%elem_of_cons; [discriminate Heq|].
    by apply elem_of_nil in Hin.
  - vm_compute. intros [Heq|Hin]%elem_of_cons; [discriminate Heq|].
    by apply elem_of_nil in Hin.
  - vm_compute. lia.
  - split; [exact Hreg|].
    by rewrite (Hlogin credentials_sample email_format_sample short_signup).
Defined.

(** X13. Login writes nothing.  It answers 200 only when the body names the
    email address of a stored user whose stored digest the credential
    service verifies against the submitted password, and then with that
    user's object and a token for that user's identifier.  A body that
    parses but names no stored address, and one that names a user whose
    digest does not verify, are answered alike: 401 "Invalid
    credentials". *)
Theorem login_answers (cs : CredentialService) (email_format : string → bool)
    (req : Js.object) (db : Db) :
  (login cs email_format req db).1 = db
  ∧ (status (login cs email_format req db).2 = 200 →
     ∃ (user : User) (password : string),
       user ∈ users db
       ∧ req !! "email" = Some (JStr (user_email user))
       ∧ req !! "password" = Some (JStr password)
       ∧ verifyPassword cs password (user_password user) = true
       ∧ (login cs email_format req db).2
         = json_ (JObj {[ "user" := JObj (userWithoutPassword user);
                          "token" := JStr (generateToken cs (user_id user)) ]}))
  ∧ (∀ email password : string,
       Zod.loginSchema email_format req = Some (email, password) →
       (∀ user, user ∈ users db → user_email user = email →
                verifyPassword cs password (user_password user) = false) →
       (login cs email_format req db).2 = message 401 "Invalid credentials").
Proof.
  split; [|split].
  - unfold login. destruct (Zod.loginSchema email_format req) as [[email password]|];
      [|done].
    destruct (getUserByEmail email db) as [user|]; [|done].
    by destruct (verifyPassword cs password (user_password user)).
  - unfold login.
    destruct (Zod.loginSchema email_format req) as [[email password]|] eqn:Hl;
      [|by intros [=]].
    apply loginSchema_Some in Hl as (He & Hpw & _ & _).
    destruct (getUserByEmail email db) as [user|] eqn:Hget; [|by intros [=]].
    destruct (verifyPassword cs password (user_password user)) eqn:Hv;
      [|by intros [=]].
    intros _. exists user, password.
    unfold getUserByEmail in Hget.
    apply select_first_Some in Hget as [Hmail Hin].
    rewrite Hmail. done.
  - intros email password Hl Hnone. unfold login. rewrite Hl.
    destruct (getUserByEmail email db) as [user|] eqn:Hget; [|done].
    unfold getUserByEmail in Hget.
    apply select_first_Some in Hget as [Hmail Hin].
    by rewrite (Hnone user Hin Hmail).
Qed.

(** A login with a wrong password and a login for an address nobody
    registered get the same answer. *)
Lemma login_answers_witness :
  (login credentials_sample email_format_sample
     {[ "email" := JStr "alice@example.org"; "password" := JStr "wrong horse" ]}
     db_registered).2
  = message 401 "Invalid credentials"
  ∧ (login credentials_sample email_format_sample
       {[ "email" := JStr "mallory@example.org"; "password" := JStr "wrong horse" ]}
       db_registered).2
    = message 401 "Invalid credentials".
Proof.
  split.
  - destruct (login_answers credentials_sample email_format_sample
                {[ "email" := JStr "alice@example.org";
                   "password" := JStr "wrong horse" ]} db_registered)
      as (_ & _ & Hfail).
    apply (Hfail "alice@example.org" "wrong horse"); [reflexivity|].
    intros user Hin _. vm_compute in Hin.
    apply list_elem_of_singleton in Hin. by subst user.
  - destruct (login_answers credentials_sample email_format_sample
                {[ "email" := JStr "mallory@example.org";
                   "password" := JStr "wrong horse" ]} db_registered)
      as (_ & _ & Hfail).
    apply (Hfail "mallory@example.org" "wrong horse"); [reflexivity|].
    intros user Hin Hmail. vm_compute in Hin.
    apply list_elem_of_singleton in Hin. by subst user.
Defined.

End AuthLaws.

(* ===================================================================== *)
(** * Request bodies: what the handlers read from them *)
(* ===================================================================== *)

Section BodyLaws.
Import Storage Routes.

Local Ltac other_key Hk :=
  let Heq := fresh in
  intros Heq; apply Hk; rewrite Heq; repeat constructor.

Lemma insertTransactionSchema_ignores (k : string) (v : json) (o : Js.object) :
  k ∉ ["userId"; "description"; "amount"; "category"; "type"; "date"] →
  Zod.insertTransactionSchema (<[k:=v]> o) = Zod.insertTransactionSchema o
  ∧ Zod.insertTransactionSchema_partial (<[k:=v]> o)
    = Zod.insertTransactionSchema_partial o.
Proof.
  intros Hk. unfold Zod.insertTransactionSchema, Zod.insertTransactionSchema_partial.
  by rewrite !lookup_insert_ne by other_key Hk.
Qed.

Lemma insertInvestmentSchema_ignores (k : string) (v : json) (o : Js.object) :
  k ∉ ["userId"; "symbol"; "name"; "type"; "shares"; "purchasePrice"; "currentPrice";
       "purchaseDate"] →
  Zod.insertInvestmentSchema (<[k:=v]> o) = Zod.insertInvestmentSchema o
  ∧ Zod.insertInvestmentSchema_partial (<[k:=v]> o)
    = Zod.insertInvestmentSchema_partial o.
Proof.
  intros Hk. unfold Zod.insertInvestmentSchema, Zod.insertInvestmentSchema_partial.
  by rewrite !lookup_insert_ne by other_key Hk.
Qed.

Lemma insertGoalSchema_ignores (k : string) (v : json) (o : Js.object) :
  k ∉ ["userId"; "title"; "description"; "targetAmount"; "currentAmount"; "targetDate";
       "category"] →
  Zod.insertGoalSchema (<[k:=v]> o) = Zod.insertGoalSchema o
  ∧ Zod.insertGoalSchema_partial (<[k:=v]> o) = Zod.insertGoalSchema_partial o.
Proof.
  intros Hk. unfold Zod.insertGoalSchema, Zod.insertGoalSchema_partial.
  by rewrite !lookup_insert_ne by other_key Hk.
Qed.

(** The body with the caller's identifier spread over it, when the body
    gained a key that is not a field of the record. *)
Lemma spread_userId_insert (k : string) (v : json) (userId : string)
    (body : Js.object) (keys : list string) :
  k ∉ keys →
  <["userId" := JStr userId]> (<[k:=v]> body) = <["userId" := JStr userId]> body
  ∨ ((k ∉ "userId" :: keys)
     ∧ <["userId" := JStr userId]> (<[k:=v]> body)
       = <[k:=v]> (<["userId" := JStr userId]> body)).
Proof.
  intros Hk. destruct (decide (k = "userId")) as [->|Hne].
  - left. apply insert_insert_eq.
  - right. split; [by apply not_elem_of_cons|]. by apply insert_insert_ne.
Qed.

(** X10. A key of the request body that is not a field of the record has no
    effect: POST and PUT for transactions, investments and goals, and the
    registration, do the same with and without it.  For POST this includes
    [userId] (the caller's identifier is written over it), and everywhere
    it includes [id] and [createdAt]: a client cannot choose them. *)
Theorem keys_outside_the_schema_are_ignored (k : string) (v : json)
    (cs : CredentialService) (d : Draw) (body : Js.object) (id userId : string)
    (db : Db) :
  (k ∉ ["description"; "amount"; "category"; "type"; "date"] →
   post_transactions d (<[k:=v]> body) userId db = post_transactions d body userId db
   ∧ (k ≠ "userId" →
      put_transactions id (<[k:=v]> body) userId db
      = put_transactions id body userId db))
  ∧ (k ∉ ["symbol"; "name"; "type"; "shares"; "purchasePrice"; "currentPrice";
          "purchaseDate"] →
     post_investments d (<[k:=v]> body) userId db = post_investments d body userId db
     ∧ (k ≠ "userId" →
        put_investments id (<[k:=v]> body) userId db
        = put_investments id body userId db))
  ∧ (k ∉ ["title"; "description"; "targetAmount"; "currentAmount"; "targetDate";
          "category"] →
     post_goals d (<[k:=v]> body) userId db = post_goals d body userId db
     ∧ (k ≠ "userId" →
        put_goals id (<[k:=v]> body) userId db = put_goals id body userId db))
  ∧ (k ∉ ["email"; "password"; "firstName"; "lastName"] →
     register cs d (<[k:=v]> body) db = register cs d body db).
Proof.
  split; [|split; [|split]].
  - intros Hk. split.
    + unfold post_transactions.
      destruct (spread_userId_insert k v userId body _ Hk) as [->|[Hk' ->]]; [done|].
      by rewrite (proj1 (insertTransactionSchema_ignores k v _ Hk')).
    + intros Hne. unfold put_transactions.
      assert (Hk' : k ∉ "userId" :: _) by (apply not_elem_of_cons; split; [exact Hne | exact Hk]).
      by rewrite (proj2 (insertTransactionSchema_ignores k v body Hk')).
  - intros Hk. split.
    + unfold post_investments.
      destruct (spread_userId_insert k v userId body _ Hk) as [->|[Hk' ->]]; [done|].
      by rewrite (proj1 (insertInvestmentSchema_ignores k v _ Hk')).
    + intros Hne. unfold put_investments.
      assert (Hk' : k ∉ "userId" :: _) by (apply not_elem_of_cons; split; [exact Hne | exact Hk]).
      by rewrite (proj2 (insertInvestmentSchema_ignores k v body Hk')).
  - intros Hk. split.
    + unfold post_goals.
      destruct (spread_userId_insert k v userId body _ Hk) as [->|[Hk' ->]]; [done|].
      by rewrite (proj1 (insertGoalSchema_ignores k v _ Hk')).
    + intros Hne. unfold put_goals.
      assert (Hk' : k ∉ "userId" :: _) by (apply not_elem_of_cons; split; [exact Hne | exact Hk]).
      by rewrite (proj2 (insertGoalSchema_ignores k v body Hk')).
  - intros Hk. unfold register, Zod.insertUserSchema.
    by rewrite !lookup_insert_ne by other_key Hk.
Qed.

(** A transaction posted with an [id] of the client's choosing is stored
    under the drawn identifier, as if the key were not there. *)
Lemma keys_outside_the_schema_are_ignored_witness :
  post_transactions (mkDraw "tx-1" "2024-05-01T10:00:00.000Z")
    (<["id" := JStr "chosen"]> coffee) alice db_two_users
  = post_transactions (mkDraw "tx-1" "2024-05-01T10:00:00.000Z") coffee alice
      db_two_users.
Proof.
  destruct (keys_outside_the_schema_are_ignored "id" (JStr "chosen")
              credentials_sample (mkDraw "tx-1" "2024-05-01T10:00:00.000Z") coffee
              "tx-1" alice db_two_users) as [Htx _].
  apply Htx.
  intros Hin. repeat (apply elem_of_cons in Hin as [Heq|Hin]; [discriminate Heq|]).
  by apply elem_of_nil in Hin.
Defined.

End BodyLaws.

(* ===================================================================== *)
(** * A PUT after a POST *)
(* ===================================================================== *)

Section PutAfterPost.
Import Storage Routes.

Lemma post_transactions_200 (d : Draw) (body : Js.object) (userId : string) (db : Db) :
  status (post_transactions d body userId db).2 = 200 →
  ∃ data,
    Zod.insertTransactionSchema (<["userId" := JStr userId]> body) = Some data
    ∧ it_userId data = userId
    ∧ (draw_uuid d ∉ (tx_id <$> transactions db))
    ∧ transactions_check db (posted d data) = true
    ∧ post_transactions d body userId db
      = (with_transactions db (transactions db ++ [posted d data]),
         json_ (JObj (ToJson.transaction (posted d data)))).
Proof.
  unfold post_transactions.
  destruct (Zod.insertTransactionSchema _) as [data|] eqn:Hp; [|by intros [=]].
  cbn [mbind option_bind].
  destruct (createTransaction d data db) as [[db' t]|] eqn:Hc; [|by intros [=]].
  intros _. exists data. split; [done|].
  unfold createTransaction in Hc.
  destruct (Query.insert _ _ _ _) as [rows|] eqn:Hins; [|done].
  apply insert_Some in Hins as (-> & Hpk & Hcheck).
  cbn [mbind option_bind] in Hc. apply (inj Some) in Hc. injection Hc as <- <-.
  split; [|split; [exact Hpk | split; [exact Hcheck | reflexivity]]].
  unfold Zod.insertTransactionSchema in Hp. rewrite lookup_insert_eq in Hp.
  cbn in Hp. clear Hpk Hcheck. revert Hp.
  destruct (Zod.string_ (_ !! "description")) as [?|]; [|done].
  destruct (Zod.number_ (_ !! "amount")) as [?|]; [|done].
  destruct (Zod.string_ (_ !! "category")) as [?|]; [|done].
  destruct (Zod.string_ (_ !! "type")) as [?|]; [|done].
  destruct (Zod.string_ (_ !! "date")) as [?|]; [|done].
  cbn. by intros [= <-].
Qed.

(** X8. POST /api/transactions checks the shape of the body and nothing
    else: when the caller is a user, the five fields are there, texts and
    a finite number, and the drawn identifier is new, the row is stored
    with the fields as they were sent (whatever the sign of the amount and
    whatever the text of the kind), under the caller's identifier, and the
    stored row is the answer. *)
Theorem post_transactions_stores_the_fields_as_sent (d : Draw) (body : Js.object)
    (userId description category type date : string) (amount : Js.number) (db : Db) :
  body !! "description" = Some (JStr description) →
  body !! "amount" = Some (JNum amount) →
  body !! "category" = Some (JStr category) →
  body !! "type" = Some (JStr type) →
  body !! "date" = Some (JStr date) →
  PrimFloat.is_finite amount = true →
  userId ∈ (user_id <$> users db) →
  draw_uuid d ∉ (tx_id <$> transactions db) →
  let row :=
    mkTransaction (draw_uuid d) userId description amount category type date
      (draw_now d) in
  post_transactions d body userId db
  = (with_transactions db (transactions db ++ [row]),
     json_ (JObj (ToJson.transaction row))).
Proof.
  intros Hdescription Hamount Hcategory Htype Hdate Hfinite Huser Hfresh row.
  assert (Hnan : PrimFloat.is_nan amount = false).
  { unfold is_finite in Hfinite. by destruct (PrimFloat.is_nan amount). }
  unfold post_transactions, Zod.insertTransactionSchema.
  rewrite lookup_insert_eq, !lookup_insert_ne by done.
  rewrite Hdescription, Hamount, Hcategory, Htype, Hdate.
  cbn [Zod.string_ Zod.number_ mbind option_bind]. rewrite Hnan.
  cbn [mbind option_bind].
  unfold createTransaction, Query.insert.
  cbn [tx_id tx_amount it_userId it_description it_amount it_category it_type it_date].
  rewrite decide_False by done.
  unfold transactions_check, real_not_null, references_user.
  cbn [tx_amount tx_userId it_amount it_userId].
  rewrite Hnan, bool_decide_eq_true_2 by done.
  reflexivity.
Qed.

(** A refund of minus five, of kind "refund", is stored as it is. *)
Lemma post_transactions_stores_the_fields_as_sent_witness :
  stored_summary
    (post_transactions (mkDraw "tx-2" "2024-05-03T10:00:00.000Z") refund alice
       db_created).1
  = [("coffee", 3.5%float, "expense", "2024-05-01");
     ("refund", (-5)%float, "refund", "2024-05-03")].
Proof.
  rewrite (post_transactions_stores_the_fields_as_sent
             (mkDraw "tx-2" "2024-05-03T10:00:00.000Z") refund alice
             "refund" "Other" "refund" "2024-05-03" (-5)%float db_created).
  - reflexivity.
  - reflexivity.
  - reflexivity.
  - reflexivity.
  - reflexivity.
  - reflexivity.
  - reflexivity.
  - vm_compute. left.
  - vm_compute. intros [Heq|Hin]%elem_of_cons; [discriminate Heq|].
    by apply elem_of_nil in Hin.
Defined.

Lemma insertTransactionSchema_partial_of_full (o : Js.object) (userId : string)
    (data : InsertTransaction) :
  Zod.insertTransactionSchema (<["userId" := JStr userId]> o) = Some data →
  o !! "userId" = None ∨ o !! "userId" = Some (JStr userId) →
  ∃ owner,
    (owner = None ∨ owner = Some userId)
    ∧ Zod.insertTransactionSchema_partial o
      = Some (mkTransactionUpdates owner (Some (it_description data))
                (Some (it_amount data)) (Some (it_category data))
                (Some (it_type data)) (Some (it_date data))).
Proof.
  unfold Zod.insertTransactionSchema, Zod.insertTransactionSchema_partial.
  rewrite lookup_insert_eq, !lookup_insert_ne by done.
  intros Hp Howner.
  exists (match o !! "userId" with Some _ => Some userId | None => None end).
  split; [destruct Howner as [-> | ->]; [by left | by right]|].
  revert Hp.
  destruct (o !! "description") as [[| | |description| |]|]; try done.
  destruct (o !! "amount") as [[| |amount| | |]|]; try done.
  cbn. destruct (PrimFloat.is_nan amount); [done|].
  destruct (o !! "category") as [[| | |category| |]|]; try done.
  destruct (o !! "type") as [[| | |type| |]|]; try done.
  destruct (o !! "date") as [[| | |date| |]|]; try done.
  cbn. intros [= <-]. by destruct Howner as [-> | ->].
Qed.

Lemma set_where_app {Row : Type} (P : Row → Prop) `{!∀ r, Decision (P r)}
    (set : Row → Row) (l1 l2 : list Row) :
  Query.set_where P set (l1 ++ l2)
  = Query.set_where P set l1 ++ Query.set_where P set l2.
Proof. apply fmap_app. Qed.

Lemma select_where_app {Row : Type} (P : Row → Prop) `{!∀ r, Decision (P r)}
    (l1 l2 : list Row) :
  Query.select_where P (l1 ++ l2) = Query.select_where P l1 ++ Query.select_where P l2.
Proof. apply filter_app. Qed.

(** An update of the row that was stored last, under an identifier no
    other row has. *)
Lemma updateTransaction_last (id userId : string) (updates : TransactionUpdates)
    (db : Db) (t : Transaction) :
  no_transaction_values updates = false →
  id ∉ (tx_id <$> transactions db) →
  tx_id t = id → tx_userId t = userId →
  tx_userId (set_transaction updates t) = userId →
  transaction_values_ok db updates = true →
  updateTransaction id userId updates (with_transactions db (transactions db ++ [t]))
  = Some (with_transactions db (transactions db ++ [set_transaction updates t]),
          Some (set_transaction updates t)).
Proof.
  intros Hvalues Hfresh Hid Hu Hu' Hok. unfold updateTransaction. rewrite Hvalues.
  assert (Hno : ∀ r, r ∈ transactions db → ¬ (tx_id r = id ∧ tx_userId r = userId)).
  { intros r Hr [Hid' _]. apply Hfresh. apply list_elem_of_fmap. by exists r. }
  change (transaction_values_ok (with_transactions db (transactions db ++ [t])) updates)
    with (transaction_values_ok db updates).
  rewrite Hok, update_where_valid. cbn [mbind option_bind].
  cbn [transactions with_transactions].
  rewrite set_where_app, (set_where_no_match _ _ _ Hno).
  assert (Hlast : Query.set_where (λ t0, tx_id t0 = id ∧ tx_userId t0 = userId)
                    (set_transaction updates) [t] = [set_transaction updates t]).
  { unfold Query.set_where. cbn. by rewrite decide_True. }
  rewrite Hlast. f_equal. f_equal.
  unfold getTransaction. rewrite limit_1_head. cbn [transactions with_transactions].
  rewrite select_where_app, (select_none _ _ Hno).
  unfold Query.select_where. cbn [app]. by rewrite filter_cons_True.
Qed.

(** X9. A PUT with a complete body on the transaction a POST has just created
    leaves the database, and answers, as if the POST had been made with
    that body: every field of the row but [id], [userId] and [createdAt]
    is replaced.  Both bodies are ones that POST accepts, and the second
    has no [userId] or the caller's. *)
Theorem put_after_post_is_post_of_the_new_body (d : Draw) (b b' : Js.object)
    (userId : string) (db : Db) :
  status (post_transactions d b userId db).2 = 200 →
  status (post_transactions d b' userId db).2 = 200 →
  b' !! "userId" = None ∨ b' !! "userId" = Some (JStr userId) →
  put_transactions (draw_uuid d) b' userId (post_transactions d b userId db).1
  = post_transactions d b' userId db.
Proof.
  intros (data & _ & Hu & Hfresh & _ & ->)%post_transactions_200
         (data' & Hp' & Hu' & _ & Hcheck & ->)%post_transactions_200 Howner.
  cbn [fst].
  unfold transactions_check in Hcheck. cbn [posted tx_amount tx_userId] in Hcheck.
  apply andb_true_iff in Hcheck as [Hamount Huser]. rewrite Hu' in Huser.
  destruct (insertTransactionSchema_partial_of_full b' userId data' Hp' Howner)
    as (owner & Ho & Hpartial).
  unfold put_transactions. rewrite Hpartial.
  set (updates := mkTransactionUpdates _ _ _ _ _ _).
  assert (Hset : set_transaction updates (posted d data) = posted d data').
  { unfold set_transaction, posted, updates. cbn. rewrite Hu, Hu'.
    by destruct Ho as [-> | ->]. }
  rewrite (updateTransaction_last (draw_uuid d) userId updates db (posted d data));
    [by rewrite Hset | unfold updates; by destruct Ho as [-> | ->] | exact Hfresh
    | reflexivity | exact Hu | rewrite Hset; exact Hu' |].
  unfold transaction_values_ok, updates. cbn [ut_amount ut_userId from_option].
  rewrite Hamount. by destruct Ho as [-> | ->].
Qed.

(** Alice posts a coffee and puts a tea in its place: the result is the
    one of posting the tea. *)
Lemma put_after_post_is_post_of_the_new_body_witness :
  put_transactions "tx-1" tea alice db_created
  = post_transactions (mkDraw "tx-1" "2024-05-01T10:00:00.000Z") tea alice
      db_two_users.
Proof.
  apply (put_after_post_is_post_of_the_new_body
           (mkDraw "tx-1" "2024-05-01T10:00:00.000Z") coffee tea alice db_two_users).
  - reflexivity.
  - reflexivity.
  - left. reflexivity.
Defined.

End PutAfterPost.

(* ===================================================================== *)
(** * CSV upload: every order of events *)
(* ===================================================================== *)

Section UploadLaws.
Import Storage Routes Upload.
Variable parseFloat : string → Js.number.
Variable userId : string.

(** An absolute value that is a number is positive or is +0, and is never
    below 0. *)
Lemma Math_abs_cases (x : Js.number) :
  PrimFloat.is_nan (Js.Math_abs x) = false →
  PrimFloat.ltb (Js.Math_abs x) 0%float = false
  ∧ (Js.gt (Js.Math_abs x) 0%float = true
     ∨ Js.gt (Js.Math_abs x) 0%float = false ∧ Js.Math_abs x = 0%float).
Proof.
  unfold Js.gt, Js.Math_abs. rewrite is_nan_spec, !ltb_spec, abs_spec, Prim2SF_zero.
  unfold SFltb. intros Hnan.
  destruct (Prim2SF x) as [b|b| |b m e] eqn:E; cbn [SFabs SFcompare] in *.
  - split; [done|]. right. split; [done|]. apply Prim2SF_inj.
    by rewrite abs_spec, E, Prim2SF_zero.
  - split; [done|]. by left.
  - done.
  - split; [done|]. by left.
Qed.

Lemma first_truthy_nonempty (vs : list (option string)) (s : string) :
  Js.first_truthy vs = Some s → s ≠ "".
Proof.
  induction vs as [|v vs IH]; [done|]. cbn [Js.first_truthy].
  destruct (Js.truthy v) eqn:Hv; [|done].
  intros ->. cbn in Hv. intros ->. done.
Qed.

Lemma categorize_range (desc : string) : Upload.categorize desc ∈ upload_categories.
Proof.
  unfold Upload.categorize, upload_categories.
  repeat match goal with |- context [if ?c then _ else _] => destruct c end;
    repeat constructor.
Qed.

(** The row a resumed listener stores. *)
Lemma createTransaction_row (now : string) (row : cells) (d : Draw) (db0 db' : Db)
    (t : Transaction) :
  createTransaction d (row_transaction parseFloat userId now row) db0 = Some (db', t) →
  db' = with_transactions db0 (transactions db0 ++ [t]) ∧ uploaded_shape userId t.
Proof.
  unfold createTransaction. intros Hc.
  destruct (Query.insert _ _ _ _) as [rows|] eqn:Hins; [|done].
  apply insert_Some in Hins as (-> & _ & Hcheck).
  cbn [mbind option_bind] in Hc. apply (inj Some) in Hc. injection Hc as <- <-.
  split; [done|].
  unfold transactions_check in Hcheck. apply andb_true_iff in Hcheck as [Hcheck _].
  unfold real_not_null in Hcheck. cbn [tx_amount row_transaction it_amount] in Hcheck.
  apply negb_true_iff in Hcheck.
  destruct (Math_abs_cases _ Hcheck) as [Hneg Hsign].
  unfold uploaded_shape, row_transaction.
  cbn [tx_userId tx_amount tx_type tx_category tx_description it_userId it_amount
       it_type it_category it_description].
  split; [done|]. split; [done|]. split; [done|]. split; [|split].
  - destruct Hsign as [-> | [-> ->]]; [by left | by right].
  - apply categorize_range.
  - change (default "Unknown"
              (Js.first_truthy
                 [row !! "description"; row !! "memo"; row !! "transaction"]) ≠ "").
    destruct (Js.first_truthy _) as [s|] eqn:Hs; [|done].
    cbn. by apply first_truthy_nonempty in Hs.
Qed.

Local Abbreviation from_row :=
  (λ p : Pending,
     ∃ now row, pending_insert p = row_transaction parseFloat userId now row).

(** What holds of an upload in progress, whatever happened so far: the
    handler's array holds exactly the rows added to the table, in the
    order they were added; a response, once sent, counts the rows that
    were in the array at that moment. *)
Local Abbreviation in_progress := (λ (processResult : Js.object) (db0 : Db) (st : State),
  Forall from_row (pending st)
  ∧ users (db st) = users db0
  ∧ investments (db st) = investments db0
  ∧ goals (db st) = goals db0
  ∧ savingsTips (db st) = savingsTips db0
  ∧ transactions (db st) = transactions db0 ++ saved st
  ∧ Forall (uploaded_shape userId) (saved st)
  ∧ match response st with
    | None => True
    | Some resp =>
        ∃ counted rest,
          saved st = counted ++ rest ∧ resp = end_response processResult counted
    end).

Lemma step_in_progress (processResult : Js.object) (db0 : Db) (st : State) (e : Event) :
  in_progress processResult db0 st →
  in_progress processResult db0 (step parseFloat userId processResult st e).
Proof.
  intros (Hp & Hu & Hi & Hg & Hs & Ht & Hshape & Hr).
  destruct e as [row| |]; cbn [step].
  - cbn [pending db saved response]. split; [|done].
    apply Forall_app. split; [done|]. apply Forall_singleton. by eexists _, _.
  - destruct (pending st) as [|p rest] eqn:Hpend; [by rewrite Hpend|].
    apply Forall_cons in Hp as [(now & row & Hrow) Hrest]. rewrite Hrow.
    destruct (createTransaction _ _ _) as [[db' t]|] eqn:Hc;
      cbn [pending db saved response]; [|done].
    apply createTransaction_row in Hc as [-> Hnew].
    cbn [users investments goals savingsTips transactions with_transactions].
    split; [done|]. split; [done|]. split; [done|]. split; [done|]. split; [done|].
    split; [by rewrite Ht, app_assoc|]. split.
    { apply Forall_app. split; [done|]. by apply Forall_singleton. }
    destruct (response st) as [resp|]; [|done].
    destruct Hr as (counted & rest' & -> & ->).
    exists counted, (rest' ++ [t]). by rewrite app_assoc.
  - destruct (response st) as [resp|] eqn:Hresp; [by rewrite Hresp|].
    cbn [pending db saved response].
    split; [done|]. split; [done|]. split; [done|]. split; [done|]. split; [done|].
    split; [done|]. split; [done|].
    exists (saved st), []. by rewrite app_nil_r.
Qed.

Lemma run_in_progress (processResult : Js.object) (db0 : Db) (events : list Event)
    (st : State) :
  in_progress processResult db0 st →
  in_progress processResult db0 (run parseFloat userId processResult events st).
Proof.
  unfold run. revert st. induction events as [|e events IH]; intros st Hst; [done|].
  cbn [foldl]. apply IH. by apply step_in_progress.
Qed.

Lemma upload_in_progress (processResult : Js.object) (db0 : Db) (events : list Event) :
  in_progress processResult db0
    (run parseFloat userId processResult events (mkState db0 [] [] None)).
Proof.
  apply run_in_progress. cbn [pending db saved response].
  split; [done|]. split; [done|]. split; [done|]. split; [done|]. split; [done|].
  split; [by rewrite app_nil_r|]. done.
Qed.

(** X14. An upload never reports more rows than it stores, in whatever order
    the parser emits its events and the listeners are resumed.  The rows
    it adds to the transactions table come after the rows that were
    there; when it answers 200 the response is the analytics result with
    [transactions_saved] set to the length of a prefix of the added rows
    (the ones stored by the time of 'end'); its other answers are 400 and
    500, and then nothing was stored. *)
Theorem upload_reports_at_most_what_it_stores (file : option (list CsvRow))
    (analytics : Analytics) (schedule : list CsvRow → list Event) (db0 : Db) :
  let r := upload parseFloat userId file analytics schedule db0 in
  ∃ new : list Transaction,
    transactions r.1 = transactions db0 ++ new
    ∧ ∀ resp : Response,
        r.2 = Some resp →
        (status resp = 200
         ∧ ∃ (processResult : Js.object) (counted rest : list Transaction),
             analytics = Result processResult
             ∧ new = counted ++ rest
             ∧ body resp
               = JObj (<["transactions_saved" := JNum (Js.of_nat (length counted))]>
                         processResult))
        ∨ (status resp ∈ [400; 500] ∧ r.1 = db0 ∧ new = []).
Proof.
  intros r. unfold r, upload.
  destruct file as [rows|].
  2:{ exists []. rewrite app_nil_r. split; [done|]. intros resp [= <-]. right.
      split; [|done]. cbn. by left. }
  destruct analytics as [| |processResult].
  1,2: exists []; rewrite app_nil_r; (split; [done|]); intros resp [= <-]; right;
       (split; [|done]); cbn; right; by left.
  destruct (is_error (processResult !! "error")).
  { exists []. rewrite app_nil_r. split; [done|]. intros resp [= <-]. right.
    split; [|done]. cbn. by left. }
  destruct (upload_in_progress processResult db0 (schedule rows))
    as (_ & _ & _ & _ & _ & Ht & _ & Hr).
  cbn [fst snd]. eexists. split; [exact Ht|].
  intros resp Hresp. rewrite Hresp in Hr. destruct Hr as (counted & rest & Hs & ->).
  left. split; [done|]. by exists processResult, counted, rest.
Qed.

(** X15. What an upload stores, in whatever order its events come: it leaves
    the other tables and the rows already in the transactions table
    alone, and every row it adds is the uploading user's, has an amount
    that is a number and is not negative, is an "expense" with a positive
    amount or an "income" with the amount 0, has one of the five
    categories and a description that is not empty. *)
Theorem upload_stores_rows_of_one_shape (file : option (list CsvRow))
    (analytics : Analytics) (schedule : list CsvRow → list Event) (db0 : Db) :
  let r := upload parseFloat userId file analytics schedule db0 in
  users r.1 = users db0
  ∧ investments r.1 = investments db0
  ∧ goals r.1 = goals db0
  ∧ savingsTips r.1 = savingsTips db0
  ∧ ∃ new : list Transaction,
      transactions r.1 = transactions db0 ++ new
      ∧ ∀ t, t ∈ new →
          tx_userId t = userId
          ∧ PrimFloat.is_nan (tx_amount t) = false
          ∧ PrimFloat.ltb (tx_amount t) 0%float = false
          ∧ (tx_type t = "expense" ∧ Js.gt (tx_amount t) 0%float = true
             ∨ tx_type t = "income" ∧ tx_amount t = 0%float)
          ∧ tx_category t
            ∈ ["Food & Dining"; "Transportation"; "Shopping"; "Bills & Utilities";
               "Other"]
          ∧ tx_description t ≠ "".
Proof.
  intros r.
  assert (Hsame : r.1 = db0 →
            users r.1 = users db0 ∧ investments r.1 = investments db0
            ∧ goals r.1 = goals db0 ∧ savingsTips r.1 = savingsTips db0
            ∧ ∃ new : list Transaction,
                transactions r.1 = transactions db0 ++ new
                ∧ ∀ t, t ∈ new → uploaded_shape userId t).
  { intros ->. split; [done|]. split; [done|]. split; [done|]. split; [done|].
    exists []. rewrite app_nil_r. split; [done|]. by intros t Ht%elem_of_nil. }
  unfold r, upload in *.
  destruct file as [rows|]; [|by apply Hsame].
  destruct analytics as [| |processResult]; [by apply Hsame..|].
  destruct (is_error (processResult !! "error")); [by apply Hsame|].
  destruct (upload_in_progress processResult db0 (schedule rows))
    as (_ & Hu & Hi & Hg & Hs & Ht & Hshape & _).
  cbn [fst snd]. split; [done|]. split; [done|]. split; [done|]. split; [done|].
  eexists. split; [exact Ht|]. by apply Forall_forall.
Qed.

End UploadLaws.

(* ===================================================================== *)
(** * The pages: best performer, category chart, goals *)
(* ===================================================================== *)

Section PageLaws.
Import InvestmentsPage CategoryChart Goals GoalsInsights.

(** ** The order of numbers is transitive *)

Lemma finite_compare_Lt (e1 e2 : Z) (m1 m2 : positive) :
  match (e1 ?= e2)%Z with
  | Eq => PosDef.Pos.compare_cont Eq m1 m2
  | Lt => Lt
  | Gt => Gt
  end = Lt
  ↔ (e1 < e2)%Z ∨ e1 = e2 ∧ (m1 < m2)%positive.
Proof.
  change (PosDef.Pos.compare_cont Eq m1 m2) with (Pos.compare m1 m2).
  destruct (Z.compare_spec e1 e2), (Pos.compare_spec m1 m2);
    split; intros; try discriminate; try lia; reflexivity.
Qed.

Lemma finite_compare_opp_Lt (e1 e2 : Z) (m1 m2 : positive) :
  match (e1 ?= e2)%Z with
  | Eq => CompOpp (PosDef.Pos.compare_cont Eq m1 m2)
  | Lt => Gt
  | Gt => Lt
  end = Lt
  ↔ (e2 < e1)%Z ∨ e1 = e2 ∧ (m2 < m1)%positive.
Proof.
  change (PosDef.Pos.compare_cont Eq m1 m2) with (Pos.compare m1 m2).
  destruct (Z.compare_spec e1 e2), (Pos.compare_spec m1 m2);
    cbn [CompOpp]; split; intros; try discriminate; try lia; reflexivity.
Qed.

Lemma SFcompare_Lt_trans (x y z : spec_float) :
  SFcompare x y = Some Lt → SFcompare y z = Some Lt → SFcompare x z = Some Lt.
Proof.
  destruct x as [bx|bx| |bx mx ex], y as [b_y|b_y| |b_y my ey],
           z as [bz|bz| |bz mz ez];
    cbn [SFcompare]; try discriminate;
    repeat match goal with b : bool |- _ => destruct b end;
    try discriminate; try reflexivity.
  - intros [= H1] [= H2]. f_equal.
    rewrite finite_compare_opp_Lt in *. lia.
  - intros [= H1] [= H2]. f_equal.
    rewrite finite_compare_Lt in *. lia.
Qed.

Lemma gt_trans (a b c : Js.number) :
  Js.gt a b = true → Js.gt b c = true → Js.gt a c = true.
Proof.
  unfold Js.gt. rewrite !ltb_spec. unfold SFltb.
  destruct (SFcompare (Prim2SF b) (Prim2SF a)) as [[]|] eqn:Hba; try discriminate.
  destruct (SFcompare (Prim2SF c) (Prim2SF b)) as [[]|] eqn:Hcb; try discriminate.
  by rewrite (SFcompare_Lt_trans _ _ _ Hcb Hba).
Qed.

Lemma gt_irrefl (a : Js.number) : Js.gt a a = false.
Proof.
  unfold Js.gt. rewrite ltb_spec. unfold SFltb.
  destruct (Prim2SF a) as [b|b| |b m e] eqn:E.
  - reflexivity.
  - by destruct b.
  - reflexivity.
  - rewrite SFcompare_refl; [reflexivity | discriminate].
Qed.

(** ** Best performer *)

Local Abbreviation better :=
  (λ best inv : Investment,
     if Js.gt (returnPercent inv) (returnPercent best) then inv else best).

Lemma best_so_far (seen rest : list Investment) (best : Investment) :
  best ∈ seen →
  (∀ inv, inv ∈ seen → Js.gt (returnPercent inv) (returnPercent best) = false) →
  Js.reduce better rest best ∈ seen ++ rest
  ∧ ∀ inv, inv ∈ seen ++ rest →
      Js.gt (returnPercent inv) (returnPercent (Js.reduce better rest best)) = false.
Proof.
  unfold Js.reduce. revert seen best.
  induction rest as [|next rest IH]; intros seen best Hin Hmax.
  { rewrite app_nil_r. by split. }
  cbn [foldl]. rewrite (cons_middle next seen rest), app_assoc. apply IH.
  - destruct (Js.gt (returnPercent next) (returnPercent best));
      apply elem_of_app; [right; by apply list_elem_of_singleton | by left].
  - intros inv [Hinv | ->%list_elem_of_singleton]%elem_of_app.
    + destruct (Js.gt (returnPercent next) (returnPercent best)) eqn:Hnext;
        [|by apply Hmax].
      destruct (Js.gt (returnPercent inv) (returnPercent next)) eqn:Hinv'; [|done].
      pose proof (Hmax inv Hinv) as Hold.
      by rewrite (gt_trans _ _ _ Hinv' Hnext) in Hold.
    + destruct (Js.gt (returnPercent next) (returnPercent best)) eqn:Hnext;
        [apply gt_irrefl | done].
Qed.

(** X18. The "Best Performer" card shows nothing for an empty portfolio, and
    otherwise one of the investments, and no investment of the portfolio
    has a return that is greater than the return of the one shown. *)
Theorem bestInvestment_is_not_outperformed (investments : list Investment) :
  match bestInvestment investments with
  | None => investments = []
  | Some best =>
      best ∈ investments
      ∧ ∀ inv, inv ∈ investments →
          Js.gt (returnPercent inv) (returnPercent best) = false
  end.
Proof.
  destruct investments as [|first rest]; [done|]. cbn [bestInvestment].
  apply (best_so_far [first] rest first).
  - by apply list_elem_of_singleton.
  - intros inv ->%list_elem_of_singleton. apply gt_irrefl.
Qed.

(** ** Category chart *)

Local Abbreviation add_expense :=
  (λ (acc : gmap string Js.number) (transaction : Transaction),
     <[tx_category transaction :=
         (or_zero (acc !! tx_category transaction) + tx_amount transaction)%float]>
       acc).

Lemma add_expenses_keys (expenses : list Transaction) (acc : gmap string Js.number)
    (category : string) :
  is_Some (Js.reduce add_expense expenses acc !! category)
  ↔ is_Some (acc !! category) ∨ ∃ t, t ∈ expenses ∧ tx_category t = category.
Proof.
  unfold Js.reduce. revert acc.
  induction expenses as [|t expenses IH]; intros acc; cbn [foldl].
  { split; [by left|]. intros [H|(t & Ht%elem_of_nil & _)]; done. }
  rewrite IH, lookup_insert_is_Some. split.
  - intros [[Heq | [_ Hacc]] | (t' & Ht' & Hc)].
    + right. exists t. split; [left | done].
    + by left.
    + right. exists t'. split; [by right | done].
  - intros [Hacc | (t' & [-> | Ht']%elem_of_cons & Hc)].
    + left. destruct (decide (tx_category t = category)); [by left | by right].
    + left. by left.
    + right. by exists t'.
Qed.

Lemma add_expenses_of_category (expenses : list Transaction)
    (acc acc' : gmap string Js.number) (category : string) :
  acc !! category = acc' !! category →
  Js.reduce add_expense expenses acc !! category
  = Js.reduce add_expense (filter (λ t, tx_category t = category) expenses) acc'
    !! category.
Proof.
  unfold Js.reduce. revert acc acc'.
  induction expenses as [|t expenses IH]; intros acc acc' Hacc; [done|].
  cbn [foldl]. destruct (decide (tx_category t = category)) as [Hc | Hc].
  - rewrite filter_cons_True by done. cbn [foldl]. apply IH.
    rewrite Hc, !lookup_insert_eq. by rewrite Hacc.
  - rewrite filter_cons_False by done. apply IH.
    by rewrite lookup_insert_ne.
Qed.

(** X19. The chart's data, when no expense has a category named like an
    inherited property: it has an entry for exactly the categories of the
    "expense" transactions (incomes and other kinds add none), and the
    entry of a category is what the chart computes from the transactions
    of that category alone. *)
Theorem categoryData_by_category (transactions : list Transaction)
    (data : gmap string Js.number) (category : string) :
  categoryData transactions = Some data →
  (is_Some (data !! category)
   ↔ ∃ t, t ∈ transactions ∧ tx_type t = "expense" ∧ tx_category t = category)
  ∧ ∃ data',
      categoryData (filter (λ t, tx_category t = category) transactions) = Some data'
      ∧ data !! category = data' !! category.
Proof.
  unfold categoryData. case_decide as Hnames; [|done]. intros [= <-]. split.
  - rewrite add_expenses_keys, lookup_empty. split.
    + intros [[? [=]] | (t & [Hty Ht]%list_elem_of_filter & Hc)]. by exists t.
    + intros (t & Ht & Hty & Hc). right. exists t.
      split; [by apply list_elem_of_filter | done].
  - rewrite decide_True.
    + eexists. split; [done|].
      rewrite (add_expenses_of_category _ ∅ ∅ category eq_refl).
      by rewrite !list_filter_filter, (list_filter_iff _ (λ t, tx_type t = "expense" ∧ tx_category t = category)) by tauto.
    + rewrite Forall_forall in *. intros t [Hty [_ Ht]%list_elem_of_filter]%list_elem_of_filter.
      apply Hnames. by apply list_elem_of_filter.
Qed.

(** The three transactions of the balance scenario: the salary adds no
    entry, rent and food one each. *)
Lemma categoryData_by_category_witness :
  is_Some
    (default ∅ (categoryData balance_scenario) !! "Housing")
  ∧ ¬ is_Some (default ∅ (categoryData balance_scenario) !! "Salary").
Proof.
  assert (Hdata : categoryData balance_scenario
                  = Some (default ∅ (categoryData balance_scenario))).
  { unfold categoryData. rewrite decide_True; [done|].
    cbn. repeat constructor;
      (intros Hin; repeat (apply elem_of_cons in Hin as [Heq|Hin]; [discriminate Heq|]);
       by apply elem_of_nil in Hin). }
  split.
  - apply (categoryData_by_category balance_scenario _ "Housing" Hdata).
    eexists. split; [right; left|]. done.
  - intros Hsome.
    apply (categoryData_by_category balance_scenario _ "Salary" Hdata) in Hsome
      as (t & Ht & Hty & Hc).
    unfold balance_scenario in Ht.
    repeat (apply elem_of_cons in Ht as [-> | Ht]; [discriminate|]).
    by apply elem_of_nil in Ht.
Defined.

(** ** Goals *)

Lemma Prim2SF_hundred : ∃ m e, Prim2SF 100%float = S754_finite false m e.
Proof. vm_compute. eauto. Qed.

Lemma Prim2SF_half : ∃ m e, Prim2SF 0.5%float = S754_finite false m e.
Proof. vm_compute. eauto. Qed.

Lemma SFcompare_Eq_finite (s : spec_float) (m : positive) (e : Z) :
  SFcompare s (S754_finite false m e) = Some Eq → s = S754_finite false m e.
Proof.
  destruct s as [b|b| |b m' e']; cbn [SFcompare].
  - destruct b; discriminate.
  - destruct b; discriminate.
  - discriminate.
  - destruct b; [discriminate|].
    destruct (e' ?= e)%Z eqn:Ee; [|discriminate..].
    destruct (PosDef.Pos.compare_cont Eq m' m) eqn:Hm; [|discriminate..].
    intros _. apply Z.compare_eq in Ee. apply Pos.compare_eq in Hm. congruence.
Qed.

Lemma ltb_not_leb (a b : Js.number) :
  PrimFloat.ltb b a = true → PrimFloat.leb a b = false.
Proof.
  rewrite ltb_spec, leb_spec. unfold SFltb, SFleb.
  rewrite (SFcompare_antisym (Prim2SF b) (Prim2SF a)).
  by destruct (SFcompare (Prim2SF b) (Prim2SF a)) as [[]|].
Qed.

Lemma neither_below_nor_above_hundred (p : Js.number) :
  PrimFloat.is_nan p = false →
  PrimFloat.ltb p 100%float = false → PrimFloat.ltb 100%float p = false →
  p = 100%float.
Proof.
  rewrite is_nan_spec, !ltb_spec. unfold SFltb. intros Hp.
  rewrite (SFcompare_antisym (Prim2SF p) (Prim2SF 100%float)).
  destruct Prim2SF_hundred as (m & e & E).
  destruct (SFcompare_is_Some (Prim2SF p) (Prim2SF 100%float)) as [c Hc].
  { intros E'. by rewrite E' in Hp. }
  { rewrite E. discriminate. }
  rewrite Hc. destruct c; cbn [fmap option_fmap option_map CompOpp]; try discriminate.
  intros _ _. rewrite E in Hc. apply SFcompare_Eq_finite in Hc.
  rewrite <- E in Hc. by apply Prim2SF_inj in Hc.
Qed.

(** X20. The width of a goal's progress bar never exceeds 100 percent, and is
    the progress itself when that is at most 100; here the progress is a
    number (it is not one only when the amounts divide to no number, as
    infinity by infinity). *)
Theorem barWidth_at_most_100 (g : Goal) :
  PrimFloat.is_nan (progress g) = false →
  PrimFloat.leb (barWidth g) 100%float = true
  ∧ (PrimFloat.leb (progress g) 100%float = true → barWidth g = progress g).
Proof.
  intros Hp. unfold barWidth, Js.Math_min. rewrite Hp.
  assert (Hnan : PrimFloat.is_nan 100%float = false) by (vm_compute; reflexivity).
  assert (Hrefl : PrimFloat.leb 100%float 100%float = true) by (vm_compute; reflexivity).
  rewrite Hnan. cbn [orb].
  destruct (PrimFloat.ltb (progress g) 100%float) eqn:Hlt.
  { split; [by apply ltb_leb | done]. }
  destruct (PrimFloat.ltb 100%float (progress g)) eqn:Hgt.
  { split; [exact Hrefl|]. intros Hle. by rewrite (ltb_not_leb _ _ Hgt) in Hle. }
  rewrite (neither_below_nor_above_hundred (progress g) Hp Hlt Hgt).
  destruct (get_sign 100%float); by split.
Qed.

(** The over-funded goal: its progress is 150, its bar is 100 wide. *)
Lemma barWidth_at_most_100_witness :
  PrimFloat.leb (barWidth goal_overfunded) 100%float = true
  ∧ progress goal_overfunded = 150%float.
Proof.
  split.
  - apply (barWidth_at_most_100 goal_overfunded). vm_compute. reflexivity.
  - vm_compute. reflexivity.
Defined.

(** X21. The card of a goal guards its division by the target, the "on track"
    count does not.  A goal whose target is 0 and whose saved amount is
    positive is shown as 0 percent complete, and is counted among the
    goals that are at least 50 percent complete. *)
Theorem goal_without_target_counts_as_half_complete (g : Goal) (current : Js.number) :
  goal_targetAmount g = 0%float →
  goal_currentAmount g = Some current →
  Js.gt current 0%float = true →
  progress g = 0%float ∧ atLeastHalf g = true ∧ onTrack [g] = 1.
Proof.
  intros Htarget Hcurrent Hpos.
  assert (Hhalf : atLeastHalf g = true).
  { unfold atLeastHalf, ge. rewrite Htarget, Hcurrent.
    change (Js.ToNumber (Some current)) with current.
    rewrite leb_spec, div_spec, Prim2SF_zero.
    unfold Js.gt in Hpos. rewrite ltb_spec, Prim2SF_zero in Hpos.
    destruct Prim2SF_half as (m & e & ->). unfold SFltb, SFleb in *.
    destruct (Prim2SF current) as [b|b| |b m' e'] eqn:E; cbn [SFcompare] in Hpos.
    - discriminate.
    - destruct b; [discriminate|]. reflexivity.
    - discriminate.
    - destruct b; [discriminate|]. reflexivity. }
  split; [|split; [done|]].
  - unfold progress. rewrite Htarget. by rewrite gt_irrefl.
  - unfold onTrack. by rewrite filter_cons_True.
Qed.

(** A goal with target 0 and 10 saved. *)
Lemma goal_without_target_counts_as_half_complete_witness :
  progress goal_no_target = 0%float ∧ onTrack [goal_no_target] = 1.
Proof.
  destruct (goal_without_target_counts_as_half_complete goal_no_target 10%float)
    as (Hprogress & _ & Hcount).
  - reflexivity.
  - reflexivity.
  - vm_compute. reflexivity.
  - by split.
Defined.

End PageLaws.

(* ===================================================================== *)
(** * What a PUT or a DELETE leaves alone *)
(* ===================================================================== *)

Section Untouched.
Import Storage Routes.

Lemma set_where_elem {Row : Type} (P : Row → Prop) `{!∀ r, Decision (P r)}
    (set : Row → Row) (t : list Row) (r : Row) :
  r ∈ t → ¬ P r → r ∈ Query.set_where P set t.
Proof.
  intros [i Hi]%list_elem_of_lookup_1 HP.
  apply (list_elem_of_lookup_2 _ i). by apply set_where_keeps.
Qed.

(** X7. A PUT or a DELETE on /api/transactions/:id, /api/investments/:id or
    /api/goals/:id, whatever it answers, leaves the other tables as they
    were, and leaves in its own table every row that has another
    identifier or that belongs, at that moment, to another user than the
    caller. *)
Theorem put_and_delete_leave_the_other_rows (id userId : string) (body : Js.object)
    (db : Db) :
  (∀ db', db' = (put_transactions id body userId db).1 ∨ db' = (delete_transactions id userId db).1 →
     (users db' = users db ∧ investments db' = investments db ∧ goals db' = goals db ∧ savingsTips db' = savingsTips db)
     ∧ ∀ t, t ∈ transactions db → tx_id t ≠ id ∨ tx_userId t ≠ userId →
            t ∈ transactions db')
  ∧ (∀ db', db' = (put_investments id body userId db).1 ∨ db' = (delete_investments id userId db).1 →
     (users db' = users db ∧ transactions db' = transactions db ∧ goals db' = goals db ∧ savingsTips db' = savingsTips db)
     ∧ ∀ i, i ∈ investments db → inv_id i ≠ id ∨ inv_userId i ≠ userId →
            i ∈ investments db')
  ∧ (∀ db', db' = (put_goals id body userId db).1 ∨ db' = (delete_goals id userId db).1 →
     (users db' = users db ∧ transactions db' = transactions db ∧ investments db' = investments db ∧ savingsTips db' = savingsTips db)
     ∧ ∀ g, g ∈ goals db → goal_id g ≠ id ∨ goal_userId g ≠ userId →
            g ∈ goals db').
Proof.
  split; [|split].
  - intros db' Hdb'.
    assert (Hcases : db' = db
                     ∨ (∃ updates, db' = with_transactions db
                          (Query.set_where (λ r, tx_id r = id ∧ tx_userId r = userId)
                             (set_transaction updates) (transactions db)))
                     ∨ db' = with_transactions db
                          (Query.delete_where (λ r, tx_id r = id ∧ tx_userId r = userId)
                             (transactions db)).1).
    { destruct Hdb' as [-> | ->].
      - unfold put_transactions.
        destruct (Zod.insertTransactionSchema_partial body) as [updates|]; [|by left].
        unfold updateTransaction. destruct (no_transaction_values updates); [by left|].
        destruct (Query.update_where _ _ _ _) as [rows|] eqn:Hupd; [|by left].
        apply update_where_Some in Hupd as ->. cbn [mbind option_bind].
        destruct (getTransaction _ _ _); right; left; by exists updates.
      - unfold delete_transactions, deleteTransaction. cbn [fst snd].
        destruct (bool_decide _); by right; right. }
    destruct Hcases as [-> | [(updates & ->) | ->]].
    + by repeat split.
    + split; [by repeat split|]. intros t Hin Hother.
      cbn [transactions with_transactions]. apply set_where_elem; [done|].
      intros [? ?]. by destruct Hother.
    + split; [by repeat split|]. intros t Hin Hother.
      cbn [transactions with_transactions]. apply delete_where_keeps; [done|].
      intros [? ?]. by destruct Hother.
  - intros db' Hdb'.
    assert (Hcases : db' = db
                     ∨ (∃ updates, db' = with_investments db
                          (Query.set_where (λ r, inv_id r = id ∧ inv_userId r = userId)
                             (set_investment updates) (investments db)))
                     ∨ db' = with_investments db
                          (Query.delete_where (λ r, inv_id r = id ∧ inv_userId r = userId)
                             (investments db)).1).
    { destruct Hdb' as [-> | ->].
      - unfold put_investments.
        destruct (Zod.insertInvestmentSchema_partial body) as [updates|]; [|by left].
        unfold updateInvestment. destruct (no_investment_values updates); [by left|].
        destruct (Query.update_where _ _ _ _) as [rows|] eqn:Hupd; [|by left].
        apply update_where_Some in Hupd as ->. cbn [mbind option_bind].
        destruct (getInvestment _ _ _); right; left; by exists updates.
      - unfold delete_investments, deleteInvestment. cbn [fst snd].
        destruct (bool_decide _); by right; right. }
    destruct Hcases as [-> | [(updates & ->) | ->]].
    + by repeat split.
    + split; [by repeat split|]. intros i Hin Hother.
      cbn [investments with_investments]. apply set_where_elem; [done|].
      intros [? ?]. by destruct Hother.
    + split; [by repeat split|]. intros i Hin Hother.
      cbn [investments with_investments]. apply delete_where_keeps; [done|].
      intros [? ?]. by destruct Hother.
  - intros db' Hdb'.
    assert (Hcases : db' = db
                     ∨ (∃ updates, db' = with_goals db
                          (Query.set_where (λ r, goal_id r = id ∧ goal_userId r = userId)
                             (set_goal updates) (goals db)))
                     ∨ db' = with_goals db
                          (Query.delete_where (λ r, goal_id r = id ∧ goal_userId r = userId)
                             (goals db)).1).
    { destruct Hdb' as [-> | ->].
      - unfold put_goals.
        destruct (Zod.insertGoalSchema_partial body) as [updates|]; [|by left].
        unfold updateGoal. destruct (no_goal_values updates); [by left|].
        destruct (Query.update_where _ _ _ _) as [rows|] eqn:Hupd; [|by left].
        apply update_where_Some in Hupd as ->. cbn [mbind option_bind].
        destruct (getGoal _ _ _); right; left; by exists updates.
      - unfold delete_goals, deleteGoal. cbn [fst snd].
        destruct (bool_decide _); by right; right. }
    destruct Hcases as [-> | [(updates & ->) | ->]].
    + by repeat split.
    + split; [by repeat split|]. intros g Hin Hother.
      cbn [goals with_goals]. apply set_where_elem; [done|].
      intros [? ?]. by destruct Hother.
    + split; [by repeat split|]. intros g Hin Hother.
      cbn [goals with_goals]. apply delete_where_keeps; [done|].
      intros [? ?]. by destruct Hother.
Qed.

(** Bob's PUT and DELETE on Alice's transaction leave it where it is. *)
Lemma put_and_delete_leave_the_other_rows_witness :
  transactions (put_transactions "tx-1" tea bob db_created).1 = transactions db_created
  ∧ transactions (delete_transactions "tx-1" bob db_created).1
    = transactions db_created.
Proof.
  destruct (put_and_delete_leave_the_other_rows "tx-1" bob tea db_created)
    as [Htx _].
  assert (Hrow : ∀ db', length (transactions db') ≤ 1 →
            mkTransaction "tx-1" alice "coffee" 3.5%float "Food & Dining" "expense"
              "2024-05-01" "2024-05-01T10:00:00.000Z" ∈ transactions db' →
            transactions db' = transactions db_created).
  { intros db' Hlen Hin. destruct (transactions db') as [|t [|t' l]].
    - by apply elem_of_nil in Hin.
    - apply list_elem_of_singleton in Hin. by subst t.
    - cbn in Hlen. lia. }
  split.
  - apply Hrow; [vm_compute; lia|].
    apply (Htx _ (or_introl eq_refl)); [left | by right].
  - apply Hrow; [vm_compute; lia|].
    apply (Htx _ (or_intror eq_refl)); [left | by right].
Defined.

End Untouched.

(* ===================================================================== *)
(** * The owner of a row is a user *)
(* ===================================================================== *)

Section ForeignKey.
Import Storage Routes.

Lemma insertTransactionSchema_partial_owner (o : Js.object) (updates : TransactionUpdates)
    (owner : string) :
  Zod.insertTransactionSchema_partial o = Some updates →
  o !! "userId" = Some (JStr owner) →
  ut_userId updates = Some owner.
Proof.
  unfold Zod.insertTransactionSchema_partial. intros Hp Ho. rewrite Ho in Hp.
  cbn [Zod.optional Zod.string_ fmap option_fmap option_map mbind option_bind] in Hp.
  revert Hp.
  repeat match goal with
         | |- context [Zod.optional ?p ?v] => destruct (Zod.optional p v); [|done]
         end.
  cbn. by intros [= <-].
Qed.

Lemma transaction_values_refused (db : Db) (updates : TransactionUpdates) (stranger : string) :
  stranger ∉ (user_id <$> users db) →
  ut_userId updates = Some stranger →
  transaction_values_ok db updates = false.
Proof.
  intros Hno Ho. unfold transaction_values_ok, references_user. rewrite Ho.
  cbn [from_option]. rewrite (bool_decide_eq_false_2 _ Hno). apply andb_false_r.
Qed.

Lemma insertInvestmentSchema_partial_owner (o : Js.object) (updates : InvestmentUpdates)
    (owner : string) :
  Zod.insertInvestmentSchema_partial o = Some updates →
  o !! "userId" = Some (JStr owner) →
  ui_userId updates = Some owner.
Proof.
  unfold Zod.insertInvestmentSchema_partial. intros Hp Ho. rewrite Ho in Hp.
  cbn [Zod.optional Zod.string_ fmap option_fmap option_map mbind option_bind] in Hp.
  revert Hp.
  repeat match goal with
         | |- context [Zod.optional ?p ?v] => destruct (Zod.optional p v); [|done]
         end.
  cbn. by intros [= <-].
Qed.

Lemma investment_values_refused (db : Db) (updates : InvestmentUpdates) (stranger : string) :
  stranger ∉ (user_id <$> users db) →
  ui_userId updates = Some stranger →
  investment_values_ok db updates = false.
Proof.
  intros Hno Ho. unfold investment_values_ok, references_user. rewrite Ho.
  cbn [from_option]. rewrite (bool_decide_eq_false_2 _ Hno). apply andb_false_r.
Qed.

Lemma insertGoalSchema_partial_owner (o : Js.object) (updates : GoalUpdates)
    (owner : string) :
  Zod.insertGoalSchema_partial o = Some updates →
  o !! "userId" = Some (JStr owner) →
  ug_userId updates = Some owner.
Proof.
  unfold Zod.insertGoalSchema_partial. intros Hp Ho. rewrite Ho in Hp.
  cbn [Zod.optional Zod.string_ fmap option_fmap option_map mbind option_bind] in Hp.
  revert Hp.
  repeat match goal with
         | |- context [Zod.optional ?p ?v] => destruct (Zod.optional p v); [|done]
         end.
  cbn. by intros [= <-].
Qed.

Lemma goal_values_refused (db : Db) (updates : GoalUpdates) (stranger : string) :
  stranger ∉ (user_id <$> users db) →
  ug_userId updates = Some stranger →
  goal_values_ok db updates = false.
Proof.
  intros Hno Ho. unfold goal_values_ok, references_user. rewrite Ho.
  cbn [from_option]. rewrite (bool_decide_eq_false_2 _ Hno). apply andb_false_r.
Qed.

(** X22. The owner of a record has to be a user.  A create request of a
    caller who has no row in [users] is answered 400 and stores nothing,
    whatever the body; and a PUT on a record of the caller whose body
    names as the new owner an identifier that is no user's is answered 400
    and changes nothing. *)
Theorem requests_naming_no_user_are_refused (d : Draw) (id userId stranger : string)
    (body : Js.object) (db : Db) :
  (userId ∉ (user_id <$> users db) →
   post_transactions d body userId db = (db, message 400 "Invalid transaction data")
   ∧ post_investments d body userId db = (db, message 400 "Invalid investment data")
   ∧ post_goals d body userId db = (db, message 400 "Invalid goal data"))
  ∧ (stranger ∉ (user_id <$> users db) →
     body !! "userId" = Some (JStr stranger) →
     (is_Some (getTransaction id userId db) →
      put_transactions id body userId db = (db, message 400 "Invalid update data"))
     ∧ (is_Some (getInvestment id userId db) →
        put_investments id body userId db = (db, message 400 "Invalid update data"))
     ∧ (is_Some (getGoal id userId db) →
        put_goals id body userId db = (db, message 400 "Invalid update data"))).
Proof.
  split.
  - intros Hghost. split; [|split].
    + unfold post_transactions.
      destruct (Zod.insertTransactionSchema _) as [ins|] eqn:Hp; [|done].
      cbn [mbind option_bind].
      apply insertTransactionSchema_userId in Hp.
      unfold createTransaction, Query.insert. case_decide; [done|].
      unfold transactions_check, references_user. cbn [tx_userId]. rewrite Hp.
      rewrite (bool_decide_eq_false_2 _ Hghost), andb_false_r. done.
    + unfold post_investments.
      destruct (Zod.insertInvestmentSchema _) as [ins|] eqn:Hp; [|done].
      cbn [mbind option_bind].
      apply insertInvestmentSchema_userId in Hp.
      unfold createInvestment, Query.insert. case_decide; [done|].
      unfold investments_check, references_user. cbn [inv_userId]. rewrite Hp.
      rewrite (bool_decide_eq_false_2 _ Hghost), andb_false_r. done.
    + unfold post_goals.
      destruct (Zod.insertGoalSchema _) as [ins|] eqn:Hp; [|done].
      cbn [mbind option_bind].
      apply insertGoalSchema_userId in Hp.
      unfold createGoal, Query.insert. case_decide; [done|].
      unfold goals_check, references_user. cbn [goal_userId]. rewrite Hp.
      rewrite (bool_decide_eq_false_2 _ Hghost), andb_false_r. done.
  - intros Hstranger Hbody. split; [|split].
    + intros [row Hrow]. unfold put_transactions.
      destruct (Zod.insertTransactionSchema_partial body) as [updates|] eqn:Hp; [|done].
      pose proof (insertTransactionSchema_partial_owner _ _ _ Hp Hbody) as Ho.
      unfold updateTransaction. destruct (no_transaction_values updates); [done|].
      rewrite (transaction_values_refused db updates stranger Hstranger Ho).
      apply select_first_Some in Hrow as [Hmatch Hin].
      by rewrite (update_where_refused _ _ _ row Hin Hmatch).
    + intros [row Hrow]. unfold put_investments.
      destruct (Zod.insertInvestmentSchema_partial body) as [updates|] eqn:Hp; [|done].
      pose proof (insertInvestmentSchema_partial_owner _ _ _ Hp Hbody) as Ho.
      unfold updateInvestment. destruct (no_investment_values updates); [done|].
      rewrite (investment_values_refused db updates stranger Hstranger Ho).
      apply select_first_Some in Hrow as [Hmatch Hin].
      by rewrite (update_where_refused _ _ _ row Hin Hmatch).
    + intros [row Hrow]. unfold put_goals.
      destruct (Zod.insertGoalSchema_partial body) as [updates|] eqn:Hp; [|done].
      pose proof (insertGoalSchema_partial_owner _ _ _ Hp Hbody) as Ho.
      unfold updateGoal. destruct (no_goal_values updates); [done|].
      rewrite (goal_values_refused db updates stranger Hstranger Ho).
      apply select_first_Some in Hrow as [Hmatch Hin].
      by rewrite (update_where_refused _ _ _ row Hin Hmatch).
Qed.

(** A caller whose token names no user cannot create a transaction, and
    Alice cannot hand her transaction to an identifier that is nobody's. *)
Lemma requests_naming_no_user_are_refused_witness :
  post_transactions (mkDraw "tx-9" "2024-05-04T10:00:00.000Z") coffee "user-ghost"
    db_created
  = (db_created, message 400 "Invalid transaction data")
  ∧ put_transactions "tx-1" {[ "userId" := JStr "user-nobody" ]} alice db_created
    = (db_created, message 400 "Invalid update data").
Proof.
  assert (Hno : ∀ who, who ≠ alice → who ≠ bob →
            who ∉ (user_id <$> users db_created)).
  { intros who Ha Hb Hin. vm_compute in Hin.
    apply elem_of_cons in Hin as [->|Hin]; [done|].
    apply elem_of_cons in Hin as [->|Hin]; [done|].
    by apply elem_of_nil in Hin. }
  split.
  - destruct (requests_naming_no_user_are_refused
                (mkDraw "tx-9" "2024-05-04T10:00:00.000Z") "tx-1" "user-ghost"
                "user-nobody" coffee db_created) as [Hpost _].
    by destruct (Hpost (Hno "user-ghost" ltac:(done) ltac:(done))) as [-> _].
  - destruct (requests_naming_no_user_are_refused
                (mkDraw "tx-9" "2024-05-04T10:00:00.000Z") "tx-1" alice
                "user-nobody" {[ "userId" := JStr "user-nobody" ]} db_created)
      as [_ Hput].
    destruct (Hput (Hno "user-nobody" ltac:(done) ltac:(done)) eq_refl) as [Htx _].
    apply Htx. by eexists.
Defined.

Lemma update_where_Some_valid {Row : Type} (P : Row → Prop) `{!∀ r, Decision (P r)}
    (set : Row → Row) (valid : bool) (t t' : list Row) :
  Query.update_where P set valid t = Some t' →
  t' = Query.set_where P set t ∧ (valid = true ∨ ∀ r, r ∈ t → ¬ P r).
Proof.
  unfold Query.update_where. destruct valid; cbn [orb].
  - intros [= <-]. split; [done | by left].
  - case_bool_decide as Hno; [|done]. intros [= <-]. split; [done|]. right.
    by apply Forall_forall.
Qed.

Lemma set_where_Forall {Row : Type} (Q : Row → Prop) (P : Row → Prop)
    `{!∀ r, Decision (P r)} (set : Row → Row) (t : list Row) :
  Forall Q t → (∀ r, r ∈ t → P r → Q (set r)) → Forall Q (Query.set_where P set t).
Proof.
  intros HQ Hset. unfold Query.set_where. apply Forall_fmap, Forall_forall.
  intros r Hr. cbn. case_decide; [by apply Hset|].
  rewrite Forall_forall in HQ. by apply HQ.
Qed.

Lemma filter_Forall {Row : Type} (Q : Row → Prop) (P : Row → Prop)
    `{!∀ r, Decision (P r)} (t : list Row) :
  Forall Q t → Forall Q (filter P t).
Proof.
  rewrite !Forall_forall. intros HQ r Hr%list_elem_of_filter. apply HQ, Hr.
Qed.

Lemma references_user_elem (db : Db) (userId : string) :
  references_user db userId = true → userId ∈ (user_id <$> users db).
Proof. unfold references_user. apply bool_decide_eq_true_1. Qed.

Lemma after_keeps_owners (call : StorageCall) (db : Db) :
  owners_are_users db → owners_are_users (after call db).
Proof.
  intros Hk. pose proof Hk as (Ht & Hi & Hg & Hs). destruct call; cbn [after].
  - unfold createUser.
    destruct (Query.insert _ _ _ _) as [rows|] eqn:Hins; cbn; [|done].
    apply insert_Some in Hins as (-> & _ & _). unfold owners_are_users.
    cbn [users transactions investments goals savingsTips with_users].
    rewrite fmap_app.
    repeat split; (eapply Forall_impl; [done|]); intros r Hr; apply elem_of_app;
      by left.
  - unfold createTransaction.
    destruct (Query.insert _ _ _ _) as [rows|] eqn:Hins; cbn; [|done].
    apply insert_Some in Hins as (-> & _ & Hcheck).
    apply andb_true_iff in Hcheck as [_ Hcheck%references_user_elem].
    split; [|done]. apply Forall_app. split; [done|]. by apply Forall_singleton.
  - unfold updateTransaction. destruct (no_transaction_values _); [done|].
    destruct (Query.update_where _ _ _ _) as [rows|] eqn:Hupd; [|exact Hk].
    apply update_where_Some_valid in Hupd as [-> Hvalid]. cbn [mbind option_bind].
    match goal with
    | |- owners_are_users (default _ (fst <$> Some (?db', _))) =>
        change (owners_are_users db')
    end.
    split; [|done]. cbn [users transactions with_transactions].
    apply set_where_Forall; [done|]. intros r Hr HP.
    destruct Hvalid as [Hvalid | Hno]; [|by destruct (Hno r Hr)].
    apply andb_true_iff in Hvalid as [_ Hvalid]. cbn [set_transaction tx_userId].
    destruct (ut_userId updates) as [owner|]; cbn [default from_option] in *.
    + by apply references_user_elem.
    + rewrite Forall_forall in Ht. by apply Ht.
  - split; [|done]. cbn. by apply filter_Forall.
  - unfold createInvestment.
    destruct (Query.insert _ _ _ _) as [rows|] eqn:Hins; cbn; [|done].
    apply insert_Some in Hins as (-> & _ & Hcheck).
    apply andb_true_iff in Hcheck as [_ Hcheck%references_user_elem].
    split; [done|]. split; [|done]. apply Forall_app. split; [done|].
    by apply Forall_singleton.
  - unfold updateInvestment. destruct (no_investment_values _); [done|].
    destruct (Query.update_where _ _ _ _) as [rows|] eqn:Hupd; [|exact Hk].
    apply update_where_Some_valid in Hupd as [-> Hvalid]. cbn [mbind option_bind].
    match goal with
    | |- owners_are_users (default _ (fst <$> Some (?db', _))) =>
        change (owners_are_users db')
    end.
    split; [done|]. split; [|done]. cbn [users investments with_investments].
    apply set_where_Forall; [done|]. intros r Hr HP.
    destruct Hvalid as [Hvalid | Hno]; [|by destruct (Hno r Hr)].
    apply andb_true_iff in Hvalid as [_ Hvalid]. cbn [set_investment inv_userId].
    destruct (ui_userId updates) as [owner|]; cbn [default from_option] in *.
    + by apply references_user_elem.
    + rewrite Forall_forall in Hi. by apply Hi.
  - split; [done|]. split; [|done]. cbn. by apply filter_Forall.
  - unfold createGoal.
    destruct (Query.insert _ _ _ _) as [rows|] eqn:Hins; cbn; [|done].
    apply insert_Some in Hins as (-> & _ & Hcheck).
    apply andb_true_iff in Hcheck as [_ Hcheck%references_user_elem].
    split; [done|]. split; [done|]. split; [|done]. apply Forall_app.
    split; [done|]. by apply Forall_singleton.
  - unfold updateGoal. destruct (no_goal_values _); [done|].
    destruct (Query.update_where _ _ _ _) as [rows|] eqn:Hupd; [|exact Hk].
    apply update_where_Some_valid in Hupd as [-> Hvalid]. cbn [mbind option_bind].
    match goal with
    | |- owners_are_users (default _ (fst <$> Some (?db', _))) =>
        change (owners_are_users db')
    end.
    split; [done|]. split; [done|]. split; [|done]. cbn [users goals with_goals].
    apply set_where_Forall; [done|]. intros r Hr HP.
    destruct Hvalid as [Hvalid | Hno]; [|by destruct (Hno r Hr)].
    apply andb_true_iff in Hvalid as [_ Hvalid]. cbn [set_goal goal_userId].
    destruct (ug_userId updates) as [owner|]; cbn [default from_option] in *.
    + by apply references_user_elem.
    + rewrite Forall_forall in Hg. by apply Hg.
  - split; [done|]. split; [done|]. split; [|done]. cbn. by apply filter_Forall.
  - unfold createSavingsTip.
    destruct (Query.insert _ _ _ _) as [rows|] eqn:Hins; cbn; [|done].
    apply insert_Some in Hins as (-> & _ & Hcheck).
    apply andb_true_iff in Hcheck as [_ Hcheck%references_user_elem].
    split; [done|]. split; [done|]. split; [done|]. apply Forall_app.
    split; [done|]. by apply Forall_singleton.
Qed.

(** X23. Whatever sequence of storage calls is made on the empty database:
    the owner of every transaction, investment, goal and savings tip is
    the identifier of a row of [users]. *)
Theorem owners_stay_users (calls : list StorageCall) :
  owners_are_users (foldl (λ db call, after call db) Storage.empty calls).
Proof.
  assert (Hgen : ∀ db, owners_are_users db →
                   owners_are_users (foldl (λ db call, after call db) db calls)).
  { induction calls as [|call calls IH]; intros db Hk; [done|].
    cbn. apply IH. by apply after_keeps_owners. }
  apply Hgen. by repeat split.
Qed.

End ForeignKey.
